(** * Leboncoin listing scraper: request building, price normalisation,
      part detection, margin estimation and result aggregation.

    The development follows the three Streamlit applications of the
    repository:

    - [Simple]  : keyword + zone lookup (first program of src/unnamed/part_000),
    - [Radius]  : city + radius + keyword lookup (src/app(11).py),
    - [Margin]  : the margin analyser with [LeboncoinAdapter], [detect_parts],
                  [compute_parts_value], [estimate_margin] and [run_search]
                  (second program of src/unnamed/part_000).

    Modelling conventions.
    - A Python [str] is a [string], its UTF-8 encoding; [int] is [Z].
    - A Python [float] is an exact rational [Q]: rounding, infinities and NaN
      are outside the model, except that the NaN produced by [np.nan] and the
      NaN standing for a missing cell of a pandas column are [None], and
      that an [int] too large for a [float] raises [OverflowError] where
      the code turns it into one.
    - What rests on tables of the interpreter (the case tables of
      [str.lower], the patterns of [re], the decoder of [json]) is a
      parameter of the model.
    - A Python [dict] is an association list in insertion order.
    - A raised exception is the [Raise] outcome of the [result] type. *)

From Stdlib Require Import List String Ascii ZArith QArith Qround Bool Lia.
From Stdlib Require Import Permutation Sorted Numbers.DecimalString.
From Stdlib Require Import Lqa DecimalZ Qabs.
Import ListNotations.

Open Scope string_scope.
Open Scope Z_scope.

(* ================================================================= *)
(** ** Python prelude *)

Module Py.

(** Exceptions that the modelled code can meet. *)
Inductive exn : Type :=
| re_error            (* re.error: the pattern does not compile *)
| TypeError
| ValueError
| AttributeError
| OverflowError
| NotImplementedError.

(** Outcome of a call: a value or a raised exception. *)
Inductive result (A : Type) : Type :=
| Return (a : A)
| Raise (e : exn).

Arguments Return {A} a.
Arguments Raise {A} e.

Definition bind {A B : Type} (m : result A) (k : A -> result B) : result B :=
  match m with
  | Return a => k a
  | Raise e => Raise e
  end.

Definition raises {A : Type} (m : result A) : bool :=
  match m with
  | Return _ => false
  | Raise _ => true
  end.

(** [str(n)] for an [int]. *)
Definition str_of_int (n : Z) : string :=
  NilEmpty.string_of_int (Z.to_int n).

(** [sep.join(parts)]. *)
Definition join (sep : string) (parts : list string) : string :=
  String.concat sep parts.

(** White space. [str.isspace] holds for the characters below and for no
    other; in the UTF-8 encoding a white-space character is one, two or
    three bytes long:
    - one byte: TAB, LF, VT, FF, CR, FS, GS, RS, US and the space;
    - two bytes: U+0085 (C2 85) and U+00A0 (C2 A0);
    - three bytes: U+1680 (E1 9A 80), U+2000 to U+200A (E2 80 80 to
      E2 80 8A), U+2028 and U+2029 (E2 80 A8, E2 80 A9), U+202F (E2 80 AF),
      U+205F (E2 81 9F) and U+3000 (E3 80 80). *)
Definition isspace (c : ascii) : bool :=
  let n := nat_of_ascii c in
  ((9 <=? n) && (n <=? 13) || (28 <=? n) && (n <=? 32))%nat.

Definition isspace2 (c b : ascii) : bool :=
  let m := nat_of_ascii c in
  let n := nat_of_ascii b in
  ((m =? 194) && ((n =? 133) || (n =? 160)))%nat.

Definition isspace3 (c b1 b2 : ascii) : bool :=
  let m := nat_of_ascii c in
  let n1 := nat_of_ascii b1 in
  let n2 := nat_of_ascii b2 in
  ((m =? 225) && (n1 =? 154) && (n2 =? 128)
   || (m =? 226) && (n1 =? 128)
      && ((128 <=? n2) && (n2 <=? 138)
          || (n2 =? 168) || (n2 =? 169) || (n2 =? 175))
   || (m =? 226) && (n1 =? 129) && (n2 =? 159)
   || (m =? 227) && (n1 =? 128) && (n2 =? 128))%nat.

(** Length in bytes of the white-space character at the start of [s]; 0
    when [s] does not start with one. *)
Definition space_width (s : string) : nat :=
  match s with
  | EmptyString => 0
  | String c rest =>
      if isspace c then 1
      else
        match rest with
        | EmptyString => 0
        | String b1 r =>
            if isspace2 c b1 then 2
            else
              match r with
              | EmptyString => 0
              | String b2 _ => if isspace3 c b1 b2 then 3 else 0
              end
        end
  end.

(** [s.lstrip()]: the white-space characters at the start go. *)
Fixpoint lstrip (s : string) : string :=
  match s with
  | EmptyString => EmptyString
  | String c rest =>
      if isspace c then lstrip rest
      else
        match rest with
        | EmptyString => s
        | String b1 r =>
            if isspace2 c b1 then lstrip r
            else
              match r with
              | EmptyString => s
              | String b2 r' => if isspace3 c b1 b2 then lstrip r' else s
              end
        end
  end.

(** A text made of white space only (the empty text too). *)
Definition blank (s : string) : bool :=
  match lstrip s with
  | EmptyString => true
  | _ => false
  end.

(** [s.rstrip()]: the text is cut where what follows is white space only.
    In UTF-8 no white-space character starts inside another character, so
    the cut falls between two characters. *)
Fixpoint rstrip (s : string) : string :=
  match s with
  | EmptyString => EmptyString
  | String c rest => if blank s then EmptyString else String c (rstrip rest)
  end.

(** [s.strip()]. *)
Definition strip (s : string) : string := rstrip (lstrip s).

(** [s.lower()]. The result rests on the case tables of the interpreter
    (every cased letter is lowered, with rules of context for some): the
    method is a parameter of the model. *)
Class CaseTables : Type := {
  lower : string -> string
}.

(** [s.startswith("/")]. *)
Definition startswith_slash (s : string) : bool :=
  match s with
  | String "/"%char _ => true
  | _ => false
  end.

(** Truth value of a [str]: the empty string is falsy. *)
Definition truthy_str (s : string) : bool :=
  match s with
  | EmptyString => false
  | _ => true
  end.

(** *** Dictionaries *)

Definition dict (V : Type) : Type := list (string * V).

(** [d.get(k)] *)
Fixpoint dict_get {V : Type} (d : dict V) (k : string) : option V :=
  match d with
  | [] => None
  | (k', v) :: rest => if String.eqb k' k then Some v else dict_get rest k
  end.

(** [d[k] = v]: replaces the value of an existing key in place, adds a new
    key at the end. *)
Fixpoint dict_set {V : Type} (d : dict V) (k : string) (v : V) : dict V :=
  match d with
  | [] => [(k, v)]
  | (k', v') :: rest =>
      if String.eqb k' k then (k', v) :: rest else (k', v') :: dict_set rest k v
  end.

Definition keys {V : Type} (d : dict V) : list string := map fst d.

(** A well-formed dictionary holds every key once. *)
Definition wf_dict {V : Type} (d : dict V) : Prop := NoDup (keys d).

End Py.

Import Py.

(** *** The case tables on the ASCII range

    Enough of [str.lower] to run the examples, whose texts are all in the
    ASCII range: there the method lowers the letters A to Z and keeps every
    other character. A text with other characters is outside this fragment. *)
Module AsciiCase.

Definition lower_ascii (c : ascii) : ascii :=
  let n := nat_of_ascii c in
  if ((65 <=? n) && (n <=? 90))%nat then ascii_of_nat (n + 32) else c.

Fixpoint lower_text (s : string) : string :=
  match s with
  | EmptyString => EmptyString
  | String c rest => String (lower_ascii c) (lower_text rest)
  end.

#[global] Instance tables : CaseTables := {
  lower := lower_text
}.

End AsciiCase.

(* ================================================================= *)
(** ** Percent encoding ([urllib.parse.quote], [quote_plus]) *)

Module UrlQuote.

Definition is_alnum (c : ascii) : bool :=
  let n := nat_of_ascii c in
  ((48 <=? n) && (n <=? 57) || (65 <=? n) && (n <=? 90)
   || (97 <=? n) && (n <=? 122))%nat.

(** Characters never quoted: letters, digits and [_.-~]. *)
Definition always_safe (c : ascii) : bool :=
  is_alnum c
  || Ascii.eqb c "_" || Ascii.eqb c "." || Ascii.eqb c "-" || Ascii.eqb c "~".

Definition hex_digit (n : nat) : ascii :=
  if (n <? 10)%nat then ascii_of_nat (48 + n) else ascii_of_nat (55 + n).

(** ["%XX"], upper-case hexadecimal. *)
Definition percent (c : ascii) : string :=
  let n := nat_of_ascii c in
  String "%" (String (hex_digit (n / 16)) (String (hex_digit (n mod 16)) EmptyString)).

Fixpoint quote_with (safe : ascii -> bool) (s : string) : string :=
  match s with
  | EmptyString => EmptyString
  | String c rest =>
      (if always_safe c || safe c then String c EmptyString else percent c)
        ++ quote_with safe rest
  end.

(** [requests.utils.quote(s)], that is [urllib.parse.quote(s, safe="/")]. *)
Definition quote (s : string) : string :=
  quote_with (fun c => Ascii.eqb c "/") s.

Fixpoint space_to_plus (s : string) : string :=
  match s with
  | EmptyString => EmptyString
  | String c rest =>
      String (if Ascii.eqb c " " then "+"%char else c) (space_to_plus rest)
  end.

(** [urllib.parse.quote_plus(s)]: the space is kept by the quoting pass and
    then turned into [+]; nothing else is safe. *)
Definition quote_plus (s : string) : string :=
  space_to_plus (quote_with (fun c => Ascii.eqb c " ") s).

End UrlQuote.

Import UrlQuote.

(* ================================================================= *)
(** ** Request builder *)

Definition LBC_SEARCH_BASE : string := "https://www.leboncoin.fr/recherche/".

(** [build_search_url(query, locations, page)] of the [Simple] and [Radius]
    programs (the two definitions are the same text). *)
Definition build_search_url (query : string) (locations : option string)
    (page : Z) : string :=
  let params :=
    [ "text=" ++ quote_plus (strip query); "page=" ++ str_of_int page ] in
  let params :=
    match locations with
    | Some l =>
        if truthy_str l && truthy_str (strip l)
        then List.app params [ "locations=" ++ quote_plus (strip l) ]
        else params
    | None => params
    end in
  LBC_SEARCH_BASE ++ "?" ++ join "&" params.

Module LeboncoinAdapter.

Definition BASE_URL : string := "https://www.leboncoin.fr/recherche/".

(** [f"{price_min}-{price_max if price_max is not None else ''}"]. *)
Definition price_token (price_min : Z) (price_max : option Z) : string :=
  str_of_int price_min ++ "-"
    ++ match price_max with
       | Some hi => str_of_int hi
       | None => EmptyString
       end.

(** [LeboncoinAdapter.build_search_url]. [category] is accepted and not
    used, as in the source. *)
Definition build_search_url (query : string) (category : option string)
    (locations : option string) (price_min price_max : option Z)
    (page : Z) : string :=
  let params : dict string :=
    [ ("text", strip query); ("page", str_of_int page) ] in
  let params :=
    (* if price_min is not None *)
    match price_min with
    | Some lo => dict_set params "price" (price_token lo price_max)
    | None => params
    end in
  let params :=
    (* if locations *)
    match locations with
    | Some l => if truthy_str l then dict_set params "locations" l else params
    | None => params
    end in
  let q := join "&" (map (fun kv => fst kv ++ "=" ++ quote (snd kv)) params) in
  BASE_URL ++ "?" ++ q.

End LeboncoinAdapter.

(** The outcome of calling a builder: its body holds no [raise] and no
    operation that fails on a [str] or an [int], so every call returns. *)
Definition call_build_search_url (query : string) (locations : option string)
    (page : Z) : result string :=
  Return (build_search_url query locations page).

Definition call_adapter_build_search_url (query : string)
    (category locations : option string) (price_min price_max : option Z)
    (page : Z) : result string :=
  Return (LeboncoinAdapter.build_search_url query category locations
            price_min price_max page).

(* ================================================================= *)
(** ** Values decoded by [json.loads] *)

Open Scope Q_scope.

#[local] Set Warnings "-register-all".

Inductive pyval : Type :=
| PNone
| PBool (b : bool)
| PInt (n : Z)
| PFloat (q : Q)
| PStr (s : string)
| PList (l : list pyval)
| PDict (d : list (string * pyval)).

(** Truth value of a decoded value, as tested by [or], [and] and [if]. *)
Definition truthy (v : pyval) : bool :=
  match v with
  | PNone => false
  | PBool b => b
  | PInt n => negb (Z.eqb n 0)
  | PFloat q => negb (Qeq_bool q 0)
  | PStr s => truthy_str s
  | PList l => match l with [] => false | _ => true end
  | PDict d => match d with [] => false | _ => true end
  end.

(** [a or b]. *)
Definition py_or (a b : pyval) : pyval := if truthy a then a else b.

(** [v.get(k)]: only a [dict] has the method; a missing key gives [None]. *)
Definition py_get (v : pyval) (k : string) : result pyval :=
  match v with
  | PDict d =>
      match dict_get d k with
      | Some x => Return x
      | None => Return PNone
      end
  | _ => Raise AttributeError
  end.

(** [isinstance(v, (int, float))]; a [bool] is an [int]. *)
Definition is_number (v : pyval) : bool :=
  match v with
  | PBool _ | PInt _ | PFloat _ => true
  | _ => false
  end.

(** The numeric value of a number. *)
Definition number_value (v : pyval) : Q :=
  match v with
  | PBool b => if b then 1 else 0
  | PInt n => inject_Z n
  | PFloat q => q
  | _ => 0
  end.

(* ================================================================= *)
(** ** Price of an ad record (structured-data tier of the parsers)

    The four statements on [price] are the same in [parse_ads] (Radius),
    [parse_listings_from_html] (Simple) and
    [LeboncoinAdapter.parse_listings] (Margin). *)

Section AdPrice.

(** [float(s)] on a [str]: [None] when the text is not a number
    ([ValueError]). *)
Variable float_of_str : string -> option Q.

(** [price = ad.get("price") or ad.get("priceCents")]. *)
Definition lookup_price (ad : pyval) : result pyval :=
  bind (py_get ad "price") (fun p =>
  bind (py_get ad "priceCents") (fun c =>
  Return (py_or p c))).

(** [if isinstance(price, dict): price = price.get("value")]. *)
Definition unwrap_value (price : pyval) : result pyval :=
  match price with
  | PDict _ => py_get price "value"
  | _ => Return price
  end.

(** The range of a [float]: a number becomes a [float] when its magnitude
    is below [2^1024 - 2^970], half a step above the largest [float];
    from there on the interpreter raises [OverflowError]. *)
Definition float_limit : Z := 2 ^ 1024 - 2 ^ 970.

Definition fits_float (q : Q) : bool :=
  negb (Qle_bool (inject_Z float_limit) (Qabs q)).

(** The minor-unit heuristic:
    [if isinstance(price, (int, float)) and price and price > 10000:
       price = price / 100]. The division of an [int] gives a [float] and
    raises [OverflowError] when the quotient is out of range. *)
Definition minor_unit (price : pyval) : result pyval :=
  if is_number price && truthy price
     && negb (Qle_bool (number_value price) 10000)
  then
    match price with
    | PInt n =>
        if fits_float (inject_Z n / 100) then Return (PFloat (inject_Z n / 100))
        else Raise OverflowError
    | _ => Return (PFloat (number_value price / 100))
    end
  else Return price.

(** [float(v)]: an [int] out of the range of a [float] raises
    [OverflowError]. *)
Definition py_float (v : pyval) : result Q :=
  match v with
  | PInt n =>
      if fits_float (inject_Z n) then Return (inject_Z n)
      else Raise OverflowError
  | PBool _ | PFloat _ => Return (number_value v)
  | PStr s =>
      match float_of_str s with
      | Some q => Return q
      | None => Raise ValueError
      end
  | _ => Raise TypeError
  end.

(** [price = float(price) if price else None]. *)
Definition float_or_none (price : pyval) : result (option Q) :=
  if truthy price then bind (py_float price) (fun q => Return (Some q))
  else Return None.

(** What the tier does to the price once it has been looked up. *)
Definition normalize_price (price : pyval) : result (option Q) :=
  bind (unwrap_value price) (fun p => bind (minor_unit p) float_or_none).

(** The price of one ad record. *)
Definition ad_price (ad : pyval) : result (option Q) :=
  bind (lookup_price ad) normalize_price.

End AdPrice.

(* ================================================================= *)
(** ** Listings and their valuation (Margin program) *)

Record Listing : Type := mkListing {
  source : string;
  url : string;
  title : string;
  price_eur : option Q;
  location : option string;
  date_str : option string;
  seller : option string;
  description : option string;
  images : list string;
  raw : pyval;
  (* analysis *)
  detected_parts : dict Z;
  parts_value_eur : Q;
  target_negotiation_pct : Q;
  negotiated_price_eur : option Q;
  estimated_margin_eur : option Q
}.

(** [Listing(source="Leboncoin", url=..., title=..., price_eur=...,
    location=..., date_str=..., images=..., raw=...)] with the defaults of
    the dataclass for the other fields. *)
Definition new_listing (u t : string) (p : option Q) (loc d : option string)
    (imgs : list string) (r : pyval) : Listing :=
  mkListing "Leboncoin" u t p loc d None None imgs r [] 0 0 None None.

Definition set_analysis (l : Listing) (parts : dict Z) (value pct : Q) : Listing :=
  mkListing (source l) (url l) (title l) (price_eur l) (location l)
    (date_str l) (seller l) (description l) (images l) (raw l)
    parts value pct (negotiated_price_eur l) (estimated_margin_eur l).

Definition set_margin (l : Listing) (negotiated margin : option Q) : Listing :=
  mkListing (source l) (url l) (title l) (price_eur l) (location l)
    (date_str l) (seller l) (description l) (images l) (raw l)
    (detected_parts l) (parts_value_eur l) (target_negotiation_pct l)
    negotiated margin.

(** The price of a card in the markup tier of [parse_listings]:
    [price_el] is the text found by [a.find(text=...)] for digits followed
    by the euro sign,
    [price_num] is [price_el] without the characters that are not digits
    ([re.sub] with the class [^0-9]), and
    [if price_num: price = float(price_num)]. *)
Definition is_digit (c : ascii) : bool :=
  let n := nat_of_ascii c in ((48 <=? n) && (n <=? 57))%nat.

Fixpoint digits_only (s : string) : string :=
  match s with
  | EmptyString => EmptyString
  | String c rest =>
      if is_digit c then String c (digits_only rest) else digits_only rest
  end.

Fixpoint int_of_digits (acc : Z) (s : string) : Z :=
  match s with
  | EmptyString => acc
  | String c rest =>
      int_of_digits (10 * acc + Z.of_nat (nat_of_ascii c - 48))%Z rest
  end.

Definition markup_price (price_el : option string) : option Q :=
  match price_el with
  | Some t =>
      let price_num := digits_only t in
      if truthy_str price_num then Some (inject_Z (int_of_digits 0 price_num))
      else None
  | None => None
  end.

(** [DEFAULT_PART_PATTERNS]. *)
Definition DEFAULT_PART_PATTERNS : dict string :=
  [ ("gpu_rtx_3070", "\brtx\s*3070\b|\b3070ti\b");
    ("gpu_rtx_4060", "\brtx\s*4060\b");
    ("gpu_rx_5700_xt", "\brx\s*5700\s*xt\b");
    ("cpu_ryzen_5_5600x", "\b(ryzen\s*5\s*5600x)\b");
    ("cpu_ryzen_5_3600", "\b(ryzen\s*5\s*3600)\b");
    ("cpu_i5_12400f", "\bi5[- ]?12400f\b");
    ("ram_ddr4_16", "\b(16\s*go\s*ddr4|ddr4\s*16\s*go)\b");
    ("ram_ddr4_32", "\b(32\s*go\s*ddr4|ddr4\s*32\s*go)\b");
    ("ssd_1to", "\b(1\s*t[bo]|1to|1\s*tera)\b");
    ("psu_650w_gold", "\b(650w).*\b(gold)\b");
    ("mobo_b450", "\bb450\b") ]%string.

(** [DEFAULT_PART_VALUES]. *)
Definition DEFAULT_PART_VALUES : dict Q :=
  [ ("gpu_rtx_3070"%string, 300);
    ("gpu_rtx_4060"%string, 260);
    ("gpu_rx_5700_xt"%string, 170);
    ("cpu_ryzen_5_5600x"%string, 140);
    ("cpu_ryzen_5_3600"%string, 70);
    ("cpu_i5_12400f"%string, 120);
    ("ram_ddr4_16"%string, 45);
    ("ram_ddr4_32"%string, 85);
    ("ssd_1to"%string, 55);
    ("psu_650w_gold"%string, 65);
    ("mobo_b450"%string, 55) ].

(** [price_map.get(k, 0)]. *)
Definition unit_value (price_map : dict Q) (k : string) : Q :=
  match dict_get price_map k with
  | Some v => v
  | None => 0
  end.

(** [compute_parts_value]: the loop adds [price_map.get(k, 0) * qty] to
    [total] for every item of [parts], in order. *)
Definition compute_parts_value (parts : dict Z) (price_map : dict Q) : Q :=
  fold_left
    (fun total kq => total + unit_value price_map (fst kq) * inject_Z (snd kq))
    parts 0.

(** [listing.price_eur or np.nan]: [None] stands for NaN. *)
Definition ask_price (price : option Q) : option Q :=
  match price with
  | Some p => if Qeq_bool p 0 then None else Some p
  | None => None
  end.

(** [max(0, x)]: the first argument stays unless [x > 0]. *)
Definition max0 (x : Q) : Q := if Qle_bool x 0 then 0 else x.

(** [estimate_margin]. *)
Definition estimate_margin (listing : Listing)
    (negotiation_pct dismantle_bonus_pct : Q) : Listing :=
  let ask := ask_price (price_eur listing) in
  let negotiated :=
    match ask with
    | None => None
    | Some a => Some (max0 (a * (1 - negotiation_pct / 100)))
    end in
  let parts_value :=
    parts_value_eur listing * (1 + dismantle_bonus_pct / 100) in
  let margin :=
    match negotiated with
    | None => None
    | Some n => Some (parts_value - n)
    end in
  set_margin listing negotiated margin.

(** The valuation of one listing in [run_search], once its parts are known:
    [lst.detected_parts = parts], [lst.parts_value_eur = compute_parts_value(..)],
    [lst.target_negotiation_pct = negotiation_pct], then [estimate_margin]. *)
Definition valuate (lst : Listing) (parts : dict Z) (price_map : dict Q)
    (negotiation_pct dismantle_bonus_pct : Q) : Listing :=
  estimate_margin
    (set_analysis lst parts (compute_parts_value parts price_map) negotiation_pct)
    negotiation_pct dismantle_bonus_pct.

(* ================================================================= *)
(** ** Part detection *)

(** The regular-expression engine ([re]) is a library of the interpreter:
    [re_compile] turns the text of a pattern into a compiled pattern or
    raises, [re_matches] lists the non-overlapping matches of a compiled
    pattern in a text, from left to right. *)
Class RegexEngine : Type := {
  regex : Type;
  re_compile : string -> result regex;
  re_matches : regex -> string -> list string
}.

Section Detector.

Context {engine : RegexEngine} {tables : CaseTables}.

(** [re.findall(pat, s)]. *)
Definition re_findall (pat s : string) : result (list string) :=
  bind (re_compile pat) (fun r => Return (re_matches r s)).

(** [try: m = re.findall(pat, lower); if m: found[key] = len(m)
    except re.error: pass]. Another exception leaves the function. *)
Definition detect_one (lowered : string) (found : dict Z)
    (key pat : string) : result (dict Z) :=
  match re_findall pat lowered with
  | Return m =>
      match m with
      | [] => Return found
      | _ => Return (dict_set found key (Z.of_nat (List.length m)))
      end
  | Raise re_error => Return found
  | Raise e => Raise e
  end.

(** The [for key, pat in patterns.items()] loop. *)
Fixpoint detect_loop (lowered : string) (patterns : dict string)
    (found : dict Z) : result (dict Z) :=
  match patterns with
  | [] => Return found
  | (key, pat) :: rest =>
      bind (detect_one lowered found key pat) (detect_loop lowered rest)
  end.

(** [detect_parts(text, patterns)]. *)
Definition detect_parts (text : string) (patterns : dict string)
    : result (dict Z) :=
  detect_loop (lower text) patterns [].

(** The count that a pattern contributes on a lowered text: [None] when the
    pattern does not compile or has no match. *)
Definition match_count (pat lowered : string) : option Z :=
  match re_compile pat with
  | Return r =>
      match re_matches r lowered with
      | [] => None
      | m => Some (Z.of_nat (List.length m))
      end
  | Raise _ => None
  end.

(** A rule is well formed when its pattern compiles, malformed when
    compiling it raises [re.error]. *)
Definition well_formed (pat : string) : Prop :=
  exists r, re_compile pat = Return r.

Definition malformed (pat : string) : Prop :=
  re_compile pat = Raise re_error.


(** Every rule of the registry compiles or is refused with [re.error]. *)
Definition rules_checked (patterns : dict string) : Prop :=
  forall k pat, In (k, pat) patterns -> well_formed pat \/ malformed pat.

(** What one turn of the loop leaves in [found], and what the loop leaves,
    when no other exception comes out of the engine. *)
Definition record (lowered : string) (found : dict Z) (key pat : string)
    : dict Z :=
  match match_count pat lowered with
  | Some n => dict_set found key n
  | None => found
  end.

Fixpoint record_all (lowered : string) (patterns : dict string)
    (found : dict Z) : dict Z :=
  match patterns with
  | [] => found
  | (key, pat) :: rest => record_all lowered rest (record lowered found key pat)
  end.

End Detector.

(** *** An engine for patterns of plain characters

    Enough of [re] to run the detector on examples: a pattern made of
    characters without a special meaning matches its own occurrences, found
    from left to right without overlap; the pattern ["("] is the malformed
    pattern of the examples (an unterminated group); the other patterns
    with a special character are outside this fragment and reported as
    [NotImplementedError], which the detector does not catch. *)
Module PlainRe.

Definition special (c : ascii) : bool :=
  existsb (Ascii.eqb c)
    (list_ascii_of_string ".^$*+?{}[]\|()").

Fixpoint has_special (s : string) : bool :=
  match s with
  | EmptyString => false
  | String c rest => special c || has_special rest
  end.

Definition compile (pat : string) : result string :=
  if String.eqb pat "(" then Raise re_error
  else if has_special pat then Raise NotImplementedError
  else Return pat.

(** Occurrences of a non-empty [pat] in [s]; [skip] characters belong to
    the previous match and cannot start a new one. *)
Fixpoint occurrences (pat : string) (skip : nat) (s : string) : list string :=
  match s with
  | EmptyString => []
  | String _ rest =>
      match skip with
      | S k => occurrences pat k rest
      | O =>
          if String.prefix pat s
          then pat :: occurrences pat (Nat.pred (String.length pat)) rest
          else occurrences pat 0 rest
      end
  end.

(** The empty pattern matches once at every position, the end included. *)
Definition matches (pat s : string) : list string :=
  match pat with
  | EmptyString => repeat EmptyString (S (String.length s))
  | _ => occurrences pat 0 s
  end.

(** [re.IGNORECASE] for these patterns: the letters of the pattern and of
    the text are compared without their case. *)
Definition matches_ignorecase (pat s : string) : list string :=
  matches (lower pat) (lower s).

#[global] Instance engine : RegexEngine := {
  regex := string;
  re_compile := compile;
  re_matches := matches
}.

End PlainRe.

(* ================================================================= *)
(** ** Data-frame operations

    A data frame is the list of its rows, in index order. *)

Module Pandas.

Section Frames.

Context {A : Type}.

(** [df.drop_duplicates(subset=[col])], with the default [keep="first"]:
    a row goes out when an earlier row has the same value in the column. *)
Fixpoint drop_from (col : A -> string) (seen : list string) (df : list A)
    : list A :=
  match df with
  | [] => []
  | r :: rest =>
      if existsb (String.eqb (col r)) seen
      then drop_from col seen rest
      else r :: drop_from col (col r :: seen) rest
  end.

Definition drop_duplicates (col : A -> string) (df : list A) : list A :=
  drop_from col [] df.

(** [df.sort_values(...)] for the order [leb] that the columns, the
    directions and [na_position] define: insertion from the right, a row
    going in front of the first row that is not before it. Rows with equal
    keys keep their order here; pandas leaves their order to the sorting
    algorithm, and no statement below depends on it. *)
Fixpoint insert_row (leb : A -> A -> bool) (r : A) (sorted : list A) : list A :=
  match sorted with
  | [] => [r]
  | r' :: rest =>
      if leb r r' then r :: sorted else r' :: insert_row leb r rest
  end.

Fixpoint sort_values (leb : A -> A -> bool) (df : list A) : list A :=
  match df with
  | [] => []
  | r :: rest => insert_row leb r (sort_values leb rest)
  end.

(** [df[mask]]. *)
Definition select (mask : A -> bool) (df : list A) : list A := filter mask df.

End Frames.

(** Order of the cells of a numeric column, missing cells last
    ([na_position="last"], the default), for both directions. *)
Definition cell_leb (ascending : bool) (a b : option Q) : bool :=
  match a, b with
  | _, None => true
  | None, Some _ => false
  | Some x, Some y => if ascending then Qle_bool x y else Qle_bool y x
  end.

(** Strictly before. *)
Definition cell_ltb (ascending : bool) (a b : option Q) : bool :=
  negb (cell_leb ascending b a).

(** Order on two columns: the first decides, the second breaks its ties. *)
Definition cell2_leb (asc1 asc2 : bool) (a b : option Q * option Q) : bool :=
  if cell_ltb asc1 (fst a) (fst b) then true
  else if cell_ltb asc1 (fst b) (fst a) then false
  else cell_leb asc2 (snd a) (snd b).

(** [col.notna().any()]. *)
Definition notna_any {A : Type} (col : A -> option Q) (df : list A) : bool :=
  existsb (fun r => match col r with Some _ => true | None => false end) df.

End Pandas.

(** [round(x, ndigits)] on the exact amount: to the nearest multiple of
    [10^-ndigits], a tie going to the even one. The code rounds the float
    that holds the amount, which may lie on either side of a decimal tie
    (2.675 is held below it): the properties below bound the result and do
    not say which way a tie goes. *)
Definition round_half_even (q : Q) : Z :=
  let f := Qfloor q in
  match Qcompare (q - inject_Z f) (1 # 2) with
  | Lt => f
  | Gt => (f + 1)%Z
  | Eq => if Z.even f then f else (f + 1)%Z
  end.

Definition py_round (q : Q) (ndigits : nat) : Q :=
  let scale := inject_Z (10 ^ Z.of_nat ndigits) in
  inject_Z (round_half_even (q * scale)) / scale.

(** The test [if not html] on the [Optional[str]] of a fetcher: the page
    when there is one, [None] for [None] and for the empty text. *)
Definition content (html : option string) : option string :=
  match html with
  | Some h => if truthy_str h then Some h else None
  | None => None
  end.

(** [range(1, pages + 1)]. *)
Definition page_range (pages : nat) : list Z :=
  map Z.of_nat (seq 1 pages).

(** What a run does besides computing: retrievals, notices to the user and
    pauses, in order. *)
Inductive event : Type :=
| Fetch (locator : string)
| Notice (page : Z)
| Sleep.

(** The rows that a sequence of requests gives when the request numbered
    [n] gives [yield n], taken one request after the other from [n]. *)
Fixpoint yields_from {X R : Type} (yield : nat -> X -> list R) (n : nat)
    (reqs : list X) : list R :=
  match reqs with
  | [] => []
  | x :: rest => yield n x ++ yields_from yield (S n) rest
  end.

(* ================================================================= *)
(** ** Simple program: keyword and zone *)

Module Simple.

(** A row of [results]: the keys [titre], [prix (€)], [lieu], [date],
    [url] and [image]. *)
Record row : Type := mkRow {
  titre : string;
  prix : option Q;
  lieu : option string;
  date : option string;
  url : string;
  image : option string
}.

Record state : Type := mkState {
  all_rows : list row;
  requests : nat;
  trace : list event
}.

Definition start : state := mkState [] 0 [].

Section Run.

(** The retrieval of the [n]-th request of the run and the parser of a
    retrieved page. *)
Variable fetch_html_with_browser : nat -> string -> option string.
Variable parse_listings_from_html : string -> list row.

(** The body of [for page in range(1, pages + 1)]. *)
Definition page_body (query zone : string) (st : state) (page : Z) : state :=
  let u := build_search_url query (Some zone) page in
  let html := fetch_html_with_browser (requests st) u in
  match content html with
  | None =>
      (* st.info(...); time.sleep(throttle); continue *)
      mkState (all_rows st) (S (requests st))
        (trace st ++ [Fetch u; Notice page; Sleep])
  | Some h =>
      let items := parse_listings_from_html h in
      mkState (all_rows st ++ items) (S (requests st))
        (trace st ++ [Fetch u; Sleep])
  end.

Definition fetch_loop (query zone : string) (pages : nat) : state :=
  fold_left (page_body query zone) (page_range pages) start.

(** What the request numbered [n], for the page [page], adds to the rows:
    nothing when the retrieval fails, the parsed rows otherwise. *)
Definition page_yield (query zone : string) (n : nat) (page : Z) : list row :=
  match content (fetch_html_with_browser n (build_search_url query (Some zone) page)) with
  | None => []
  | Some h => parse_listings_from_html h
  end.

(** The cleaning of the frame: duplicates out, then the order by price when
    some price is known. *)
Definition prix_leb (a b : row) : bool := Pandas.cell_leb true (prix a) (prix b).

Definition clean (df : list row) : list row :=
  match df with
  | [] => df
  | _ =>
      let df := Pandas.drop_duplicates url df in
      if Pandas.notna_any prix df then Pandas.sort_values prix_leb df else df
  end.

(** [if run: ...]: the frame stored in the session. *)
Definition run (query zone : string) (pages : nat) : list row :=
  clean (all_rows (fetch_loop query zone pages)).

End Run.

End Simple.

(* ================================================================= *)
(** ** Radius program: city, radius and keyword *)

Module Radius.

(** What [parse_ads] gives for one ad. *)
Record ad : Type := mkAd {
  titre : string;
  prix : option Q;
  ville : option string;
  date : option string;
  url : string;
  lat : option Q;
  lon : option Q
}.

(** The ad once the loop has set its [distance (km)]. *)
Record row : Type := mkRow {
  fields : ad;
  distance : option Q
}.

Record state : Type := mkState {
  rows : list row;
  requests : nat;
  trace : list event
}.

Definition start : state := mkState [] 0 [].

Section Run.

Variable do_fetch : nat -> string -> option string.
Variable parse_ads : string -> list ad.
(** [haversine_km] is built on the trigonometry of [math]. *)
Variable haversine_km : Q -> Q -> Q -> Q -> Q.

(** The body of [for ad in ads]. *)
Definition with_distance (lat0 lon0 : Q) (a : ad) : row :=
  let d :=
    match lat a, lon a with
    | Some la, Some lo => Some (haversine_km lat0 lon0 la lo)
    | _, _ => None
    end in
  mkRow a (match d with Some x => Some (py_round x 1) | None => None end).

(** The body of [for p in range(1, pages + 1)]. *)
Definition page_body (keyword city : string) (lat0 lon0 : Q)
    (st : state) (p : Z) : state :=
  let u := build_search_url keyword (Some city) p in
  let html := do_fetch (requests st) u in
  match content html with
  | None =>
      (* st.info(...); time.sleep(throttle); continue *)
      mkState (rows st) (S (requests st))
        (trace st ++ [Fetch u; Notice p; Sleep])
  | Some h =>
      let ads := parse_ads h in
      mkState (rows st ++ map (with_distance lat0 lon0) ads)
        (S (requests st)) (trace st ++ [Fetch u; Sleep])
  end.

Definition fetch_loop (keyword city : string) (lat0 lon0 : Q) (pages : nat)
    : state :=
  fold_left (page_body keyword city lat0 lon0) (page_range pages) start.

(** What the request numbered [n], for the page [p], adds to the rows. *)
Definition page_yield (keyword city : string) (lat0 lon0 : Q) (n : nat)
    (p : Z) : list row :=
  match content (do_fetch n (build_search_url keyword (Some city) p)) with
  | None => []
  | Some h => map (with_distance lat0 lon0) (parse_ads h)
  end.

End Run.

(** [df["distance (km)"].isna() | (df["distance (km)"] <= radius_km)]. *)
Definition keep (radius_km : Z) (r : row) : bool :=
  match distance r with
  | None => true
  | Some d => Qle_bool d (inject_Z radius_km)
  end.

(** Order of [sort_values(["distance (km)", "prix (€)"], ascending=[True, True])]. *)
Definition distance_prix_leb (a b : row) : bool :=
  Pandas.cell2_leb true true
    (distance a, prix (fields a)) (distance b, prix (fields b)).

(** The frame once filtered by the radius, without duplicates, in order. *)
Definition clean (radius_km : Z) (df : list row) : list row :=
  match df with
  | [] => df
  | _ =>
      let df :=
        Pandas.drop_duplicates (fun r => url (fields r))
          (Pandas.select (keep radius_km) df) in
      Pandas.sort_values distance_prix_leb df
  end.

(** [if run: ...]: [None] when the city is not found, and the frame of the
    session stays as it was. *)
Definition run (do_fetch : nat -> string -> option string)
    (parse_ads : string -> list ad) (haversine_km : Q -> Q -> Q -> Q -> Q)
    (geo : option (Q * Q)) (keyword city : string) (radius_km : Z)
    (pages : nat) : option (list row) :=
  match geo with
  | None => None
  | Some (lat0, lon0) =>
      Some (clean radius_km
              (rows (fetch_loop do_fetch parse_ads haversine_km
                       keyword city lat0 lon0 pages)))
  end.

End Radius.

(* ================================================================= *)
(** ** Margin program: [run_search] *)

Module Margin.

(** The widgets of the side bar. *)
Record settings : Type := mkSettings {
  queries : string;
  price_min : Z;
  price_max : Z;
  pages : nat;
  locations : string;
  use_browser : bool;
  price_map : dict Q;
  patterns : dict string;
  negotiation_pct : Q;
  dismantle_bonus_pct : Q
}.

(** A row of the result frame. *)
Record row : Type := mkRow {
  col_source : string;
  col_title : string;
  col_price : option Q;
  col_negotiated_price : option Q;
  col_parts_value : Q;
  col_est_margin : option Q;
  col_margin_pct : option Q;
  col_location : option string;
  col_date : option string;
  col_url : string;
  col_detected_parts : string
}.

Record state : Type := mkState {
  all_listings : list Listing;
  requests : nat;
  trace : list event
}.

Definition start : state := mkState [] 0 [].

(** [s.split(",")]. *)
Fixpoint split_comma (s : string) : list string :=
  match s with
  | EmptyString => [EmptyString]
  | String c rest =>
      if Ascii.eqb c "," then EmptyString :: split_comma rest
      else
        match split_comma rest with
        | [] => [String c EmptyString]
        | w :: ws => String c w :: ws
        end
  end.

(** [[q.strip() for q in queries.split(",") if q.strip()]]. *)
Definition qlist (cfg : settings) : list string :=
  map strip (filter (fun q => truthy_str (strip q)) (split_comma (queries cfg))).

(** [x if x else None] on a bound of the side bar. *)
Definition bound (x : Z) : option Z := if Z.eqb x 0 then None else Some x.

(** [locations or None]. *)
Definition zone (cfg : settings) : option string :=
  if truthy_str (locations cfg) then Some (locations cfg) else None.

(** The price filter of the listing loop: [true] when [continue] is taken. *)
Definition out_of_range (cfg : settings) (lst : Listing) : bool :=
  match price_eur lst with
  | Some p =>
      (negb (Z.eqb (price_min cfg) 0)
         && negb (Qle_bool (inject_Z (price_min cfg)) p))
      || (negb (Z.eqb (price_max cfg) 0)
            && negb (Qle_bool p (inject_Z (price_max cfg))))
  | None => false
  end.

Definition newline : string := String (ascii_of_nat 10) EmptyString.

(** [f"{lst.title}\n{lst.description or ''}"]. *)
Definition text_of (lst : Listing) : string :=
  (title lst ++ newline
     ++ match description lst with
        | Some d => d
        | None => EmptyString
        end)%string.

Section Run.

Context {engine : RegexEngine} {tables : CaseTables}.

(** The two fetchers, at the [n]-th request of the run, and the parser. *)
Variable fetch_page_browser : nat -> string -> option string.
Variable fetch_page_requests : nat -> string -> option string.
Variable parse_listings : string -> list Listing.

(** The body of [for lst in listings], [None] standing for [continue]. *)
Definition listing_body (cfg : settings) (lst : Listing)
    : result (option Listing) :=
  if out_of_range cfg lst then Return None
  else
    bind (detect_parts (text_of lst) (patterns cfg))
      (fun parts =>
         Return (Some (valuate lst parts (price_map cfg)
                         (negotiation_pct cfg) (dismantle_bonus_pct cfg)))).

Fixpoint listings_loop (cfg : settings) (listings acc : list Listing)
    : result (list Listing) :=
  match listings with
  | [] => Return acc
  | lst :: rest =>
      bind (listing_body cfg lst) (fun kept =>
        listings_loop cfg rest
          (match kept with
           | Some l => acc ++ [l]
           | None => acc
           end))
  end.

(** The retrieval of one page, the browser first when it is asked for. *)
Definition retrieve (cfg : settings) (n : nat) (u : string) : option string :=
  if use_browser cfg then
    match content (fetch_page_browser n u) with
    | Some h => Some h
    | None => fetch_page_requests n u
    end
  else fetch_page_requests n u.

(** The body of [for page in range(1, pages + 1)]. *)
Definition page_body (cfg : settings) (q : string) (st : state) (page : Z)
    : result state :=
  let u :=
    LeboncoinAdapter.build_search_url q None (zone cfg)
      (bound (price_min cfg)) (bound (price_max cfg)) page in
  let html := retrieve cfg (requests st) u in
  match content html with
  | None =>
      (* st.info(...); time.sleep(throttle); continue *)
      Return (mkState (all_listings st) (S (requests st))
                (trace st ++ [Fetch u; Notice page; Sleep]))
  | Some h =>
      bind (listings_loop cfg (parse_listings h) (all_listings st))
        (fun acc =>
           Return (mkState acc (S (requests st)) (trace st ++ [Fetch u; Sleep])))
  end.

Fixpoint pages_loop (cfg : settings) (q : string) (pages : list Z)
    (st : state) : result state :=
  match pages with
  | [] => Return st
  | page :: rest => bind (page_body cfg q st page) (pages_loop cfg q rest)
  end.

(** [for q in qlist]. *)
Fixpoint queries_loop (cfg : settings) (qs : list string) (st : state)
    : result state :=
  match qs with
  | [] => Return st
  | q :: rest =>
      bind (pages_loop cfg q (page_range (pages cfg)) st)
        (queries_loop cfg rest)
  end.

(** The requests of a run, in order: every page of every query. *)
Definition request_list (cfg : settings) : list (string * Z) :=
  flat_map (fun q => map (pair q) (page_range (pages cfg))) (qlist cfg).

(** What a parsed listing becomes: nothing outside the price range, else
    the listing with the counts of its text and its valuation. *)
Definition kept (cfg : settings) (lst : Listing) : list Listing :=
  if out_of_range cfg lst then []
  else
    [ valuate lst (record_all (lower (text_of lst)) (patterns cfg) [])
        (price_map cfg) (negotiation_pct cfg) (dismantle_bonus_pct cfg) ].

(** What the request numbered [n], for the page [page] of the query [q],
    adds to the listings. *)
Definition page_yield (cfg : settings) (n : nat) (request : string * Z)
    : list Listing :=
  let u :=
    LeboncoinAdapter.build_search_url (fst request) None (zone cfg)
      (bound (price_min cfg)) (bound (price_max cfg)) (snd request) in
  match content (retrieve cfg n u) with
  | None => []
  | Some h => flat_map (kept cfg) (parse_listings h)
  end.

End Run.

(** [max(1.0, x)]. *)
Definition max1 (x : Q) : Q := if Qle_bool x 1 then 1 else x.

(** [", ".join([f"{k}×{v}" for k, v in parts.items()])]. *)
Definition show_parts (parts : dict Z) : string :=
  join ", " (map (fun kv => (fst kv ++ "×" ++ str_of_int (snd kv))%string) parts).

(** The row built from a listing. *)
Definition to_row (L : Listing) : row :=
  mkRow (source L) (title L) (price_eur L) (negotiated_price_eur L)
    (py_round (parts_value_eur L) 2)
    (match estimated_margin_eur L with
     | None => None
     | Some m => Some (py_round m 2)
     end)
    (match estimated_margin_eur L, ask_price (negotiated_price_eur L) with
     | Some m, Some n => Some (py_round (100 * m / max1 n) 1)
     | _, _ => None
     end)
    (location L) (date_str L) (url L)
    (show_parts (detected_parts L)).

(** Order of [sort_values(["est_margin"], ascending=[False])]. *)
Definition est_margin_leb (a b : row) : bool :=
  Pandas.cell_leb false (col_est_margin a) (col_est_margin b).

(** From the listings to the sorted frame. *)
Definition to_frame (listings : list Listing) : list row :=
  let df := map to_row listings in
  match df with
  | [] => df
  | _ => Pandas.sort_values est_margin_leb df
  end.

(** [run_search()]. *)
Definition run_search {engine : RegexEngine} {tables : CaseTables}
    (fetch_page_browser fetch_page_requests : nat -> string -> option string)
    (parse_listings : string -> list Listing) (cfg : settings)
    : result (list row) :=
  bind (queries_loop fetch_page_browser fetch_page_requests parse_listings
          cfg (qlist cfg) start)
    (fun st => Return (to_frame (all_listings st))).

End Margin.

(* ================================================================= *)
(** ** Parsers: the structured-data tier and the markup tier

    The page is seen through what the parsers ask of [BeautifulSoup]: the
    text of the script [__NEXT_DATA__], when the page has one, and the
    cards selected in the markup. [json.loads] is the decoder of the
    interpreter. *)

Notation "x <- m ;; k" := (bind m (fun x => k))
  (at level 61, m at next level, right associativity).

(** [v.get(k, default)]. *)
Definition py_get_default (v : pyval) (k : string) (default : pyval)
    : result pyval :=
  match v with
  | PDict d =>
      match dict_get d k with
      | Some x => Return x
      | None => Return default
      end
  | _ => Raise AttributeError
  end.

(** The items of [for x in v]: those of a list, the keys of a dictionary,
    the characters of a text (here its bytes; none has a [get] method). *)
Definition py_iter (v : pyval) : result (list pyval) :=
  match v with
  | PList l => Return l
  | PDict d => Return (map (fun kv => PStr (fst kv)) d)
  | PStr s =>
      Return (map (fun c => PStr (String c EmptyString)) (list_ascii_of_string s))
  | _ => Raise TypeError
  end.

(** [data.get("props", {}).get("pageProps", {}).get("searchData", {})
        .get("ads", [])]. *)
Definition ads_of (data : pyval) : result pyval :=
  props <- py_get_default data "props" (PDict []) ;;
  pageProps <- py_get_default props "pageProps" (PDict []) ;;
  searchData <- py_get_default pageProps "searchData" (PDict []) ;;
  py_get_default searchData "ads" (PList []).

(** [url] made absolute: [if url.startswith("/")]. *)
Definition absolute (href : string) : string :=
  if startswith_slash href then ("https://www.leboncoin.fr" ++ href)%string
  else href.

Section Tiers.

Variable json_loads : string -> result pyval.
Context {R C : Type}.
(** The body of [for ad in ads] up to the [append], and the row of a card. *)
Variable extract : pyval -> result R.
Variable of_card : C -> R.

(** The loop over the ads inside [try]: the rows appended, and the
    exception that ended the loop when there is one. *)
Fixpoint extract_all (ads : list pyval) (out : list R) : list R * option exn :=
  match ads with
  | [] => (out, None)
  | ad :: rest =>
      match extract ad with
      | Return r => extract_all rest (out ++ [r])
      | Raise e => (out, Some e)
      end
  end.

(** [if script and script.text: try: ...]: the rows that the block leaves
    and the exception caught by [except Exception], if any. *)
Definition structured_tier (script : option string) : list R * option exn :=
  match script with
  | Some text =>
      if truthy_str text then
        match (data <- json_loads text ;; nodes <- ads_of data ;; py_iter nodes) with
        | Return ads => extract_all ads []
        | Raise e => ([], Some e)
        end
      else ([], None)
  | None => ([], None)
  end.

(** The two tiers of [LeboncoinAdapter.parse_listings]: the markup tier
    runs under [if not listings]. *)
Definition parse_listings_tiers (script : option string) (cards : list C)
    : list R :=
  match fst (structured_tier script) with
  | [] => map of_card cards
  | listings => listings
  end.

(** The two tiers of [parse_ads] and [parse_listings_from_html]:
    [if out: return out] is the last statement of the [try] block, and the
    markup tier appends to the same [out]. *)
Definition parse_ads_tiers (script : option string) (cards : list C) : list R :=
  match structured_tier script with
  | (r :: out, None) => r :: out
  | (out, _) => out ++ map of_card cards
  end.

End Tiers.

(** *** Margin program *)

Module MarginParser.

(** The fields given to [Listing(...)] by the parser; the structured tier
    passes on the values of the ad, of whatever type. *)
Record fields : Type := mkFields {
  url : pyval;
  title : pyval;
  price_eur : option Q;
  location : pyval;
  date_str : pyval;
  images : list pyval;
  raw : pyval
}.

(** A card of the markup tier: [a.get("href", "")], the text of the first
    [span], [h2] or [h3] when there is one, and the text found for the
    price when there is one. *)
Record card : Type := mkCard {
  href : string;
  title_el : option string;
  price_el : option string
}.

(** [[p.get("url") for p in pics if isinstance(p, dict) and p.get("url")]]. *)
Definition image_urls (pics : list pyval) : list pyval :=
  flat_map
    (fun p =>
       match p with
       | PDict d =>
           match dict_get d "url" with
           | Some u => if truthy u then [u] else []
           | None => []
           end
       | _ => []
       end)
    pics.

Section Extract.

Variable float_of_str : string -> option Q.

(** The body of [for ad in nodes]. *)
Definition extract (ad : pyval) : result fields :=
  subject <- py_get ad "subject" ;;
  title0 <- py_get ad "title" ;;
  let title := py_or (py_or subject title0) (PStr "(sans titre)") in
  u <- py_get ad "url" ;;
  share <- py_get ad "shareLink" ;;
  let url := py_or (py_or u share) (PStr EmptyString) in
  price <- ad_price float_of_str ad ;;
  l <- py_get ad "location" ;;
  let loc := py_or l (PDict []) in
  location <-
    match loc with
    | PDict _ =>
        city <- py_get loc "city" ;;
        label <- py_get loc "label" ;;
        Return (py_or city label)
    | _ => Return PNone
    end ;;
  index_date <- py_get ad "index_date" ;;
  first_publication_date <- py_get ad "first_publication_date" ;;
  let date_str := py_or index_date first_publication_date in
  pics <- py_get_default ad "images" (PList []) ;;
  let images :=
    match pics with
    | PList ps => image_urls ps
    | _ => []
    end in
  Return (mkFields url title price location date_str images ad).

End Extract.

(** The listing of a card. *)
Definition of_card (a : card) : fields :=
  mkFields
    (PStr (if truthy_str (href a) then absolute (href a) else href a))
    (PStr (match title_el a with
           | Some t => t
           | None => "(sans titre)"%string
           end))
    (markup_price (price_el a))
    PNone PNone [] (PDict []).

(** [LeboncoinAdapter.parse_listings] on what the page shows. *)
Definition parse_listings (json_loads : string -> result pyval)
    (float_of_str : string -> option Q) (script : option string)
    (cards : list card) : list fields :=
  parse_listings_tiers json_loads (extract float_of_str) of_card script cards.

End MarginParser.

(** *** Radius program *)

Module RadiusParser.

(** The dictionary appended to [out]. *)
Record fields : Type := mkFields {
  titre : pyval;
  prix : option Q;
  ville : pyval;
  date : pyval;
  url : pyval;
  lat : option Q;
  lon : option Q
}.

(** A card of the markup tier: its [href], the text of its first [span],
    [h2] or [h3] when there is one, and its flattened text. *)
Record card : Type := mkCard {
  href : string;
  heading : option string;
  text : string
}.

Section Extract.

Variable float_of_str : string -> option Q.
(** The price read in the flattened text of a card: the number in front of
    the euro sign found by [re.search], its spaces taken out, or [None]. *)
Variable euro_price : string -> option Q.

(** [float(x) if x is not None else None]. *)
Definition float_unless_none (x : pyval) : result (option Q) :=
  match x with
  | PNone => Return None
  | _ => q <- py_float float_of_str x ;; Return (Some q)
  end.

(** The body of [for ad in ads]. *)
Definition extract (ad : pyval) : result fields :=
  subject <- py_get ad "subject" ;;
  title0 <- py_get ad "title" ;;
  let title := py_or (py_or subject title0) (PStr "(sans titre)") in
  u <- py_get ad "url" ;;
  share <- py_get ad "shareLink" ;;
  let url := py_or (py_or u share) (PStr EmptyString) in
  price <- ad_price float_of_str ad ;;
  l <- py_get ad "location" ;;
  let loc := py_or l (PDict []) in
  city0 <- py_get loc "city" ;;
  label <- py_get loc "label" ;;
  let city := py_or city0 label in
  lat0 <- py_get loc "lat" ;;
  latitude <- py_get loc "latitude" ;;
  lng <- py_get loc "lng" ;;
  longitude <- py_get loc "longitude" ;;
  lat <- float_unless_none (py_or lat0 latitude) ;;
  lon <- float_unless_none (py_or lng longitude) ;;
  index_date <- py_get ad "index_date" ;;
  first_publication_date <- py_get ad "first_publication_date" ;;
  let date_str := py_or index_date first_publication_date in
  Return (mkFields title price city date_str url lat lon).

(** The dictionary of a card. *)
Definition of_card (a : card) : fields :=
  mkFields
    (PStr (match heading a with
           | Some t => t
           | None => "(sans titre)"%string
           end))
    (euro_price (text a)) PNone PNone (PStr (absolute (href a))) None None.

(** [parse_ads] on what the page shows. *)
Definition parse_ads (json_loads : string -> result pyval)
    (script : option string) (cards : list card) : list fields :=
  parse_ads_tiers json_loads extract of_card script cards.

End Extract.

End RadiusParser.

(** *** Simple program *)

Module SimpleParser.

(** The dictionary appended to [results]. *)
Record fields : Type := mkFields {
  titre : pyval;
  prix : option Q;
  lieu : pyval;
  date : pyval;
  url : pyval;
  image : pyval
}.

(** A card of the markup tier: its [href], the text of its first [span],
    [h2] or [h3] when there is one, its flattened text, and the [src] of
    its first [img] when it has one with this attribute. *)
Record card : Type := mkCard {
  href : string;
  heading : option string;
  text : string;
  img_src : option string
}.

Section Extract.

Variable float_of_str : string -> option Q.
(** The price read in the flattened text of a card, as in the Radius
    program. *)
Variable euro_price : string -> option Q.

(** [if isinstance(pics, list) and pics: img = pics[0].get("url")]. *)
Definition first_image (pics : pyval) : result pyval :=
  match pics with
  | PList (first :: _) => py_get first "url"
  | _ => Return PNone
  end.

(** The body of [for ad in ads]. *)
Definition extract (ad : pyval) : result fields :=
  subject <- py_get ad "subject" ;;
  title0 <- py_get ad "title" ;;
  let title := py_or (py_or subject title0) (PStr "(sans titre)") in
  u <- py_get ad "url" ;;
  share <- py_get ad "shareLink" ;;
  let url := py_or (py_or u share) (PStr EmptyString) in
  price <- ad_price float_of_str ad ;;
  l <- py_get ad "location" ;;
  let loc := py_or l (PDict []) in
  city <- py_get loc "city" ;;
  label <- py_get loc "label" ;;
  let location := py_or city label in
  index_date <- py_get ad "index_date" ;;
  first_publication_date <- py_get ad "first_publication_date" ;;
  let date_str := py_or index_date first_publication_date in
  pics <- py_get_default ad "images" (PList []) ;;
  img <- first_image pics ;;
  Return (mkFields title price location date_str url img).

(** The dictionary of a card. *)
Definition of_card (a : card) : fields :=
  mkFields
    (PStr (match heading a with
           | Some t => t
           | None => "(sans titre)"%string
           end))
    (euro_price (text a)) PNone PNone (PStr (absolute (href a)))
    (match img_src a with
     | Some src => if truthy_str src then PStr src else PNone
     | None => PNone
     end).

(** [parse_listings_from_html] on what the page shows. *)
Definition parse_listings_from_html (json_loads : string -> result pyval)
    (script : option string) (cards : list card) : list fields :=
  parse_ads_tiers json_loads extract of_card script cards.

End Extract.

End SimpleParser.

(* ================================================================= *)
(** ** The table shown by the Margin program *)

(** [col.fillna(x)] on a cell. *)
Definition fillna (x : Q) (cell : option Q) : Q :=
  match cell with
  | Some v => v
  | None => x
  end.

(** The rows under the two filters: [est_margin.fillna(-1) >= min_margin],
    then [est_margin.fillna(-1) > 0] when the box is ticked. *)
Definition df_view (min_margin : Z) (only_positive : bool)
    (df : list Margin.row) : list Margin.row :=
  let df_view :=
    Pandas.select
      (fun r => Qle_bool (inject_Z min_margin) (fillna (-1) (Margin.col_est_margin r)))
      df in
  if only_positive
  then Pandas.select
         (fun r => negb (Qle_bool (fillna (-1) (Margin.col_est_margin r)) 0))
         df_view
  else df_view.

(* ================================================================= *)
(** * Vocabulary of the statements *)

(** [r] is the first row of [df] with its value in the column [col]. *)
Definition first_with {A : Type} (col : A -> string) (df : list A) (r : A)
    : Prop :=
  find (fun x => String.eqb (col x) (col r)) df = Some r.

(** Equality of optional amounts, up to the representation of a rational. *)
Definition opt_Qeq (a b : option Q) : Prop :=
  match a, b with
  | Some x, Some y => x == y
  | None, None => True
  | _, _ => False
  end.

(** A call returned the amount [q]. *)
Definition returns_amount (r : result (option Q)) (q : Q) : Prop :=
  exists x, r = Return (Some x) /\ x == q.

(** The claimed formulas, as the data model words them. *)
Definition spec_negotiated_price (price : option Q) (negotiation_pct : Q)
    : option Q :=
  option_map (fun p => p * (1 - negotiation_pct / 100)) price.

Definition spec_estimated_margin (total dismantle_bonus_pct : Q)
    (negotiated : option Q) : option Q :=
  option_map (fun n => total * (1 + dismantle_bonus_pct / 100) - n) negotiated.

(** Sum over the detected keys of count times unit value. *)
Fixpoint spec_attribute_total (parts : dict Z) (price_map : dict Q) : Q :=
  match parts with
  | [] => 0
  | (k, qty) :: rest =>
      inject_Z qty * unit_value price_map k + spec_attribute_total rest price_map
  end.

(** The frame [df] is in the order [leb]: every row is before all the rows
    that follow it. *)
Definition ordered_by {A : Type} (leb : A -> A -> bool) (df : list A) : Prop :=
  StronglySorted (fun a b => leb a b = true) df.

(** Every character of [s] passes the test [p]. *)
Fixpoint all_chars (p : ascii -> bool) (s : string) : bool :=
  match s with
  | EmptyString => true
  | String c rest => p c && all_chars p rest
  end.

(** Number of occurrences of the character [c] in [s]. *)
Fixpoint count_char (c : ascii) (s : string) : nat :=
  match s with
  | EmptyString => O
  | String c' rest => ((if Ascii.eqb c' c then 1 else 0) + count_char c rest)%nat
  end.

(** The characters that [quote] lets through or writes: the unreserved
    ones, the slash and the percent sign of an escape. *)
Definition quoted_char (c : ascii) : bool :=
  always_safe c || Ascii.eqb c "/" || Ascii.eqb c "%".

(** The characters that [quote_plus] lets through or writes. *)
Definition plus_quoted_char (c : ascii) : bool :=
  always_safe c || Ascii.eqb c "+" || Ascii.eqb c "%".

(** Value of a hexadecimal digit. *)
Definition unhex (c : ascii) : nat :=
  let n := nat_of_ascii c in
  if (n <? 58)%nat then (n - 48)%nat else (n - 55)%nat.

(** The reading of a quoted text: an escape gives back its character. *)
Fixpoint unquote (s : string) : string :=
  match s with
  | EmptyString => EmptyString
  | String c rest =>
      if Ascii.eqb c "%" then
        match rest with
        | String h (String l rest') =>
            String (ascii_of_nat (16 * unhex h + unhex l)) (unquote rest')
        | _ => String c (unquote rest)
        end
      else String c (unquote rest)
  end.

Fixpoint plus_to_space (s : string) : string :=
  match s with
  | EmptyString => EmptyString
  | String c rest =>
      String (if Ascii.eqb c "+" then " "%char else c) (plus_to_space rest)
  end.

(** The reading of a text quoted by [quote_plus]. *)
Definition unquote_plus (s : string) : string := unquote (plus_to_space s).

(** The ads that the structured tier finds in the text of the script. *)
Definition read_ads (json_loads : string -> result pyval) (text : string)
    : result (list pyval) :=
  data <- json_loads text ;; nodes <- ads_of data ;; py_iter nodes.

(** Every ad of [ads] is read by [extract], and [rows] are the rows read. *)
Definition all_read {R : Type} (extract : pyval -> result R)
    (ads : list pyval) (rows : list R) : Prop :=
  Forall2 (fun ad r => extract ad = Return r) ads rows.

(** The rule [kp] of a registry has a match in the lowered text. *)
Definition rule_hits {engine : RegexEngine} (lowered : string)
    (kp : string * string) : bool :=
  match match_count (snd kp) lowered with
  | Some _ => true
  | None => false
  end.

(* ================================================================= *)
(** * Sample data *)

(** A machine asked 400 euros, and counts of parts to value it with. *)
Definition gaming_pc : Listing :=
  new_listing "https://www.leboncoin.fr/ad/2001" "PC gamer RTX 3070 2x16 Go DDR4"
    (Some 400) (Some "Chartres") None [] PNone.

Definition gaming_pc_parts : dict Z :=
  [ ("gpu_rtx_3070"%string, 1%Z); ("ram_ddr4_16"%string, 2%Z) ].

(** A listing offered at 0 euro: a card of the markup tier whose price text
    is "0 €". *)
Definition free_listing : Listing :=
  new_listing "https://www.leboncoin.fr/ad/2002" "RTX 3070 a donner"
    (markup_price (Some "0 €"%string)) None None [] PNone.

(** Two ads of the Radius program: one at 1 km asked 500 euros, one at
    2 km asked 100 euros; and an ad at 1 km without a price. *)
Definition near_dear : Radius.row :=
  Radius.mkRow
    (Radius.mkAd "RTX 3060 Ti" (Some 500) (Some "Chartres") None
       "https://www.leboncoin.fr/ad/3001" (Some (4844 # 100)) (Some (148 # 100)))
    (Some 1).

Definition far_cheap : Radius.row :=
  Radius.mkRow
    (Radius.mkAd "RTX 3060" (Some 100) (Some "Dreux") None
       "https://www.leboncoin.fr/ad/3002" (Some (4873 # 100)) (Some (136 # 100)))
    (Some 2).

Definition near_unpriced : Radius.row :=
  Radius.mkRow
    (Radius.mkAd "RTX 3060 a debattre" None (Some "Chartres") None
       "https://www.leboncoin.fr/ad/3003" (Some (4844 # 100)) (Some (148 # 100)))
    (Some 1).

(** Rows of the Simple program: two priced cards, two cards without a
    price, and a second card with the locator of the first. *)
Definition card (t : string) (p : option Q) (u : string) : Simple.row :=
  Simple.mkRow t p None None u None.

Definition card_300 : Simple.row :=
  card "RTX 3070 Gigabyte" (Some 300) "https://www.leboncoin.fr/ad/1001".

Definition card_100 : Simple.row :=
  card "GTX 1060" (Some 100) "https://www.leboncoin.fr/ad/1002".

Definition card_unpriced : Simple.row :=
  card "RTX 3070 prix en MP" None "https://www.leboncoin.fr/ad/1003".

Definition card_unpriced' : Simple.row :=
  card "RTX 3070 echange" None "https://www.leboncoin.fr/ad/1004".

Definition card_300_again : Simple.row :=
  card "RTX 3070 Gigabyte (remontee)" (Some 280) "https://www.leboncoin.fr/ad/1001".

(** A run of the Margin program: one query, two pages, the plain fetcher
    answering every request with the same page, on which the parser finds
    the machine above. *)
Definition two_pages : Margin.settings :=
  Margin.mkSettings "RTX 3070" 0 1500 2 "France" false DEFAULT_PART_VALUES
    [ ("gpu_rtx_3070"%string, "rtx 3070"%string) ] 10 5.

Definition same_page (n : nat) (locator : string) : option string :=
  Some "<html><body>PC gamer RTX 3070</body></html>"%string.

Definition no_browser (n : nat) (locator : string) : option string := None.

Definition finds_gaming_pc (html : string) : list Listing := [ gaming_pc ].

(** A run of five requests whose second and fourth retrievals fail; the
    page of the request numbered [n] is the text [page n], and the parser
    finds on a page one listing named after it. *)
Definition five_pages : Margin.settings :=
  Margin.mkSettings "RTX 3070" 0 0 5 EmptyString false DEFAULT_PART_VALUES
    [ ("gpu_rtx_3070"%string, "rtx 3070"%string) ] 10 5.

Definition page_text (n : nat) : string :=
  ("page " ++ str_of_int (Z.of_nat (S n)))%string.

Definition second_and_fourth_fail (n : nat) (locator : string) : option string :=
  match n with
  | 1%nat | 3%nat => None
  | _ => Some (page_text n)
  end.

Definition listing_of_page (html : string) : Listing :=
  new_listing ("https://www.leboncoin.fr/ad/" ++ html) ("RTX 3070 " ++ html)
    (Some 250) None None [] PNone.

Definition one_per_page (html : string) : list Listing :=
  [ listing_of_page html ].

(** Pages for the parsers. The decoder knows four scripts: a sound one
    with two ads, one whose second ad of three is a text instead of a
    dictionary, one whose [props] has no [pageProps], and one whose
    [props] is [null]; it refuses every other text. *)
Definition sound_ad (n : Z) (subject : string) (price : Z) : pyval :=
  PDict
    [ ("subject"%string, PStr subject);
      ("url"%string, PStr ("https://www.leboncoin.fr/ad/" ++ str_of_int n));
      ("price"%string, PInt price);
      ("location"%string,
       PDict [ ("city"%string, PStr "Chartres");
               ("lat"%string, PFloat (4844 # 100));
               ("lng"%string, PFloat (148 # 100)) ]) ].

Definition next_data (ads : pyval) : pyval :=
  PDict
    [ ("props"%string,
       PDict
         [ ("pageProps"%string,
            PDict [ ("searchData"%string, PDict [ ("ads"%string, ads) ]) ]) ]) ].

Definition two_ads : list pyval :=
  [ sound_ad 1 "RTX 3070" 45000; sound_ad 2 "RTX 4060" 300 ].

Definition decoder (text : string) : result pyval :=
  if String.eqb text "sound" then Return (next_data (PList two_ads))
  else if String.eqb text "second ad broken" then
    Return
      (next_data
         (PList [ sound_ad 1 "RTX 3070" 45000; PStr "advert";
                  sound_ad 2 "RTX 4060" 300 ]))
  else if String.eqb text "no pageProps" then
    Return (PDict [ ("props"%string, PDict []) ])
  else if String.eqb text "null props" then
    Return (PDict [ ("props"%string, PNone) ])
  else Raise ValueError.

Definition no_float (s : string) : option Q := None.

Definition margin_cards : list MarginParser.card :=
  [ MarginParser.mkCard "/ad/9" (Some "GTX 1060"%string) (Some "90 €"%string) ].

Definition radius_cards : list RadiusParser.card :=
  [ RadiusParser.mkCard "/ad/9" (Some "GTX 1060"%string) "GTX 1060 90 €" ].

(** The price pattern of the cards, a digit followed by up to nine digits
    or spaces in front of the euro sign, on the text of the sample card:
    the match runs from the model number on, "1060 90", and without its
    space reads 106090. No other text is given to it. *)
Definition sample_euro_price (text : string) : option Q :=
  if String.eqb text "GTX 1060 90 €" then Some 106090 else None.

(** The no-break space U+00A0, in UTF-8. *)
Definition nbsp : string :=
  String (ascii_of_nat 194) (String (ascii_of_nat 160) EmptyString).

(** Two queries and, between them, a piece made of a no-break space. *)
Definition padded_queries : Margin.settings :=
  Margin.mkSettings (" RTX 3070 ," ++ nbsp ++ ", GTX 1060") 0 0 2 EmptyString
    false DEFAULT_PART_VALUES
    [ ("gpu_rtx_3070"%string, "rtx 3070"%string) ] 10 5.

(* ================================================================= *)
(** * Properties *)

Lemma Qle_bool_false (x y : Q) : Qle_bool x y = false <-> y < x.
Proof.
  split.
  - intros H. apply Qnot_le_lt. intros Hle.
    apply Qle_bool_iff in Hle. congruence.
  - intros H. destruct (Qle_bool x y) eqn:E; [|reflexivity].
    apply Qle_bool_iff in E. exfalso. apply (Qlt_not_le _ _ H E).
Qed.

Lemma Qeq_bool_false (x y : Q) : Qeq_bool x y = false <-> ~ x == y.
Proof.
  split.
  - intros H Heq. apply Qeq_bool_iff in Heq. congruence.
  - intros H. destruct (Qeq_bool x y) eqn:E; [|reflexivity].
    apply Qeq_bool_iff in E. contradiction.
Qed.

(* ----------------------------------------------------------------- *)
(** ** Minor-unit heuristic *)

Lemma number_above_is_truthy (p : pyval) :
  is_number p = true -> 10000 < number_value p -> truthy p = true.
Proof.
  destruct p as [ | b | n | q | s | l | d ]; simpl; try discriminate; intros _ H.
  - destruct b; [reflexivity|]. exfalso. revert H. apply Qle_not_lt. discriminate.
  - destruct (Z.eqb_spec n 0) as [->|]; [|reflexivity].
    exfalso. revert H. apply Qle_not_lt. discriminate.
  - apply negb_true_iff, Qeq_bool_false. intros E. rewrite E in H.
    revert H. apply Qle_not_lt. discriminate.
Qed.

Lemma minor_unit_below (p : pyval) :
  number_value p <= 10000 -> minor_unit p = Return p.
Proof.
  intros H. unfold minor_unit.
  apply Qle_bool_iff in H. rewrite H. simpl.
  rewrite andb_false_r. reflexivity.
Qed.

Lemma minor_unit_above (p : pyval) :
  is_number p = true -> 10000 < number_value p ->
  fits_float (number_value p / 100) = true ->
  minor_unit p = Return (PFloat (number_value p / 100)).
Proof.
  intros Hn H Hfit. unfold minor_unit.
  rewrite Hn, (number_above_is_truthy p Hn H).
  apply Qle_bool_false in H. rewrite H. simpl.
  destruct p; try reflexivity. simpl in Hfit. rewrite Hfit. reflexivity.
Qed.

Lemma minor_unit_float (q : Q) :
  10000 < q -> minor_unit (PFloat q) = Return (PFloat (q / 100)).
Proof.
  intros H. unfold minor_unit.
  rewrite (number_above_is_truthy (PFloat q) eq_refl H).
  apply Qle_bool_false in H. simpl. rewrite H. reflexivity.
Qed.

Lemma minor_unit_overflow (n : Z) :
  10000 < inject_Z n -> fits_float (inject_Z n / 100) = false ->
  minor_unit (PInt n) = Raise OverflowError.
Proof.
  intros H Hfit. unfold minor_unit.
  rewrite (number_above_is_truthy (PInt n) eq_refl H).
  apply Qle_bool_false in H. simpl. rewrite H, Hfit. reflexivity.
Qed.

(** C2, amended. In the structured-data tier, the minor-unit heuristic
    leaves a numeric price at or below 10000 as it is and divides a numeric
    price above 10000 by 100 when the quotient is in the range of a float,
    which it always is for a price that is a float; an integer whose
    hundredth is out of this range raises [OverflowError]. So 150000 is
    normalised to 1500.0, 1500 to 1500.0, 10000 to 10000.0 and 10001 to
    100.01. *)
Theorem minor_unit_threshold (float_of_str : string -> option Q) :
  (forall p, is_number p = true -> number_value p <= 10000 ->
             minor_unit p = Return p)
  /\ (forall p, is_number p = true -> 10000 < number_value p ->
                fits_float (number_value p / 100) = true ->
                minor_unit p = Return (PFloat (number_value p / 100)))
  /\ (forall q, 10000 < q -> minor_unit (PFloat q) = Return (PFloat (q / 100)))
  /\ (forall n, 10000 < inject_Z n ->
                fits_float (inject_Z n / 100) = false ->
                minor_unit (PInt n) = Raise OverflowError
                /\ normalize_price float_of_str (PInt n) = Raise OverflowError)
  /\ returns_amount (normalize_price float_of_str (PInt 150000)) 1500
  /\ returns_amount (normalize_price float_of_str (PInt 1500)) 1500
  /\ returns_amount (normalize_price float_of_str (PInt 10000)) 10000
  /\ returns_amount (normalize_price float_of_str (PInt 10001)) (10001 # 100).
Proof.
  split; [intros p _; apply minor_unit_below|].
  split; [apply minor_unit_above|].
  split; [apply minor_unit_float|].
  split.
  { intros n H Hfit. assert (E := minor_unit_overflow n H Hfit).
    split; [exact E|]. unfold normalize_price. simpl. rewrite E. reflexivity. }
  repeat split; eexists; (split; [vm_compute; reflexivity|reflexivity]).
Qed.

(** The two sides of the threshold, at a price of 10000 and at a price of
    10001 euros taken for cents, and an integer of 401 digits. *)
Lemma minor_unit_threshold_witness :
  minor_unit (PInt 10000) = Return (PInt 10000)
  /\ minor_unit (PInt 10001) = Return (PFloat (10001 / 100))
  /\ minor_unit (PInt (10 ^ 400)) = Raise OverflowError.
Proof.
  destruct (minor_unit_threshold (fun _ => None)) as [Hlow [Hhigh [_ [Hover _]]]].
  split; [|split].
  - apply (Hlow (PInt 10000)); [reflexivity|discriminate].
  - apply (Hhigh (PInt 10001)); [reflexivity|reflexivity|vm_compute; reflexivity].
  - apply (Hover (10 ^ 400)%Z); vm_compute; reflexivity.
Defined.

(** C2 as stated fails on an integer price of 401 digits: it is a numeric
    price above 10000, and it is not divided by 100; the division raises
    [OverflowError], which ends the structured tier. *)
Lemma minor_unit_counterexample :
  let price := PInt (10 ^ 400) in
  is_number price = true
  /\ 10000 < number_value price
  /\ normalize_price (fun _ => None) price = Raise OverflowError
  /\ ~ returns_amount (normalize_price (fun _ => None) price)
         (number_value price / 100).
Proof.
  intros price.
  assert (E : normalize_price (fun _ => None) price = Raise OverflowError)
    by (vm_compute; reflexivity).
  split; [reflexivity|]. split; [vm_compute; reflexivity|]. split; [exact E|].
  intros [x [H _]]. rewrite E in H. discriminate H.
Qed.

(* ----------------------------------------------------------------- *)
(** ** A price of zero is an absent price *)

Lemma float_or_none_falsy (float_of_str : string -> option Q) (v : pyval) :
  truthy v = false -> float_or_none float_of_str v = Return None.
Proof. intros H. unfold float_or_none. rewrite H. reflexivity. Qed.

Lemma minor_unit_falsy (v : pyval) :
  truthy v = false -> minor_unit v = Return v.
Proof.
  intros H. unfold minor_unit. rewrite H, andb_false_r. reflexivity.
Qed.

Lemma ask_price_zero (p : Q) : p == 0 -> ask_price (Some p) = None.
Proof.
  intros H. unfold ask_price. apply Qeq_bool_iff in H. rewrite H. reflexivity.
Qed.

Lemma ask_price_nonzero (p : Q) : ~ p == 0 -> ask_price (Some p) = Some p.
Proof.
  intros H. unfold ask_price. apply Qeq_bool_false in H. rewrite H. reflexivity.
Qed.

Lemma estimate_margin_absent (lst : Listing) (n d : Q) :
  ask_price (price_eur lst) = None ->
  negotiated_price_eur (estimate_margin lst n d) = None
  /\ estimated_margin_eur (estimate_margin lst n d) = None.
Proof. intros H. unfold estimate_margin. rewrite H. split; reflexivity. Qed.

Lemma falsy_price_is_absent (float_of_str : string -> option Q)
    (ad looked read : pyval) :
  lookup_price ad = Return looked ->
  unwrap_value looked = Return read ->
  truthy read = false ->
  ad_price float_of_str ad = Return None.
Proof.
  intros Hl Hu Hf.
  unfold ad_price, normalize_price. rewrite Hl. simpl. rewrite Hu. simpl.
  rewrite (minor_unit_falsy read Hf). simpl. apply float_or_none_falsy, Hf.
Qed.

(** C10, amended. An ad record whose price, as the parser reads it (the
    field [price], else the field [priceCents] when [price] is 0 or
    another falsy value, taken under [value] when it is a dictionary), is
    0 or another falsy value gets the price [None], never 0.0; this is the
    case of an ad whose two fields are both falsy or missing. And
    [estimate_margin] gives a listing whose price is 0 what it gives a
    listing without a price: no negotiated price and no margin. *)
Theorem zero_price_is_absent :
  (forall (float_of_str : string -> option Q) (ad looked read : pyval),
      lookup_price ad = Return looked ->
      unwrap_value looked = Return read ->
      truthy read = false ->
      ad_price float_of_str ad = Return None)
  /\ (forall (float_of_str : string -> option Q) (d : dict pyval)
             (price cents : pyval),
         py_get (PDict d) "price" = Return price ->
         py_get (PDict d) "priceCents" = Return cents ->
         truthy price = false -> truthy cents = false ->
         ad_price float_of_str (PDict d) = Return None)
  /\ (forall (lst : Listing) (p n d : Q),
         price_eur lst = Some p -> p == 0 ->
         negotiated_price_eur (estimate_margin lst n d) = None
         /\ estimated_margin_eur (estimate_margin lst n d) = None).
Proof.
  split; [exact falsy_price_is_absent|]. split.
  - intros fs d price cents Hp Hc Hfp Hfc.
    assert (Hl : lookup_price (PDict d) = Return cents).
    { unfold lookup_price. rewrite Hp, Hc. simpl. unfold py_or.
      rewrite Hfp. reflexivity. }
    destruct cents as [ | b | n | q | t | l | [ | kv rest ] ];
      try (apply (falsy_price_is_absent fs _ _ _ Hl eq_refl Hfc));
      discriminate Hfc.
  - intros lst p n d Hp H0. apply estimate_margin_absent.
    rewrite Hp. apply ask_price_zero, H0.
Qed.

(** An ad with [price = 0], an ad with [price = {"value": 0.0}], an ad
    with [price = 0] and [priceCents = 0], and a listing offered at
    0 euro. *)
Lemma zero_price_is_absent_witness :
  ad_price (fun _ => None) (PDict [("subject", PStr "rtx 3070"); ("price", PInt 0)])
    = Return None
  /\ ad_price (fun _ => None) (PDict [("price", PDict [("value", PFloat 0)])])
     = Return None
  /\ ad_price (fun _ => None) (PDict [("price", PInt 0); ("priceCents", PInt 0)])
     = Return None
  /\ negotiated_price_eur
       (estimate_margin
          (new_listing "https://www.leboncoin.fr/ad/1" "rtx 3070" (Some 0)
             None None [] PNone) 10 5) = None.
Proof.
  destruct zero_price_is_absent as [Hread [Hfields Hmargin]].
  split; [|split; [|split]].
  - apply (Hread (fun _ => None) _ PNone PNone); reflexivity.
  - apply (Hread (fun _ => None) _ (PDict [("value", PFloat 0)]) (PFloat 0));
      reflexivity.
  - apply (Hfields (fun _ => None) _ (PInt 0) (PInt 0)); reflexivity.
  - apply (Hmargin _ 0 10 5); reflexivity.
Defined.

(** C10 as stated fails on an ad whose field [price] is 0 and whose field
    [priceCents] is 45000: the parser does not give it the price [None];
    it reads the other field and gives 450.0. *)
Lemma zero_price_counterexample :
  let ad := PDict [ ("price"%string, PInt 0); ("priceCents"%string, PInt 45000) ] in
  py_get ad "price" = Return (PInt 0)
  /\ returns_amount (ad_price (fun _ => None) ad) 450
  /\ ad_price (fun _ => None) ad <> Return None.
Proof.
  intros ad.
  assert (E : ad_price (fun _ => None) ad = Return (Some (45000 / 100)))
    by (vm_compute; reflexivity).
  split; [reflexivity|]. split.
  - exists (45000 / 100). split; [exact E|reflexivity].
  - rewrite E. discriminate.
Qed.

(* ----------------------------------------------------------------- *)
(** ** Valuation *)

Lemma parts_value_from (parts : dict Z) (price_map : dict Q) (total : Q) :
  fold_left
    (fun total kq => total + unit_value price_map (fst kq) * inject_Z (snd kq))
    parts total
  == total + spec_attribute_total parts price_map.
Proof.
  revert total. induction parts as [ | [k qty] rest IH ]; intros total; simpl.
  - ring.
  - rewrite IH. ring.
Qed.

Lemma compute_parts_value_sum (parts : dict Z) (price_map : dict Q) :
  compute_parts_value parts price_map == spec_attribute_total parts price_map.
Proof. unfold compute_parts_value. rewrite parts_value_from. ring. Qed.

Lemma max0_nonneg (x : Q) : 0 <= x -> max0 x == x.
Proof.
  intros H. unfold max0. destruct (Qle_bool x 0) eqn:E; [|reflexivity].
  apply Qle_bool_iff in E. apply Qle_antisym; assumption.
Qed.

Lemma max0_nonpos (x : Q) : x <= 0 -> max0 x = 0.
Proof. intros H. unfold max0. apply Qle_bool_iff in H. rewrite H. reflexivity. Qed.

Lemma discount_nonneg (n : Q) : n <= 100 -> 0 <= 1 - n / 100.
Proof.
  intros H. setoid_replace (1 - n / 100) with ((100 - n) / 100) by field.
  apply Qle_shift_div_l; [reflexivity|].
  setoid_replace (0 * 100) with (n - n) by ring.
  unfold Qminus. apply Qplus_le_compat; [assumption|apply Qle_refl].
Qed.

Lemma valuate_parts_value (lst : Listing) (parts : dict Z) (price_map : dict Q)
    (n d : Q) :
  parts_value_eur (valuate lst parts price_map n d)
  = compute_parts_value parts price_map.
Proof. reflexivity. Qed.

Lemma valuate_priced (lst : Listing) (parts : dict Z) (price_map : dict Q)
    (n d p : Q) :
  price_eur lst = Some p -> ~ p == 0 ->
  negotiated_price_eur (valuate lst parts price_map n d)
  = Some (max0 (p * (1 - n / 100)))
  /\ estimated_margin_eur (valuate lst parts price_map n d)
     = Some (compute_parts_value parts price_map * (1 + d / 100)
             - max0 (p * (1 - n / 100))).
Proof.
  intros Hp Hz. unfold valuate, estimate_margin. simpl.
  rewrite Hp, (ask_price_nonzero p Hz). split; reflexivity.
Qed.

(** C1, amended. For percentages in [0,100], the valuation step gives an
    attribute value total equal to the sum over the detected keys of count
    times configured unit value (0 for a key without a value); for a listing
    with a positive price, a negotiated price equal to
    price * (1 - negotiationPct/100) and a margin equal to
    total * (1 + dismantleBonusPct/100) - negotiated price; for a negative
    price the negotiated price is held at 0; and when the price is absent or
    zero, the negotiated price and the margin are both absent. *)
Theorem valuation_formulas (lst : Listing) (parts : dict Z)
    (price_map : dict Q) (n d : Q) :
  0 <= n <= 100 -> 0 <= d <= 100 ->
  let r := valuate lst parts price_map n d in
  let total := spec_attribute_total parts price_map in
  parts_value_eur r == total
  /\ (forall p, price_eur lst = Some p -> 0 < p ->
        opt_Qeq (negotiated_price_eur r) (spec_negotiated_price (Some p) n)
        /\ opt_Qeq (estimated_margin_eur r)
             (spec_estimated_margin total d (spec_negotiated_price (Some p) n)))
  /\ (forall p, price_eur lst = Some p -> p < 0 ->
        opt_Qeq (negotiated_price_eur r) (Some 0)
        /\ opt_Qeq (estimated_margin_eur r) (Some (total * (1 + d / 100) - 0)))
  /\ (price_eur lst = None \/ (exists p, price_eur lst = Some p /\ p == 0) ->
        negotiated_price_eur r = None /\ estimated_margin_eur r = None).
Proof.
  intros [Hn0 Hn] _ r total.
  assert (Htotal : compute_parts_value parts price_map == total)
    by apply compute_parts_value_sum.
  assert (Hdisc : 0 <= 1 - n / 100) by (apply discount_nonneg, Hn).
  split; [exact Htotal|].
  split; [|split].
  - intros p Hp Hpos.
    assert (Hz : ~ p == 0).
    { intros E. rewrite E in Hpos. revert Hpos. apply Qlt_irrefl. }
    destruct (valuate_priced lst parts price_map n d p Hp Hz) as [Hneg Hmar].
    assert (Hmax : max0 (p * (1 - n / 100)) == p * (1 - n / 100)).
    { apply max0_nonneg. apply Qmult_le_0_compat; [apply Qlt_le_weak, Hpos|exact Hdisc]. }
    subst r. rewrite Hneg, Hmar. simpl. split.
    + exact Hmax.
    + rewrite Hmax, Htotal. reflexivity.
  - intros p Hp Hneg0.
    assert (Hz : ~ p == 0).
    { intros E. rewrite E in Hneg0. revert Hneg0. apply Qlt_irrefl. }
    destruct (valuate_priced lst parts price_map n d p Hp Hz) as [Hneg Hmar].
    assert (Hmax : max0 (p * (1 - n / 100)) = 0).
    { apply max0_nonpos.
      apply Qle_trans with (0 * (1 - n / 100)).
      - apply Qmult_le_compat_r; [apply Qlt_le_weak, Hneg0|exact Hdisc].
      - rewrite Qmult_0_l. apply Qle_refl. }
    subst r. rewrite Hneg, Hmar, Hmax. simpl. split.
    + reflexivity.
    + rewrite Htotal. reflexivity.
  - intros Habs. subst r. unfold valuate. apply estimate_margin_absent. simpl.
    destruct Habs as [-> | [p [-> H0]]]; [reflexivity|].
    apply ask_price_zero, H0.
Qed.

(** A complete machine asked 400 euros, one RTX 3070 and two 16 GB kits
    detected, 10 % of negotiation and 5 % of dismantling bonus: the parts
    are worth 390, the negotiated price is 360, the margin 49.5. *)
Lemma valuation_formulas_witness :
  let r := valuate gaming_pc gaming_pc_parts DEFAULT_PART_VALUES 10 5 in
  let total := spec_attribute_total gaming_pc_parts DEFAULT_PART_VALUES in
  (0 <= 10 <= 100 /\ 0 <= 5 <= 100)
  /\ (total == 390 /\ parts_value_eur r == total)
  /\ opt_Qeq (negotiated_price_eur r) (spec_negotiated_price (Some 400) 10)
  /\ opt_Qeq (estimated_margin_eur r)
       (spec_estimated_margin total 5 (spec_negotiated_price (Some 400) 10))
  /\ opt_Qeq (spec_estimated_margin total 5 (spec_negotiated_price (Some 400) 10))
       (Some (99 # 2)).
Proof.
  intros r total.
  assert (Hn : 0 <= 10 <= 100) by (split; discriminate).
  assert (Hd : 0 <= 5 <= 100) by (split; discriminate).
  destruct (valuation_formulas gaming_pc gaming_pc_parts DEFAULT_PART_VALUES
              10 5 Hn Hd) as [Htotal [Hpos _]].
  destruct (Hpos 400 eq_refl eq_refl) as [Hneg Hmar].
  split; [split; assumption|].
  split; [split; [reflexivity|exact Htotal]|].
  split; [exact Hneg|].
  split; [exact Hmar|reflexivity].
Defined.

(** C1 as stated fails on a listing offered at 0 euro with one RTX 3070
    detected: the formulas give a negotiated price of 0 and a margin of 315,
    the code gives no negotiated price and no margin. *)
Lemma valuation_counterexample :
  let r := valuate free_listing [("gpu_rtx_3070", 1%Z)] DEFAULT_PART_VALUES 10 5 in
  price_eur free_listing = Some 0
  /\ opt_Qeq (spec_negotiated_price (price_eur free_listing) 10) (Some 0)
  /\ opt_Qeq
       (spec_estimated_margin
          (spec_attribute_total [("gpu_rtx_3070", 1%Z)] DEFAULT_PART_VALUES) 5
          (spec_negotiated_price (price_eur free_listing) 10))
       (Some 315)
  /\ negotiated_price_eur r = None
  /\ estimated_margin_eur r = None
  /\ ~ opt_Qeq (negotiated_price_eur r)
         (spec_negotiated_price (price_eur free_listing) 10).
Proof.
  intros r. repeat split; try reflexivity.
  intros H. exact H.
Qed.

(* ----------------------------------------------------------------- *)
(** ** Request builder *)

(** Both bounds: one range token [price=lo-hi]. *)
Lemma both_bounds_range_token (q : string) (cat loc : option string)
    (lo hi page : Z) :
  exists tail,
    LeboncoinAdapter.build_search_url q cat loc (Some lo) (Some hi) page
    = (LeboncoinAdapter.BASE_URL ++ "?"
         ++ join "&"
              (("text=" ++ quote (strip q))
                 :: ("page=" ++ quote (str_of_int page))
                 :: ("price=" ++ quote (str_of_int lo ++ "-" ++ str_of_int hi))
                 :: tail))%string.
Proof.
  destruct loc as [[ | c l]|]; eexists; reflexivity.
Qed.

(** The lower bound alone: the token [price=lo-], the upper side empty. *)
Lemma lower_bound_alone_open_token (q : string) (cat loc : option string)
    (lo page : Z) :
  exists tail,
    LeboncoinAdapter.build_search_url q cat loc (Some lo) None page
    = (LeboncoinAdapter.BASE_URL ++ "?"
         ++ join "&"
              (("text=" ++ quote (strip q))
                 :: ("page=" ++ quote (str_of_int page))
                 :: ("price=" ++ quote (str_of_int lo ++ "-"))
                 :: tail))%string.
Proof.
  destruct loc as [[ | c l]|]; eexists; reflexivity.
Qed.

(** C8. With an upper bound and no lower bound the built locator is the one
    built without any bound: the upper bound is not applied. So is the
    locator of the default side bar (minimum 0, maximum 1500). *)
Theorem upper_bound_alone_is_dropped :
  (forall (q : string) (cat loc : option string) (hi page : Z),
      LeboncoinAdapter.build_search_url q cat loc None (Some hi) page
      = LeboncoinAdapter.build_search_url q cat loc None None page)
  /\ LeboncoinAdapter.build_search_url "RTX 3070" None (Some "France")
       None (Some 1500%Z) 1
     = "https://www.leboncoin.fr/recherche/?text=RTX%203070&page=1&locations=France"%string
  /\ LeboncoinAdapter.build_search_url "RTX 3070" None (Some "France")
       (Margin.bound 0) (Margin.bound 1500) 1
     = "https://www.leboncoin.fr/recherche/?text=RTX%203070&page=1&locations=France"%string
  /\ LeboncoinAdapter.build_search_url "RTX 3070" None (Some "France")
       (Some 100%Z) None 1
     = "https://www.leboncoin.fr/recherche/?text=RTX%203070&page=1&price=100-&locations=France"%string.
Proof. repeat split; reflexivity. Qed.

(** C9, amended. The request builders never fail: every query text, empty
    or not, gives a locator; when the text is empty after trimming the
    locator carries an empty [text] parameter. *)
Theorem build_never_fails (q : string) (cat loc : option string)
    (lo hi : option Z) (page : Z) :
  exists u1 u2 : string,
    call_build_search_url q loc page = Return u1
    /\ call_adapter_build_search_url q cat loc lo hi page = Return u2
    /\ (strip q = EmptyString ->
        (exists rest,
            u1 = ("https://www.leboncoin.fr/recherche/?text=&page=" ++ rest)%string)
        /\ (exists rest,
               u2 = ("https://www.leboncoin.fr/recherche/?text=&page=" ++ rest)%string)).
Proof.
  eexists. eexists. split; [reflexivity|]. split; [reflexivity|].
  intros Hq. split.
  - unfold build_search_url. rewrite Hq.
    destruct loc as [l|]; [destruct (truthy_str l && truthy_str (strip l))|];
      eexists; cbn; reflexivity.
  - unfold LeboncoinAdapter.build_search_url. rewrite Hq.
    destruct lo as [lo|], hi as [hi|], loc as [[|c l]|];
      eexists; cbn; reflexivity.
Qed.

(** A query made of three spaces. *)
Lemma build_never_fails_witness :
  strip "   " = EmptyString
  /\ exists u1 u2 : string,
       call_build_search_url "   " (Some "France"%string) 1 = Return u1
       /\ call_adapter_build_search_url "   " None (Some "France"%string)
            None None 1 = Return u2
       /\ (exists rest,
              u1 = ("https://www.leboncoin.fr/recherche/?text=&page=" ++ rest)%string)
       /\ (exists rest,
              u2 = ("https://www.leboncoin.fr/recherche/?text=&page=" ++ rest)%string).
Proof.
  split; [reflexivity|].
  destruct (build_never_fails "   " None (Some "France"%string) None None 1)
    as [u1 [u2 [H1 [H2 H]]]].
  exists u1, u2. split; [exact H1|]. split; [exact H2|].
  apply H. reflexivity.
Defined.

(** C9 as stated fails on a query of three spaces: it is empty after
    trimming and both builders return a locator. *)
Lemma blank_query_counterexample :
  strip "   " = EmptyString
  /\ call_adapter_build_search_url "   " None None None None 1
     = Return "https://www.leboncoin.fr/recherche/?text=&page=1"%string
  /\ raises (call_adapter_build_search_url "   " None None None None 1) = false
  /\ call_build_search_url "   " (Some "France"%string) 1
     = Return "https://www.leboncoin.fr/recherche/?text=&page=1&locations=France"%string
  /\ raises (call_build_search_url "   " (Some "France"%string) 1) = false.
Proof. repeat split; reflexivity. Qed.

(* ----------------------------------------------------------------- *)
(** ** Dictionaries *)

Lemma dict_get_set_same {V : Type} (d : dict V) (k : string) (v : V) :
  dict_get (dict_set d k v) k = Some v.
Proof.
  induction d as [ | [k' v'] rest IH ]; simpl.
  - rewrite String.eqb_refl. reflexivity.
  - destruct (String.eqb k' k) eqn:E; simpl; rewrite E; [reflexivity|exact IH].
Qed.

Lemma dict_get_set_other {V : Type} (d : dict V) (k k0 : string) (v : V) :
  k <> k0 -> dict_get (dict_set d k v) k0 = dict_get d k0.
Proof.
  intros Hne. apply String.eqb_neq in Hne.
  induction d as [ | [k' v'] rest IH ]; simpl.
  - rewrite Hne. reflexivity.
  - destruct (String.eqb k' k) eqn:E; simpl.
    + apply String.eqb_eq in E. subst k'. rewrite Hne. reflexivity.
    + rewrite IH. reflexivity.
Qed.

Lemma dict_get_absent {V : Type} (d : dict V) (k : string) :
  ~ In k (keys d) -> dict_get d k = None.
Proof.
  induction d as [ | [k' v'] rest IH ]; simpl; intros H; [reflexivity|].
  destruct (String.eqb_spec k' k) as [->|Hne].
  - exfalso. apply H. left. reflexivity.
  - apply IH. intros Hin. apply H. right. exact Hin.
Qed.


(* ----------------------------------------------------------------- *)
(** ** Part detection *)

Section DetectorFacts.

Context {engine : RegexEngine} {tables : CaseTables}.

Lemma detect_one_well_formed (lowered : string) (found : dict Z)
    (key pat : string) :
  well_formed pat ->
  detect_one lowered found key pat = Return (record lowered found key pat).
Proof.
  intros [r Hr]. unfold detect_one, record, re_findall, match_count.
  rewrite Hr. simpl. destruct (re_matches r lowered); reflexivity.
Qed.

Lemma detect_one_malformed (lowered : string) (found : dict Z)
    (key pat : string) :
  malformed pat ->
  detect_one lowered found key pat = Return found
  /\ record lowered found key pat = found.
Proof.
  unfold malformed. intros Hr.
  unfold detect_one, record, re_findall, match_count.
  rewrite Hr. split; reflexivity.
Qed.

Lemma rules_checked_tail (kp : string * string) (rest : dict string) :
  rules_checked (kp :: rest) -> rules_checked rest.
Proof. intros H k pat Hin. apply (H k pat). right. exact Hin. Qed.

(** With checked rules the loop ends and leaves what [record_all] says. *)
Lemma detect_loop_returns (lowered : string) (patterns : dict string) :
  rules_checked patterns ->
  forall found,
    detect_loop lowered patterns found
    = Return (record_all lowered patterns found).
Proof.
  induction patterns as [ | [key pat] rest IH ]; intros Hc found; simpl.
  - reflexivity.
  - destruct (Hc key pat (or_introl eq_refl)) as [Hw | Hm].
    + rewrite (detect_one_well_formed lowered found key pat Hw). simpl.
      apply IH. apply (rules_checked_tail _ _ Hc).
    + destruct (detect_one_malformed lowered found key pat Hm) as [H1 H2].
      rewrite H1, H2. simpl. apply IH. apply (rules_checked_tail _ _ Hc).
Qed.

(** The entry of a key after the loop: the count of its pattern when it has
    one, else what [found] held. *)
Lemma record_all_get (lowered : string) (patterns : dict string) :
  wf_dict patterns ->
  forall found k,
    dict_get (record_all lowered patterns found) k
    = match dict_get patterns k with
      | Some pat =>
          match match_count pat lowered with
          | Some n => Some n
          | None => dict_get found k
          end
      | None => dict_get found k
      end.
Proof.
  unfold wf_dict.
  induction patterns as [ | [key pat] rest IH ]; intros Hnd found k; simpl.
  - reflexivity.
  - inversion Hnd as [ | ? ? Hnotin Hnd' ]; subst.
    rewrite (IH Hnd'). unfold record.
    destruct (String.eqb_spec key k) as [->|Hne].
    + rewrite (dict_get_absent rest k Hnotin).
      destruct (match_count pat lowered) as [n|]; [|reflexivity].
      apply dict_get_set_same.
    + destruct (match_count pat lowered) as [n|]; [|reflexivity].
      rewrite (dict_get_set_other found key k n Hne). reflexivity.
Qed.



Lemma match_count_never_zero (pat lowered : string) :
  match_count pat lowered <> Some 0%Z.
Proof.
  unfold match_count. destruct (re_compile pat) as [r|e]; [|discriminate].
  destruct (re_matches r lowered) as [ | m ms ]; [discriminate|].
  intros H. inversion H.
Qed.



(** C5, amended. [detect_parts] lower-cases the text and matches every
    pattern, as it is written, against the lower-cased text: two texts with
    the same lower-cased form give the same result, and the pattern is
    compiled as it stands. For each key it returns the number of
    non-overlapping matches of its pattern in the lower-cased text, and a
    key without a match has no entry (never the value 0). In [run_search]
    the text of a listing is its title, a line break and its description
    (nothing when it has none), and the parts of a listing that passes the
    price filter are the result of this detection. *)
Theorem detect_counts_on_lowered_text (text : string) (patterns : dict string) :
  wf_dict patterns ->
  rules_checked patterns ->
  exists found,
    detect_parts text patterns = Return found
    /\ (forall k,
          dict_get found k
          = match dict_get patterns k with
            | Some pat => match_count pat (lower text)
            | None => None
            end)
    /\ (forall k, dict_get found k <> Some 0%Z)
    /\ (forall text', lower text' = lower text ->
          detect_parts text' patterns = Return found)
    /\ (forall (cfg : Margin.settings) (lst : Listing),
          Margin.patterns cfg = patterns ->
          text = (title lst ++ Margin.newline
                    ++ match description lst with
                       | Some d => d
                       | None => EmptyString
                       end)%string ->
          Margin.out_of_range cfg lst = false ->
          exists L,
            Margin.listing_body cfg lst = Return (Some L)
            /\ detected_parts L = found).
Proof.
  intros Hwf Hc. exists (record_all (lower text) patterns []).
  assert (Hget : forall k,
             dict_get (record_all (lower text) patterns []) k
             = match dict_get patterns k with
               | Some pat => match_count pat (lower text)
               | None => None
               end).
  { intros k. rewrite (record_all_get _ _ Hwf). simpl.
    destruct (dict_get patterns k) as [pat|]; [|reflexivity].
    destruct (match_count pat (lower text)); reflexivity. }
  assert (Hret : detect_parts text patterns
                 = Return (record_all (lower text) patterns [])).
  { unfold detect_parts. apply detect_loop_returns, Hc. }
  split; [exact Hret|].
  split; [exact Hget|]. split; [|split].
  - intros k. rewrite Hget. destruct (dict_get patterns k) as [pat|].
    + apply match_count_never_zero.
    + discriminate.
  - intros text' Heq. unfold detect_parts. rewrite Heq.
    apply detect_loop_returns, Hc.
  - intros cfg lst Hp Ht Hin. unfold Margin.listing_body. rewrite Hin.
    change (Margin.text_of lst)
      with (title lst ++ Margin.newline
              ++ match description lst with
                 | Some d => d
                 | None => EmptyString
                 end)%string.
    rewrite Hp, <- Ht, Hret. simpl bind.
    eexists. split; [reflexivity|].
    unfold valuate, estimate_margin.
    destruct (ask_price _); reflexivity.
Qed.

End DetectorFacts.

Lemma detect_parts_case_of_text {engine : RegexEngine} {tables : CaseTables}
    (t1 t2 : string)
    (patterns : dict string) :
  lower t1 = lower t2 -> detect_parts t1 patterns = detect_parts t2 patterns.
Proof. intros H. unfold detect_parts. rewrite H. reflexivity. Qed.

(** The default registry has every key once, and whatever the engine, it
    gives the texts "RTX 3070" and "rtx 3070" the same result. *)
Lemma default_registry_wf : wf_dict DEFAULT_PART_PATTERNS.
Proof.
  unfold wf_dict. simpl.
  repeat (constructor; [simpl; intuition discriminate|]). constructor.
Qed.

Lemma default_registry_either_case {engine : RegexEngine} :
  detect_parts "RTX 3070" DEFAULT_PART_PATTERNS
  = detect_parts "rtx 3070" DEFAULT_PART_PATTERNS.
Proof. apply detect_parts_case_of_text. reflexivity. Qed.


(** The texts "RTX 3070" and "rtx 3070" against a lower-case rule for the
    key [gpu_rtx_3070]: the same result, one match. *)
Lemma detect_counts_on_lowered_text_witness :
  let registry := [ ("gpu_rtx_3070", "rtx 3070") ]%string in
  exists found,
    detect_parts "rtx 3070" registry = Return found
    /\ detect_parts "RTX 3070" registry = Return found
    /\ dict_get found "gpu_rtx_3070" = Some 1%Z
    /\ dict_get found "gpu_rtx_4060" = None.
Proof.
  intros registry.
  assert (Hwf : wf_dict registry).
  { unfold wf_dict, registry. simpl.
    repeat (constructor; [simpl; intuition discriminate|]). constructor. }
  assert (Hc : rules_checked registry).
  { intros k pat Hin. simpl in Hin.
    destruct Hin as [H | []]; inversion H; subst.
    left. eexists. reflexivity. }
  destruct (detect_counts_on_lowered_text "rtx 3070" registry Hwf Hc)
    as [found [Hret [Hget [Hzero Hcase]]]].
  exists found. split; [exact Hret|].
  split; [apply Hcase; reflexivity|].
  split; rewrite Hget; reflexivity.
Defined.

(** C5 as stated fails on a rule written with capitals: the registry
    gives the key [gpu_rtx_3070] the plain pattern "RTX 3070", the text
    "RTX 3070" holds it once, with or without regard to case, and the key
    is in the result neither for this text nor for "rtx 3070". *)
Lemma uppercase_pattern_counterexample :
  detect_parts "RTX 3070" [ ("gpu_rtx_3070", "RTX 3070") ]%string = Return []
  /\ detect_parts "rtx 3070" [ ("gpu_rtx_3070", "RTX 3070") ]%string = Return []
  /\ PlainRe.matches_ignorecase "RTX 3070" "RTX 3070" = [ "rtx 3070"%string ]
  /\ PlainRe.matches "RTX 3070" "RTX 3070" = [ "RTX 3070"%string ]
  /\ PlainRe.matches "RTX 3070" (lower "RTX 3070") = [].
Proof. repeat split; reflexivity. Qed.

(* ----------------------------------------------------------------- *)
(** ** Data frames: duplicates and order *)

Section FrameFacts.

Context {A : Type}.
Variable col : A -> string.

Lemma seen_spec (k : string) (seen : list string) :
  existsb (String.eqb k) seen = true <-> In k seen.
Proof.
  rewrite existsb_exists. split.
  - intros [x [Hin Heq]]. apply String.eqb_eq in Heq. subst x. exact Hin.
  - intros Hin. exists k. split; [exact Hin|apply String.eqb_refl].
Qed.

Lemma seen_false (k : string) (seen : list string) :
  existsb (String.eqb k) seen = false <-> ~ In k seen.
Proof.
  rewrite <- seen_spec. destruct (existsb (String.eqb k) seen).
  - split; [discriminate|]. intros H. exfalso. apply H. reflexivity.
  - split; [discriminate|reflexivity].
Qed.

(** A row is kept when its key was not seen and no row before it has it. *)
Lemma drop_from_first (seen : list string) (df : list A) (r : A) :
  In r (Pandas.drop_from col seen df)
  <-> (first_with col df r /\ ~ In (col r) seen).
Proof.
  unfold first_with. revert seen.
  induction df as [ | x rest IH ]; intros seen; simpl.
  - split; [contradiction|]. intros [H _]. discriminate.
  - destruct (existsb (String.eqb (col x)) seen) eqn:E.
    + apply seen_spec in E. rewrite IH.
      destruct (String.eqb_spec (col x) (col r)) as [Heq|Hne].
      * split.
        -- intros [_ Hns]. exfalso. apply Hns. rewrite <- Heq. exact E.
        -- intros [_ Hns]. exfalso. apply Hns. rewrite <- Heq. exact E.
      * reflexivity.
    + apply seen_false in E. simpl. rewrite IH.
      destruct (String.eqb_spec (col x) (col r)) as [Heq|Hne].
      * split.
        -- intros [Hx | [_ Hns]].
           ++ subst x. split; [reflexivity|exact E].
           ++ exfalso. apply Hns. left. exact Heq.
        -- intros [Hx Hns]. left. inversion Hx. reflexivity.
      * split.
        -- intros [Hx | [Hf Hns]].
           ++ subst x. exfalso. apply Hne. reflexivity.
           ++ split; [exact Hf|]. intros Hin. apply Hns. right. exact Hin.
        -- intros [Hf Hns]. right. split; [exact Hf|].
           intros [Hin | Hin]; [apply Hne; exact Hin|apply Hns; exact Hin].
Qed.

Lemma drop_from_keys (seen : list string) (df : list A) :
  NoDup (map col (Pandas.drop_from col seen df)).
Proof.
  revert seen. induction df as [ | x rest IH ]; intros seen; simpl.
  - constructor.
  - destruct (existsb (String.eqb (col x)) seen); [apply IH|].
    simpl. constructor; [|apply IH].
    intros Hin. apply in_map_iff in Hin. destruct Hin as [r [Heq Hr]].
    apply drop_from_first in Hr. destruct Hr as [_ Hns].
    apply Hns. left. symmetry. exact Heq.
Qed.

(** [drop_duplicates] keeps every key once, with its first row. *)
Lemma drop_duplicates_keys (df : list A) :
  NoDup (map col (Pandas.drop_duplicates col df)).
Proof. apply drop_from_keys. Qed.

Lemma drop_duplicates_first (df : list A) (r : A) :
  In r (Pandas.drop_duplicates col df) <-> first_with col df r.
Proof.
  unfold Pandas.drop_duplicates. rewrite drop_from_first.
  split; [intros [H _]; exact H|]. intros H. split; [exact H|]. intros [].
Qed.

Lemma first_with_exists (df : list A) (k : string) :
  In k (map col df) -> exists r, first_with col df r /\ col r = k.
Proof.
  unfold first_with. induction df as [ | x rest IH ]; simpl; [contradiction|].
  intros Hin. destruct (String.eqb_spec (col x) k) as [Heq|Hne].
  - exists x. rewrite String.eqb_refl. split; [reflexivity|exact Heq].
  - destruct Hin as [Hx | Hin]; [contradiction|].
    destruct (IH Hin) as [r [Hf Hk]]. exists r. rewrite Hk.
    apply String.eqb_neq in Hne. rewrite Hne.
    rewrite Hk in Hf. split; [exact Hf|reflexivity].
Qed.

Lemma drop_duplicates_every_key (df : list A) (k : string) :
  In k (map col df) <-> In k (map col (Pandas.drop_duplicates col df)).
Proof.
  split.
  - intros Hin. destruct (first_with_exists df k Hin) as [r [Hf Hk]].
    apply in_map_iff. exists r. split; [exact Hk|].
    apply drop_duplicates_first, Hf.
  - intros Hin. apply in_map_iff in Hin. destruct Hin as [r [Hk Hr]].
    apply drop_duplicates_first in Hr. unfold first_with in Hr.
    apply find_some in Hr. destruct Hr as [Hr _].
    apply in_map_iff. exists r. split; assumption.
Qed.

(** *** Sorting *)

Variable leb : A -> A -> bool.

Lemma insert_row_perm (r : A) (l : list A) :
  Permutation (r :: l) (Pandas.insert_row leb r l).
Proof.
  induction l as [ | x rest IH ]; simpl.
  - apply Permutation_refl.
  - destruct (leb r x).
    + apply Permutation_refl.
    + apply perm_trans with (x :: r :: rest); [apply perm_swap|].
      apply perm_skip, IH.
Qed.

Lemma sort_values_perm (df : list A) :
  Permutation df (Pandas.sort_values leb df).
Proof.
  induction df as [ | r rest IH ]; simpl.
  - apply Permutation_refl.
  - apply perm_trans with (r :: Pandas.sort_values leb rest).
    + apply perm_skip, IH.
    + apply insert_row_perm.
Qed.

Hypothesis leb_total : forall a b, leb a b = true \/ leb b a = true.
Hypothesis leb_trans :
  forall a b c, leb a b = true -> leb b c = true -> leb a c = true.

Lemma insert_row_sorted (r : A) (l : list A) :
  StronglySorted (fun a b => leb a b = true) l ->
  StronglySorted (fun a b => leb a b = true) (Pandas.insert_row leb r l).
Proof.
  induction l as [ | x rest IH ]; simpl; intros Hs.
  - constructor; constructor.
  - inversion Hs as [ | ? ? Hrest Hall ]; subst.
    destruct (leb r x) eqn:E.
    + constructor; [exact Hs|]. constructor; [exact E|].
      rewrite Forall_forall in *. intros y Hy.
      apply (leb_trans r x y E), Hall, Hy.
    + constructor; [apply IH, Hrest|].
      assert (Hxr : leb x r = true).
      { destruct (leb_total r x) as [H|H]; [congruence|exact H]. }
      rewrite Forall_forall in *. intros y Hy.
      apply (Permutation_in _ (Permutation_sym (insert_row_perm r rest))) in Hy.
      destruct Hy as [Hy | Hy]; [subst y; exact Hxr|apply Hall, Hy].
Qed.

Lemma sort_values_sorted (df : list A) :
  StronglySorted (fun a b => leb a b = true) (Pandas.sort_values leb df).
Proof.
  induction df as [ | r rest IH ]; simpl.
  - constructor.
  - apply insert_row_sorted, IH.
Qed.

End FrameFacts.

(** *** The orders of the cells *)

Lemma Qle_bool_total (x y : Q) : Qle_bool x y = true \/ Qle_bool y x = true.
Proof.
  destruct (Qlt_le_dec x y) as [H|H].
  - left. apply Qle_bool_iff, Qlt_le_weak, H.
  - right. apply Qle_bool_iff, H.
Qed.

Lemma Qle_bool_trans (x y z : Q) :
  Qle_bool x y = true -> Qle_bool y z = true -> Qle_bool x z = true.
Proof.
  rewrite !Qle_bool_iff. apply Qle_trans.
Qed.

Lemma cell_leb_total (asc : bool) (a b : option Q) :
  Pandas.cell_leb asc a b = true \/ Pandas.cell_leb asc b a = true.
Proof.
  destruct a as [x|], b as [y|]; simpl; auto.
  destruct asc; [apply Qle_bool_total|].
  destruct (Qle_bool_total x y); auto.
Qed.

Lemma cell_leb_trans (asc : bool) (a b c : option Q) :
  Pandas.cell_leb asc a b = true -> Pandas.cell_leb asc b c = true ->
  Pandas.cell_leb asc a c = true.
Proof.
  destruct a as [x|], b as [y|], c as [z|]; simpl; try discriminate; auto.
  destruct asc; intros H1 H2.
  - apply (Qle_bool_trans x y z); assumption.
  - apply (Qle_bool_trans z y x); assumption.
Qed.

(** A missing cell is before nothing but a missing cell. *)
Lemma cell_leb_na_last (asc : bool) (b : option Q) :
  Pandas.cell_leb asc None b = true -> b = None.
Proof. destruct b; simpl; [discriminate|reflexivity]. Qed.

Lemma cell2_leb_total (asc1 asc2 : bool) (a b : option Q * option Q) :
  Pandas.cell2_leb asc1 asc2 a b = true \/ Pandas.cell2_leb asc1 asc2 b a = true.
Proof.
  unfold Pandas.cell2_leb, Pandas.cell_ltb.
  destruct (cell_leb_total asc1 (fst a) (fst b)) as [H|H];
    destruct (cell_leb_total asc2 (snd a) (snd b)) as [H'|H'];
    rewrite ?H, ?H'; simpl;
    destruct (Pandas.cell_leb asc1 (fst b) (fst a)) eqn:E1;
    destruct (Pandas.cell_leb asc1 (fst a) (fst b)) eqn:E2;
    simpl; auto; discriminate.
Qed.

Lemma cell2_leb_trans (asc1 asc2 : bool) (a b c : option Q * option Q) :
  Pandas.cell2_leb asc1 asc2 a b = true ->
  Pandas.cell2_leb asc1 asc2 b c = true ->
  Pandas.cell2_leb asc1 asc2 a c = true.
Proof.
  unfold Pandas.cell2_leb, Pandas.cell_ltb.
  assert (T := cell_leb_trans asc1).
  assert (T2 := cell_leb_trans asc2 (snd a) (snd b) (snd c)).
  assert (Tab := cell_leb_total asc1 (fst a) (fst b)).
  assert (Tbc := cell_leb_total asc1 (fst b) (fst c)).
  assert (Tac := cell_leb_total asc1 (fst a) (fst c)).
  assert (Habc := T (fst a) (fst b) (fst c)).
  assert (Hbca := T (fst b) (fst c) (fst a)).
  assert (Hcab := T (fst c) (fst a) (fst b)).
  assert (Hcba := T (fst c) (fst b) (fst a)).
  destruct (Pandas.cell_leb asc1 (fst a) (fst b));
    destruct (Pandas.cell_leb asc1 (fst b) (fst a));
    destruct (Pandas.cell_leb asc1 (fst b) (fst c));
    destruct (Pandas.cell_leb asc1 (fst c) (fst b));
    destruct (Pandas.cell_leb asc1 (fst a) (fst c));
    destruct (Pandas.cell_leb asc1 (fst c) (fst a));
    simpl; intros H1 H2; try discriminate; try reflexivity;
    try (apply T2; assumption);
    try (specialize (Habc eq_refl eq_refl); discriminate);
    try (specialize (Hbca eq_refl eq_refl); discriminate);
    try (specialize (Hcab eq_refl eq_refl); discriminate);
    try (specialize (Hcba eq_refl eq_refl); discriminate);
    try (destruct Tab; discriminate);
    try (destruct Tbc; discriminate);
    try (destruct Tac; discriminate).
Qed.

Lemma notna_any_false {A : Type} (cell : A -> option Q) (df : list A) :
  Pandas.notna_any cell df = false -> forall r, In r df -> cell r = None.
Proof.
  unfold Pandas.notna_any. induction df as [ | x rest IH ]; simpl.
  - intros _ r [].
  - intros H r [Hr | Hr].
    + subst x. destruct (cell r); [discriminate|reflexivity].
    + apply IH; [|exact Hr]. destruct (cell x); [discriminate|exact H].
Qed.

Lemma all_na_sorted {A : Type} (cell : A -> option Q) (asc : bool)
    (df : list A) :
  (forall r, In r df -> cell r = None) ->
  StronglySorted (fun a b => Pandas.cell_leb asc (cell a) (cell b) = true) df.
Proof.
  induction df as [ | x rest IH ]; intros H.
  - constructor.
  - constructor.
    + apply IH. intros r Hr. apply H. right. exact Hr.
    + apply Forall_forall. intros y Hy.
      rewrite (H y (or_intror Hy)). destruct (cell x); reflexivity.
Qed.

(** In a frame in the order of a column, the rows after a row with a
    missing cell have a missing cell too. *)
Lemma na_rows_last {A : Type} (cell : A -> option Q) (asc : bool)
    (before after : list A) (r : A) :
  ordered_by (fun a b => Pandas.cell_leb asc (cell a) (cell b))
    (before ++ r :: after) ->
  cell r = None -> forall r', In r' after -> cell r' = None.
Proof.
  unfold ordered_by. induction before as [ | x rest IH ]; simpl; intros Hs Hr r' Hin.
  - inversion Hs as [ | ? ? _ Hall ]; subst.
    rewrite Forall_forall in Hall. specialize (Hall r' Hin).
    rewrite Hr in Hall. apply (cell_leb_na_last asc), Hall.
  - inversion Hs; subst. apply IH; assumption.
Qed.

Lemma cell2_leb_na_last (asc1 asc2 : bool) (p p' d' : option Q) :
  Pandas.cell2_leb asc1 asc2 (None, p) (d', p') = true -> d' = None.
Proof.
  unfold Pandas.cell2_leb, Pandas.cell_ltb. simpl.
  destruct d' as [x|]; simpl; [discriminate|reflexivity].
Qed.

(** In a frame of the Radius program in its order, the rows after a row
    without a distance have no distance. *)
Lemma no_distance_last (before after : list Radius.row) (r : Radius.row) :
  ordered_by Radius.distance_prix_leb (before ++ r :: after) ->
  Radius.distance r = None ->
  forall r', In r' after -> Radius.distance r' = None.
Proof.
  unfold ordered_by.
  induction before as [ | x rest IH ]; simpl; intros Hs Hr r' Hin.
  - inversion Hs as [ | ? ? _ Hall ]; subst.
    rewrite Forall_forall in Hall. specialize (Hall r' Hin).
    unfold Radius.distance_prix_leb in Hall. rewrite Hr in Hall.
    apply (cell2_leb_na_last true true _ _ _ Hall).
  - inversion Hs; subst. apply IH; assumption.
Qed.

(* ----------------------------------------------------------------- *)
(** ** The frames of the three programs *)

Lemma simple_clean_perm (df : list Simple.row) :
  Permutation (Pandas.drop_duplicates Simple.url df) (Simple.clean df).
Proof.
  unfold Simple.clean. destruct df as [ | r rest ]; [apply Permutation_refl|].
  destruct (Pandas.notna_any Simple.prix _).
  - apply sort_values_perm.
  - apply Permutation_refl.
Qed.

Lemma simple_clean_ordered (df : list Simple.row) :
  ordered_by Simple.prix_leb (Simple.clean df).
Proof.
  unfold Simple.clean, ordered_by. destruct df as [ | r rest ]; [constructor|].
  destruct (Pandas.notna_any Simple.prix _) eqn:E.
  - apply sort_values_sorted.
    + intros a b. apply cell_leb_total.
    + intros a b c. apply cell_leb_trans.
  - apply (all_na_sorted Simple.prix true), (notna_any_false _ _ E).
Qed.

Lemma radius_clean_perm (radius_km : Z) (df : list Radius.row) :
  Permutation
    (Pandas.drop_duplicates (fun r => Radius.url (Radius.fields r))
       (Pandas.select (Radius.keep radius_km) df))
    (Radius.clean radius_km df).
Proof.
  unfold Radius.clean. destruct df as [ | r rest ]; [apply Permutation_refl|].
  apply sort_values_perm.
Qed.

Lemma radius_clean_ordered (radius_km : Z) (df : list Radius.row) :
  ordered_by Radius.distance_prix_leb (Radius.clean radius_km df).
Proof.
  unfold Radius.clean, ordered_by. destruct df as [ | r rest ]; [constructor|].
  apply sort_values_sorted.
  - intros a b. apply cell2_leb_total.
  - intros a b c. apply cell2_leb_trans.
Qed.

Lemma to_frame_perm (listings : list Listing) :
  Permutation (map Margin.to_row listings) (Margin.to_frame listings).
Proof.
  unfold Margin.to_frame. destruct (map Margin.to_row listings) as [ | r rest ].
  - apply Permutation_refl.
  - apply sort_values_perm.
Qed.

Lemma to_frame_ordered (listings : list Listing) :
  ordered_by Margin.est_margin_leb (Margin.to_frame listings).
Proof.
  unfold Margin.to_frame, ordered_by.
  destruct (map Margin.to_row listings) as [ | r rest ]; [constructor|].
  apply sort_values_sorted.
  - intros a b. apply cell_leb_total.
  - intros a b c. apply cell_leb_trans.
Qed.

(** C7, amended. The final order is: in the Simple program, ascending by
    price; in the Margin program (valuation requested), descending by
    estimated margin; in the Radius program, ascending by distance, then
    ascending by price between rows at the same distance. In each case a
    row whose key is absent comes after the rows that have it, and no row
    is left out: the result is a rearrangement of the frame before the
    sort. *)
Theorem final_ordering :
  (forall df : list Simple.row,
      ordered_by Simple.prix_leb (Simple.clean df)
      /\ Permutation (Pandas.drop_duplicates Simple.url df) (Simple.clean df)
      /\ (forall before r after,
             Simple.clean df = (before ++ r :: after)%list -> Simple.prix r = None ->
             forall r', In r' after -> Simple.prix r' = None))
  /\ (forall listings : list Listing,
         ordered_by Margin.est_margin_leb (Margin.to_frame listings)
         /\ Permutation (map Margin.to_row listings) (Margin.to_frame listings)
         /\ (forall before r after,
                Margin.to_frame listings = (before ++ r :: after)%list ->
                Margin.col_est_margin r = None ->
                forall r', In r' after -> Margin.col_est_margin r' = None))
  /\ (forall (radius_km : Z) (df : list Radius.row),
         ordered_by Radius.distance_prix_leb (Radius.clean radius_km df)
         /\ Permutation
              (Pandas.drop_duplicates (fun r => Radius.url (Radius.fields r))
                 (Pandas.select (Radius.keep radius_km) df))
              (Radius.clean radius_km df)
         /\ (forall before r after,
                Radius.clean radius_km df = (before ++ r :: after)%list ->
                Radius.distance r = None ->
                forall r', In r' after -> Radius.distance r' = None)).
Proof.
  split; [|split].
  - intros df. split; [apply simple_clean_ordered|].
    split; [apply simple_clean_perm|].
    intros before r after Heq. apply (na_rows_last Simple.prix true before).
    rewrite <- Heq. apply simple_clean_ordered.
  - intros listings. split; [apply to_frame_ordered|].
    split; [apply to_frame_perm|].
    intros before r after Heq.
    apply (na_rows_last Margin.col_est_margin false before).
    rewrite <- Heq. apply to_frame_ordered.
  - intros radius_km df. split; [apply radius_clean_ordered|].
    split; [apply radius_clean_perm|].
    intros before r after Heq. apply (no_distance_last before).
    rewrite <- Heq. apply radius_clean_ordered.
Qed.

(** C7 as stated fails in the Radius program, where no valuation is asked:
    the ad at 1 km asked 500 euros comes before the ad at 2 km asked 100
    euros, and an ad at 1 km without a price comes before a priced one. *)
Lemma distance_first_counterexample :
  Radius.clean 20 [ far_cheap; near_dear ] = [ near_dear; far_cheap ]
  /\ ~ ordered_by
         (fun a b =>
            Pandas.cell_leb true (Radius.prix (Radius.fields a))
              (Radius.prix (Radius.fields b)))
         (Radius.clean 20 [ far_cheap; near_dear ])
  /\ Radius.clean 20 [ far_cheap; near_unpriced ] = [ near_unpriced; far_cheap ].
Proof.
  split; [reflexivity|]. split; [|reflexivity].
  intros H.
  assert (Hc : Radius.clean 20 [ far_cheap; near_dear ] = [ near_dear; far_cheap ])
    by reflexivity.
  unfold ordered_by in H. rewrite Hc in H.
  inversion H as [ | ? ? _ Hall ]; subst.
  inversion Hall as [ | ? ? Hle _ ]; subst.
  discriminate Hle.
Qed.

(** Five cards, one of them met twice: the priced ones come first, by
    price, and the two cards without a price close the frame. *)
Lemma final_ordering_witness :
  let df := [ card_unpriced; card_300; card_100; card_300_again; card_unpriced' ] in
  Simple.clean df = [ card_100; card_300; card_unpriced; card_unpriced' ]
  /\ Simple.prix card_unpriced = None
  /\ (forall r', In r' [ card_unpriced' ] -> Simple.prix r' = None).
Proof.
  intros df.
  assert (Hc : Simple.clean df
               = ([ card_100; card_300 ] ++ card_unpriced :: [ card_unpriced' ])%list)
    by reflexivity.
  split; [exact Hc|]. split; [reflexivity|].
  destruct (proj1 final_ordering df) as [_ [_ Hlast]].
  apply (Hlast [ card_100; card_300 ] card_unpriced [ card_unpriced' ] Hc).
  reflexivity.
Defined.

(* ----------------------------------------------------------------- *)
(** ** Duplicates *)

(** The Simple program keeps every locator once, with its first row. *)
Lemma simple_clean_dedup (df : list Simple.row) :
  NoDup (map Simple.url (Simple.clean df))
  /\ (forall u, In u (map Simple.url df) <-> In u (map Simple.url (Simple.clean df)))
  /\ (forall r, In r (Simple.clean df) <-> first_with Simple.url df r).
Proof.
  assert (Hp := simple_clean_perm df).
  split; [|split].
  - apply (Permutation_NoDup (Permutation_map Simple.url Hp)).
    apply drop_duplicates_keys.
  - intros u. rewrite (drop_duplicates_every_key Simple.url df u). split.
    + apply Permutation_in, Permutation_map, Hp.
    + apply Permutation_in, Permutation_map, Permutation_sym, Hp.
  - intros r. rewrite <- (drop_duplicates_first Simple.url df r). split.
    + apply Permutation_in, Permutation_sym, Hp.
    + apply Permutation_in, Hp.
Qed.

(** The Radius program does so among the rows inside the radius. *)
Lemma radius_clean_dedup (radius_km : Z) (df : list Radius.row) :
  let locator := fun r => Radius.url (Radius.fields r) in
  NoDup (map locator (Radius.clean radius_km df))
  /\ (forall r,
         In r (Radius.clean radius_km df)
         <-> first_with locator (Pandas.select (Radius.keep radius_km) df) r).
Proof.
  intros locator. assert (Hp := radius_clean_perm radius_km df).
  split.
  - apply (Permutation_NoDup (Permutation_map locator Hp)).
    apply drop_duplicates_keys.
  - intros r. rewrite <- (drop_duplicates_first locator _ r). split.
    + apply Permutation_in, Permutation_sym, Hp.
    + apply Permutation_in, Hp.
Qed.

Lemma to_frame_length (listings : list Listing) :
  List.length (Margin.to_frame listings) = List.length listings.
Proof.
  rewrite <- (Permutation_length (to_frame_perm listings)). apply length_map.
Qed.

(** C3. [run_search] has no step against duplicates: the frame has one row
    for every listing gathered. When the two pages of a query show the
    same ad, its locator is twice in the result; the cleaning of the Simple
    program keeps it once on the same rows. *)
Theorem run_search_keeps_duplicates :
  (forall listings : list Listing,
      List.length (Margin.to_frame listings) = List.length listings)
  /\ (exists r,
         Margin.run_search no_browser same_page finds_gaming_pc two_pages
         = Return [ r; r ]
         /\ Margin.col_url r = "https://www.leboncoin.fr/ad/2001"%string)
  /\ Simple.clean [ card_300; card_300 ] = [ card_300 ].
Proof.
  split; [apply to_frame_length|]. split; [|reflexivity].
  eexists. split; [vm_compute; reflexivity|reflexivity].
Qed.

(* ----------------------------------------------------------------- *)
(** ** Retrieval failures *)

Lemma yields_from_app {X R : Type} (yield : nat -> X -> list R) (n : nat)
    (l1 l2 : list X) :
  yields_from yield n (l1 ++ l2)
  = (yields_from yield n l1 ++ yields_from yield (n + List.length l1) l2)%list.
Proof.
  revert n. induction l1 as [ | x rest IH ]; intros n; simpl.
  - rewrite Nat.add_0_r. reflexivity.
  - rewrite IH, <- app_assoc, Nat.add_succ_r. reflexivity.
Qed.

Lemma page_range_length (pages : nat) : List.length (page_range pages) = pages.
Proof. unfold page_range. rewrite length_map, length_seq. reflexivity. Qed.

Section SimpleLoop.

Variable fetch : nat -> string -> option string.
Variable parse : string -> list Simple.row.
Variables query zone : string.

Lemma simple_page_body (st : Simple.state) (page : Z) :
  let st' := Simple.page_body fetch parse query zone st page in
  Simple.all_rows st'
  = (Simple.all_rows st
       ++ Simple.page_yield fetch parse query zone (Simple.requests st) page)%list
  /\ Simple.requests st' = S (Simple.requests st).
Proof.
  unfold Simple.page_body, Simple.page_yield.
  destruct (content _) as [h|]; simpl.
  - split; reflexivity.
  - rewrite app_nil_r. split; reflexivity.
Qed.

Lemma simple_pages (pages : list Z) (st : Simple.state) :
  let st' := fold_left (Simple.page_body fetch parse query zone) pages st in
  Simple.all_rows st'
  = (Simple.all_rows st
       ++ yields_from (Simple.page_yield fetch parse query zone)
            (Simple.requests st) pages)%list
  /\ Simple.requests st' = (Simple.requests st + List.length pages)%nat.
Proof.
  revert st. induction pages as [ | page rest IH ]; intros st; simpl.
  - rewrite app_nil_r, Nat.add_0_r. split; reflexivity.
  - destruct (simple_page_body st page) as [Hrows Hreq].
    destruct (IH (Simple.page_body fetch parse query zone st page)) as [H1 H2].
    rewrite H1, H2, Hrows, Hreq, <- app_assoc, Nat.add_succ_r.
    split; reflexivity.
Qed.

End SimpleLoop.

Section RadiusLoop.

Variable fetch : nat -> string -> option string.
Variable parse : string -> list Radius.ad.
Variable haversine_km : Q -> Q -> Q -> Q -> Q.
Variables keyword city : string.
Variables lat0 lon0 : Q.

Lemma radius_page_body (st : Radius.state) (p : Z) :
  let st' :=
    Radius.page_body fetch parse haversine_km keyword city lat0 lon0 st p in
  Radius.rows st'
  = (Radius.rows st
       ++ Radius.page_yield fetch parse haversine_km keyword city lat0 lon0
            (Radius.requests st) p)%list
  /\ Radius.requests st' = S (Radius.requests st).
Proof.
  unfold Radius.page_body, Radius.page_yield.
  destruct (content _) as [h|]; simpl.
  - split; reflexivity.
  - rewrite app_nil_r. split; reflexivity.
Qed.

Lemma radius_pages (pages : list Z) (st : Radius.state) :
  let body := Radius.page_body fetch parse haversine_km keyword city lat0 lon0 in
  let st' := fold_left body pages st in
  Radius.rows st'
  = (Radius.rows st
       ++ yields_from
            (Radius.page_yield fetch parse haversine_km keyword city lat0 lon0)
            (Radius.requests st) pages)%list
  /\ Radius.requests st' = (Radius.requests st + List.length pages)%nat.
Proof.
  revert st. induction pages as [ | p rest IH ]; intros st; simpl.
  - rewrite app_nil_r, Nat.add_0_r. split; reflexivity.
  - destruct (radius_page_body st p) as [Hrows Hreq].
    destruct (IH (Radius.page_body fetch parse haversine_km keyword city
                    lat0 lon0 st p)) as [H1 H2].
    simpl in H1, H2.
    rewrite H1, H2, Hrows, Hreq, <- app_assoc, Nat.add_succ_r.
    split; reflexivity.
Qed.

End RadiusLoop.

Section MarginLoop.

Context {engine : RegexEngine} {tables : CaseTables}.
Variables fetch_page_browser fetch_page_requests : nat -> string -> option string.
Variable parse_listings : string -> list Listing.
Variable cfg : Margin.settings.
Hypothesis checked : rules_checked (Margin.patterns cfg).

Lemma margin_listing_body (lst : Listing) :
  exists kept,
    Margin.listing_body cfg lst = Return kept
    /\ Margin.kept cfg lst
       = match kept with Some l => [l] | None => [] end.
Proof.
  unfold Margin.listing_body, Margin.kept.
  destruct (Margin.out_of_range cfg lst).
  - exists None. split; reflexivity.
  - unfold detect_parts. rewrite (detect_loop_returns _ _ checked). simpl.
    eexists. split; reflexivity.
Qed.

Lemma margin_listings_loop (listings acc : list Listing) :
  Margin.listings_loop cfg listings acc
  = Return (acc ++ flat_map (Margin.kept cfg) listings)%list.
Proof.
  revert acc. induction listings as [ | lst rest IH ]; intros acc; simpl.
  - rewrite app_nil_r. reflexivity.
  - destruct (margin_listing_body lst) as [kept [Hbody Hkept]].
    rewrite Hbody, Hkept. simpl. rewrite IH.
    destruct kept; simpl; [rewrite <- app_assoc|]; reflexivity.
Qed.

Local Abbreviation page_yield :=
  (Margin.page_yield fetch_page_browser fetch_page_requests parse_listings cfg).

Lemma margin_page_body (q : string) (st : Margin.state) (page : Z) :
  exists st',
    Margin.page_body fetch_page_browser fetch_page_requests parse_listings
      cfg q st page = Return st'
    /\ Margin.all_listings st'
       = (Margin.all_listings st
            ++ page_yield (Margin.requests st) (q, page))%list
    /\ Margin.requests st' = S (Margin.requests st).
Proof.
  unfold Margin.page_body, Margin.page_yield. simpl fst. simpl snd.
  destruct (content _) as [h|].
  - rewrite margin_listings_loop. simpl. eexists.
    split; [reflexivity|]. split; reflexivity.
  - eexists. split; [reflexivity|]. simpl. rewrite app_nil_r.
    split; reflexivity.
Qed.

Lemma margin_pages_loop (q : string) (pages : list Z) (st : Margin.state) :
  exists st',
    Margin.pages_loop fetch_page_browser fetch_page_requests parse_listings
      cfg q pages st = Return st'
    /\ Margin.all_listings st'
       = (Margin.all_listings st
            ++ yields_from page_yield (Margin.requests st) (map (pair q) pages))%list
    /\ Margin.requests st' = (Margin.requests st + List.length pages)%nat.
Proof.
  revert st. induction pages as [ | page rest IH ]; intros st; simpl.
  - exists st. rewrite app_nil_r, Nat.add_0_r. repeat split; reflexivity.
  - destruct (margin_page_body q st page) as [st1 [Hret [Hall Hreq]]].
    rewrite Hret. simpl.
    destruct (IH st1) as [st2 [Hret2 [Hall2 Hreq2]]].
    exists st2. split; [exact Hret2|].
    rewrite Hall2, Hreq2, Hall, Hreq, <- app_assoc, Nat.add_succ_r.
    split; reflexivity.
Qed.

Lemma margin_queries_loop (qs : list string) (st : Margin.state) :
  let reqs :=
    flat_map (fun q => map (pair q) (page_range (Margin.pages cfg))) qs in
  exists st',
    Margin.queries_loop fetch_page_browser fetch_page_requests parse_listings
      cfg qs st = Return st'
    /\ Margin.all_listings st'
       = (Margin.all_listings st
            ++ yields_from page_yield (Margin.requests st) reqs)%list
    /\ Margin.requests st' = (Margin.requests st + List.length reqs)%nat.
Proof.
  revert st. induction qs as [ | q rest IH ]; intros st; simpl.
  - exists st. rewrite app_nil_r, Nat.add_0_r. repeat split; reflexivity.
  - destruct (margin_pages_loop q (page_range (Margin.pages cfg)) st)
      as [st1 [Hret [Hall Hreq]]].
    rewrite Hret. simpl.
    destruct (IH st1) as [st2 [Hret2 [Hall2 Hreq2]]].
    exists st2. split; [exact Hret2|].
    rewrite Hall2, Hreq2, Hall, Hreq.
    rewrite yields_from_app, length_app, !length_map.
    rewrite <- app_assoc, Nat.add_assoc.
    split; reflexivity.
Qed.

End MarginLoop.

(** C4. A retrieval that fails does not stop the run. In the page loop of
    the Simple and Radius programs and in the query and page loops of
    [run_search], every request is made, a request whose retrieval fails
    adds nothing, and the listings gathered are those of the successful
    requests, in the order of the requests ([run_search] passes them
    through its price filter and its valuation). *)
Theorem retrieval_failure_is_isolated :
  (forall (fetch : nat -> string -> option string)
          (parse : string -> list Simple.row) (query zone : string) (pages : nat),
      let st := Simple.fetch_loop fetch parse query zone pages in
      Simple.all_rows st
      = yields_from (Simple.page_yield fetch parse query zone) 0 (page_range pages)
      /\ Simple.requests st = pages)
  /\ (forall (fetch : nat -> string -> option string)
             (parse : string -> list Radius.ad)
             (haversine_km : Q -> Q -> Q -> Q -> Q) (keyword city : string)
             (lat0 lon0 : Q) (pages : nat),
         let st :=
           Radius.fetch_loop fetch parse haversine_km keyword city lat0 lon0 pages in
         Radius.rows st
         = yields_from
             (Radius.page_yield fetch parse haversine_km keyword city lat0 lon0)
             0 (page_range pages)
         /\ Radius.requests st = pages)
  /\ (forall (engine : RegexEngine) (tables : CaseTables)
             (fetch_page_browser fetch_page_requests : nat -> string -> option string)
             (parse_listings : string -> list Listing) (cfg : Margin.settings),
         rules_checked (Margin.patterns cfg) ->
         exists st,
           Margin.queries_loop fetch_page_browser fetch_page_requests
             parse_listings cfg (Margin.qlist cfg) Margin.start = Return st
           /\ Margin.all_listings st
              = yields_from
                  (Margin.page_yield fetch_page_browser fetch_page_requests
                     parse_listings cfg)
                  0 (Margin.request_list cfg)
           /\ Margin.requests st = List.length (Margin.request_list cfg)
           /\ (forall n request,
                  content
                    (Margin.retrieve fetch_page_browser fetch_page_requests cfg n
                       (LeboncoinAdapter.build_search_url (fst request) None
                          (Margin.zone cfg) (Margin.bound (Margin.price_min cfg))
                          (Margin.bound (Margin.price_max cfg)) (snd request)))
                  = None ->
                  Margin.page_yield fetch_page_browser fetch_page_requests
                    parse_listings cfg n request = [])).
Proof.
  split; [|split].
  - intros fetch parse query zone pages st.
    destruct (simple_pages fetch parse query zone (page_range pages) Simple.start)
      as [Hrows Hreq].
    subst st. unfold Simple.fetch_loop. rewrite Hrows, Hreq.
    rewrite page_range_length. split; reflexivity.
  - intros fetch parse hav keyword city lat0 lon0 pages st.
    destruct (radius_pages fetch parse hav keyword city lat0 lon0
                (page_range pages) Radius.start) as [Hrows Hreq].
    subst st. unfold Radius.fetch_loop. rewrite Hrows, Hreq.
    rewrite page_range_length. split; reflexivity.
  - intros engine tables fb fr parse cfg Hc.
    destruct (margin_queries_loop fb fr parse cfg Hc (Margin.qlist cfg) Margin.start)
      as [st [Hret [Hall Hreq]]].
    exists st. split; [exact Hret|]. split; [exact Hall|]. split; [exact Hreq|].
    intros n request Hfail. unfold Margin.page_yield. rewrite Hfail. reflexivity.
Qed.

(** Five requests of which the second and the fourth fail: the listings of
    the first, the third and the fifth, in this order. *)
Lemma retrieval_failure_is_isolated_witness :
  rules_checked (Margin.patterns five_pages)
  /\ exists st,
       Margin.queries_loop no_browser second_and_fourth_fail one_per_page
         five_pages (Margin.qlist five_pages) Margin.start = Return st
       /\ map url (Margin.all_listings st)
          = [ "https://www.leboncoin.fr/ad/page 1";
              "https://www.leboncoin.fr/ad/page 3";
              "https://www.leboncoin.fr/ad/page 5" ]%string
       /\ Margin.requests st = 5%nat.
Proof.
  assert (Hc : rules_checked (Margin.patterns five_pages)).
  { intros k pat Hin. simpl in Hin.
    destruct Hin as [H | []]; inversion H; subst.
    left. eexists. reflexivity. }
  split; [exact Hc|].
  destruct (proj2 (proj2 retrieval_failure_is_isolated) PlainRe.engine
              AsciiCase.tables no_browser second_and_fourth_fail one_per_page
              five_pages Hc)
    as [st [Hret [Hall [Hreq _]]]].
  exists st. split; [exact Hret|]. split.
  - rewrite Hall. reflexivity.
  - rewrite Hreq. reflexivity.
Defined.

(* ================================================================= *)
(** * Further properties *)

(* ----------------------------------------------------------------- *)
(** ** Percent encoding *)

Lemma all_chars_app (p : ascii -> bool) (a b : string) :
  all_chars p (a ++ b) = all_chars p a && all_chars p b.
Proof.
  induction a as [ | c rest IH ]; simpl; [reflexivity|].
  rewrite IH, andb_assoc. reflexivity.
Qed.

Lemma count_char_app (c : ascii) (a b : string) :
  count_char c (a ++ b) = (count_char c a + count_char c b)%nat.
Proof.
  induction a as [ | c' rest IH ]; simpl; [reflexivity|].
  rewrite IH. lia.
Qed.

Lemma count_char_absent (p : ascii -> bool) (c : ascii) (s : string) :
  p c = false -> all_chars p s = true -> count_char c s = 0%nat.
Proof.
  intros Hc. induction s as [ | c' rest IH ]; simpl; [reflexivity|].
  intros H. apply andb_true_iff in H. destruct H as [Hc' Hr].
  rewrite (IH Hr). destruct (Ascii.eqb_spec c' c) as [->|]; [congruence|reflexivity].
Qed.

(** One character through [quote]: what is written is made of quoted
    characters and reads back as the character. *)
Lemma quote_char (c : ascii) (rest : string) :
  let piece :=
    if always_safe c || Ascii.eqb c "/" then String c EmptyString else percent c in
  all_chars quoted_char piece = true
  /\ unquote (piece ++ rest) = String c (unquote rest).
Proof.
  destruct c as [[] [] [] [] [] [] [] []]; split; reflexivity.
Qed.

Lemma quote_plus_char (c : ascii) (rest : string) :
  let piece :=
    if always_safe c || Ascii.eqb c " " then String c EmptyString else percent c in
  all_chars plus_quoted_char (space_to_plus piece) = true
  /\ unquote_plus (space_to_plus piece ++ rest) = String c (unquote_plus rest).
Proof.
  destruct c as [[] [] [] [] [] [] [] []]; split; reflexivity.
Qed.

Lemma space_to_plus_app (a b : string) :
  space_to_plus (a ++ b) = (space_to_plus a ++ space_to_plus b)%string.
Proof.
  induction a as [ | c rest IH ]; simpl; [reflexivity|]. rewrite IH. reflexivity.
Qed.

Lemma quote_unquote (s : string) : unquote (quote s) = s.
Proof.
  unfold quote. induction s as [ | c rest IH ]; [reflexivity|].
  simpl quote_with. rewrite (proj2 (quote_char c _)), IH. reflexivity.
Qed.

Lemma quote_plus_unquote_plus (s : string) : unquote_plus (quote_plus s) = s.
Proof.
  unfold quote_plus. induction s as [ | c rest IH ]; [reflexivity|].
  simpl quote_with. rewrite space_to_plus_app.
  rewrite (proj2 (quote_plus_char c _)), IH. reflexivity.
Qed.

Lemma quote_chars (s : string) : all_chars quoted_char (quote s) = true.
Proof.
  unfold quote. induction s as [ | c rest IH ]; [reflexivity|].
  simpl quote_with. rewrite all_chars_app, IH.
  destruct (quote_char c EmptyString) as [Hc _]. simpl in Hc. rewrite Hc.
  reflexivity.
Qed.

Lemma quote_plus_chars (s : string) :
  all_chars plus_quoted_char (quote_plus s) = true.
Proof.
  unfold quote_plus. induction s as [ | c rest IH ]; [reflexivity|].
  simpl quote_with. rewrite space_to_plus_app, all_chars_app, IH.
  destruct (quote_plus_char c EmptyString) as [Hc _]. simpl in Hc. rewrite Hc.
  reflexivity.
Qed.

(* ----------------------------------------------------------------- *)
(** ** Shape of the locators *)

Lemma append_nil_r (s : string) : (s ++ EmptyString)%string = s.
Proof. induction s as [ | c rest IH ]; simpl; [|rewrite IH]; reflexivity. Qed.

Lemma quote_fixes_safe (s : string) :
  all_chars always_safe s = true -> quote s = s /\ quote_plus s = s.
Proof.
  unfold quote, quote_plus. induction s as [ | c rest IH ]; simpl.
  - split; reflexivity.
  - intros H. apply andb_true_iff in H. destruct H as [Hc Hr].
    destruct (IH Hr) as [IH1 IH2]. rewrite Hc. simpl. rewrite IH1, IH2.
    split; [reflexivity|].
    destruct (Ascii.eqb_spec c " ") as [->|]; [discriminate Hc|reflexivity].
Qed.

Lemma str_of_int_safe (n : Z) : all_chars always_safe (str_of_int n) = true.
Proof.
  assert (Hu : forall d, all_chars always_safe (NilEmpty.string_of_uint d) = true).
  { induction d; simpl; auto. }
  unfold str_of_int. destruct (Z.to_int n); simpl; apply Hu.
Qed.

Lemma price_token_safe (lo : Z) (hi : option Z) :
  all_chars always_safe (LeboncoinAdapter.price_token lo hi) = true.
Proof.
  unfold LeboncoinAdapter.price_token. rewrite !all_chars_app, str_of_int_safe.
  destruct hi; simpl; rewrite ?str_of_int_safe; reflexivity.
Qed.

(** The locator of [LeboncoinAdapter.build_search_url], written out. *)
Lemma adapter_locator_shape (q : string) (cat loc : option string)
    (lo hi : option Z) (page : Z) :
  LeboncoinAdapter.build_search_url q cat loc lo hi page
  = ("https://www.leboncoin.fr/recherche/?text=" ++ quote (strip q)
       ++ "&page=" ++ str_of_int page
       ++ match lo with
          | Some l => "&price=" ++ LeboncoinAdapter.price_token l hi
          | None => EmptyString
          end
       ++ match loc with
          | Some z => if truthy_str z then "&locations=" ++ quote z else EmptyString
          | None => EmptyString
          end)%string.
Proof.
  unfold LeboncoinAdapter.build_search_url, join.
  destruct lo as [l|], loc as [[ | c z]|];
    simpl dict_set; simpl map; simpl String.concat; simpl fst; simpl snd;
    rewrite ?(proj1 (quote_fixes_safe _ (str_of_int_safe page)));
    rewrite ?(proj1 (quote_fixes_safe _ (price_token_safe l hi)));
    simpl; rewrite ?append_nil_r; reflexivity.
Qed.

(** The locator of the Simple and Radius programs, written out. *)
Lemma simple_locator_shape (q : string) (loc : option string) (page : Z) :
  build_search_url q loc page
  = ("https://www.leboncoin.fr/recherche/?text=" ++ quote_plus (strip q)
       ++ "&page=" ++ str_of_int page
       ++ match loc with
          | Some z =>
              if truthy_str z && truthy_str (strip z)
              then "&locations=" ++ quote_plus (strip z) else EmptyString
          | None => EmptyString
          end)%string.
Proof.
  unfold build_search_url, join.
  destruct loc as [z|]; [destruct (truthy_str z && truthy_str (strip z))|];
    simpl; rewrite ?append_nil_r; reflexivity.
Qed.

Lemma count_quote (c : ascii) (s : string) :
  quoted_char c = false -> count_char c (quote s) = 0%nat.
Proof. intros H. apply (count_char_absent quoted_char); [exact H|apply quote_chars]. Qed.

Lemma count_quote_plus (c : ascii) (s : string) :
  plus_quoted_char c = false -> count_char c (quote_plus s) = 0%nat.
Proof.
  intros H. apply (count_char_absent plus_quoted_char); [exact H|apply quote_plus_chars].
Qed.

Lemma count_safe (c : ascii) (s : string) :
  always_safe c = false -> all_chars always_safe s = true ->
  count_char c s = 0%nat.
Proof. intros H. apply (count_char_absent always_safe). exact H. Qed.

(** Occurrences in a locator of a character that quoting never writes:
    those of the fixed parts. *)
Lemma adapter_locator_counts (q : string) (cat loc : option string)
    (lo hi : option Z) (page : Z) (c : ascii) :
  quoted_char c = false ->
  count_char c (LeboncoinAdapter.build_search_url q cat loc lo hi page)
  = (count_char c "https://www.leboncoin.fr/recherche/?text="
     + count_char c "&page="
     + match lo with Some _ => count_char c "&price=" | None => 0 end
     + match loc with
       | Some z => if truthy_str z then count_char c "&locations=" else 0
       | None => 0
       end)%nat.
Proof.
  intros Hc.
  assert (Hs : always_safe c = false).
  { unfold quoted_char in Hc. apply orb_false_iff in Hc. destruct Hc as [Hc _].
    apply orb_false_iff in Hc. apply Hc. }
  rewrite adapter_locator_shape.
  rewrite !count_char_app, (count_quote c _ Hc),
    (count_safe c _ Hs (str_of_int_safe page)).
  destruct lo as [l|], loc as [[ | a z]|];
    simpl truthy_str; cbv iota;
    rewrite ?count_char_app, ?(count_quote c _ Hc),
      ?(count_safe c _ Hs (price_token_safe _ _));
    change (count_char c EmptyString) with 0%nat; lia.
Qed.

Lemma simple_locator_counts (q : string) (loc : option string) (page : Z)
    (c : ascii) :
  plus_quoted_char c = false ->
  count_char c (build_search_url q loc page)
  = (count_char c "https://www.leboncoin.fr/recherche/?text="
     + count_char c "&page="
     + match loc with
       | Some z =>
           if truthy_str z && truthy_str (strip z)
           then count_char c "&locations=" else 0
       | None => 0
       end)%nat.
Proof.
  intros Hc.
  assert (Hs : always_safe c = false).
  { unfold plus_quoted_char in Hc. apply orb_false_iff in Hc. destruct Hc as [Hc _].
    apply orb_false_iff in Hc. apply Hc. }
  rewrite simple_locator_shape.
  rewrite !count_char_app, (count_quote_plus c _ Hc),
    (count_safe c _ Hs (str_of_int_safe page)).
  destruct loc as [z|]; [destruct (truthy_str z && truthy_str (strip z))|];
    rewrite ?count_char_app, ?(count_quote_plus c _ Hc);
    change (count_char c EmptyString) with 0%nat; lia.
Qed.

(** X2. Whatever the query and the zone, a locator has one [?], one [&]
    between two parameters and one [=] in each parameter: two parameters,
    one more for the price (adapter, with a lower bound) and one more for a
    zone that is not empty. The texts cannot add, cut or end a parameter. *)
Theorem locator_parameters (q : string) (cat loc : option string)
    (lo hi : option Z) (page : Z) :
  let extra_adapter :=
    ((match lo with Some _ => 1 | None => 0 end)
     + (match loc with
        | Some z => if truthy_str z then 1 else 0
        | None => 0
        end))%nat in
  let extra_simple :=
    match loc with
    | Some z => if truthy_str z && truthy_str (strip z) then 1%nat else 0%nat
    | None => 0%nat
    end in
  let adapter := LeboncoinAdapter.build_search_url q cat loc lo hi page in
  let simple := build_search_url q loc page in
  count_char "?" adapter = 1%nat
  /\ count_char "&" adapter = (1 + extra_adapter)%nat
  /\ count_char "=" adapter = (2 + extra_adapter)%nat
  /\ count_char "#" adapter = 0%nat
  /\ count_char "?" simple = 1%nat
  /\ count_char "&" simple = (1 + extra_simple)%nat
  /\ count_char "=" simple = (2 + extra_simple)%nat
  /\ count_char "#" simple = 0%nat.
Proof.
  intros extra_adapter extra_simple adapter simple.
  subst adapter simple extra_adapter extra_simple.
  rewrite !adapter_locator_counts, !simple_locator_counts by reflexivity.
  destruct lo as [l|], loc as [z|];
    try destruct (truthy_str z); try destruct (truthy_str (strip z));
    repeat split; reflexivity.
Qed.

(* ----------------------------------------------------------------- *)
(** ** Trimming *)

(** Induction on a text along the characters that [lstrip] reads. *)
Lemma by_length (P : string -> Prop) :
  (forall s, (forall t, (String.length t < String.length s)%nat -> P t) -> P s) ->
  forall s, P s.
Proof.
  intros step s.
  assert (H : forall n t, (String.length t < n)%nat -> P t).
  { induction n as [ | n IH ]; intros t Hlt; [lia|].
    apply step. intros u Hu. apply IH. lia. }
  apply (H (S (String.length s))). lia.
Qed.

(** The white-space character at the start of a text, when there is one,
    and what [lstrip] and [space_width] do with it. *)
Lemma space_width_cases (s : string) :
  (space_width s = 0%nat /\ lstrip s = s)
  \/ exists pre rest,
       s = (pre ++ rest)%string /\ pre <> EmptyString
       /\ space_width s = String.length pre
       /\ lstrip s = lstrip rest
       /\ (forall t, lstrip (pre ++ t) = lstrip t)
       /\ (forall t, space_width (pre ++ t) = String.length pre).
Proof.
  destruct s as [ | c [ | b1 [ | b2 r ] ] ]; simpl.
  - left. split; reflexivity.
  - destruct (isspace c) eqn:Hc; [|left; split; reflexivity].
    right. exists (String c EmptyString), EmptyString.
    repeat split; try discriminate; intros t; simpl; rewrite Hc; reflexivity.
  - destruct (isspace c) eqn:Hc.
    + right. exists (String c EmptyString), (String b1 EmptyString).
      repeat split; try discriminate; intros t; simpl; rewrite Hc; reflexivity.
    + destruct (isspace2 c b1) eqn:H2; [|left; split; reflexivity].
      right. exists (String c (String b1 EmptyString)), EmptyString.
      repeat split; try discriminate; intros t; simpl; rewrite Hc, H2;
        reflexivity.
  - destruct (isspace c) eqn:Hc.
    + right. exists (String c EmptyString), (String b1 (String b2 r)).
      repeat split; try discriminate; intros t; simpl; rewrite Hc; reflexivity.
    + destruct (isspace2 c b1) eqn:H2.
      * right. exists (String c (String b1 EmptyString)), (String b2 r).
        repeat split; try discriminate; intros t; simpl; rewrite Hc, H2;
          reflexivity.
      * destruct (isspace3 c b1 b2) eqn:H3; [|left; split; reflexivity].
        right. exists (String c (String b1 (String b2 EmptyString))), r.
        repeat split; try discriminate; intros t; simpl; rewrite Hc, H2, H3;
          reflexivity.
Qed.

Lemma length_append (a b : string) :
  String.length (a ++ b) = (String.length a + String.length b)%nat.
Proof. induction a as [ | c a IH ]; simpl; [|rewrite IH]; reflexivity. Qed.

Lemma nonempty_length (s : string) : s <> EmptyString -> (0 < String.length s)%nat.
Proof. destruct s; [contradiction|simpl; lia]. Qed.

(** [lstrip] cuts a prefix made of white space and leaves a text that does
    not start with white space. *)
Lemma lstrip_spec (s : string) :
  exists pre,
    s = (pre ++ lstrip s)%string
    /\ blank pre = true
    /\ (forall t, lstrip (pre ++ t) = lstrip t)
    /\ space_width (lstrip s) = 0%nat.
Proof.
  induction s as [s IH] using by_length.
  destruct (space_width_cases s)
    as [[Hw Hl] | [pre [rest [Hs [Hne [Hw [Hl [Hpre _]]]]]]]].
  - exists EmptyString. rewrite Hl. repeat split. exact Hw.
  - destruct (IH rest) as [pre' [Hrest [Hb [Hpre' Hw']]]].
    { rewrite Hs, length_append. apply nonempty_length in Hne. lia. }
    exists (pre ++ pre')%string. rewrite Hl.
    split; [|split; [|split]].
    + rewrite Hs at 1. rewrite Hrest at 1.
      clear. induction pre as [ | c p IHp ]; simpl; [|rewrite IHp]; reflexivity.
    + unfold blank.
      replace (pre ++ pre')%string with (pre ++ (pre' ++ EmptyString))%string.
      * rewrite Hpre, Hpre'. reflexivity.
      * f_equal. clear. induction pre' as [ | c p IHp ]; simpl; [|rewrite IHp];
          reflexivity.
    + intros t.
      replace ((pre ++ pre') ++ t)%string with (pre ++ (pre' ++ t))%string.
      * rewrite Hpre. apply Hpre'.
      * clear. induction pre as [ | c p IHp ]; simpl; [|rewrite IHp]; reflexivity.
    + exact Hw'.
Qed.

Lemma lstrip_fixed (s : string) : space_width s = 0%nat -> lstrip s = s.
Proof.
  intros Hw.
  destruct (space_width_cases s) as [[_ Hl] | [pre [rest [_ [Hne [Hw' _]]]]]];
    [exact Hl|].
  apply nonempty_length in Hne. lia.
Qed.

Lemma blank_spec (s : string) : blank s = true <-> lstrip s = EmptyString.
Proof.
  unfold blank. destruct (lstrip s); split; intros H; try reflexivity;
    discriminate H.
Qed.

(** White space in front of a text does not count for [lstrip]. *)
Lemma lstrip_blank_app (u t : string) :
  blank u = true -> lstrip (u ++ t) = lstrip t.
Proof.
  intros Hb. apply blank_spec in Hb.
  destruct (lstrip_spec u) as [pre [Hu [_ [Hpre _]]]].
  rewrite Hb in Hu.
  assert (E : u = pre).
  { rewrite Hu at 1. clear. induction pre as [ | c p IH ]; simpl; [|rewrite IH];
      reflexivity. }
  rewrite E. apply Hpre.
Qed.

(** [rstrip] cuts a suffix made of white space. *)
Lemma rstrip_spec (s : string) :
  exists post, s = (rstrip s ++ post)%string /\ blank post = true.
Proof.
  induction s as [ | c rest IH ]; [exists EmptyString; split; reflexivity|].
  cbn [rstrip]. destruct (blank (String c rest)) eqn:E.
  - exists (String c rest). split; [reflexivity|exact E].
  - destruct IH as [post [Hs Hb]]. exists post. split; [|exact Hb].
    simpl. rewrite <- Hs. reflexivity.
Qed.

Lemma blank_rstrip (c : ascii) (rest : string) :
  blank (String c rest) = false -> blank (String c (rstrip rest)) = false.
Proof.
  intros H. destruct (blank (String c (rstrip rest))) eqn:E; [|reflexivity].
  destruct (rstrip_spec rest) as [post [Hs Hb]].
  assert (Hall : blank (String c rest) = true).
  { rewrite Hs. apply blank_spec.
    change (String c (rstrip rest ++ post))
      with (String c (rstrip rest) ++ post)%string.
    rewrite (lstrip_blank_app _ _ E). apply blank_spec, Hb. }
  rewrite Hall in H. discriminate H.
Qed.

Lemma rstrip_idempotent (s : string) : rstrip (rstrip s) = rstrip s.
Proof.
  induction s as [ | c rest IH ]; [reflexivity|].
  cbn [rstrip]. destruct (blank (String c rest)) eqn:E; [reflexivity|].
  cbn [rstrip]. rewrite (blank_rstrip c rest E), IH. reflexivity.
Qed.

(** A text that ends where [rstrip] ends has no white space at its end:
    none of its non-empty suffixes is made of white space. *)
Lemma rstrip_end (s body post : string) :
  rstrip s = s -> s = (body ++ post)%string -> blank post = true ->
  post = EmptyString.
Proof.
  revert s. induction body as [ | c body IH ]; intros s Hs E Hb.
  - simpl in E. subst post. destruct s as [ | c rest ]; [reflexivity|].
    cbn [rstrip] in Hs. rewrite Hb in Hs. discriminate Hs.
  - subst s. simpl in Hs.
    destruct (blank (String c (body ++ post))); [discriminate Hs|].
    inversion Hs as [Hs']. apply (IH (body ++ post)%string Hs' eq_refl Hb).
Qed.

(** A prefix that starts with a white-space character: so does the text. *)
Lemma space_width_prefix (p t : string) :
  space_width p <> 0%nat -> space_width (p ++ t) = space_width p.
Proof.
  intros H.
  destruct (space_width_cases p)
    as [[Hw _] | [pre [rest [Hp [_ [Hw [_ [_ Hpre]]]]]]]]; [contradiction|].
  rewrite Hw, Hp.
  replace ((pre ++ rest) ++ t)%string with (pre ++ (rest ++ t))%string.
  - apply Hpre.
  - clear. induction pre as [ | c p IH ]; simpl; [|rewrite IH]; reflexivity.
Qed.

Lemma space_width_rstrip (s : string) :
  space_width s = 0%nat -> space_width (rstrip s) = 0%nat.
Proof.
  intros Hw. destruct (rstrip_spec s) as [post [Hs _]].
  destruct (Nat.eq_dec (space_width (rstrip s)) 0) as [E|E]; [exact E|].
  rewrite Hs in Hw. rewrite (space_width_prefix _ post E) in Hw.
  contradiction.
Qed.

Lemma strip_start (s : string) : space_width (strip s) = 0%nat.
Proof.
  unfold strip. apply space_width_rstrip.
  destruct (lstrip_spec s) as [pre [_ [_ [_ Hw]]]]. exact Hw.
Qed.

Lemma strip_idempotent (s : string) : strip (strip s) = strip s.
Proof.
  unfold strip at 1. rewrite (lstrip_fixed _ (strip_start s)).
  unfold strip. apply rstrip_idempotent.
Qed.

Lemma strip_no_comma (s : string) :
  count_char "," s = 0%nat -> count_char "," (strip s) = 0%nat.
Proof.
  intros H. unfold strip.
  destruct (lstrip_spec s) as [pre [Hs _]].
  destruct (rstrip_spec (lstrip s)) as [post [Hl _]].
  rewrite Hs, Hl, !count_char_app in H. lia.
Qed.

(** X3. Trimming is done once and for all, for every white-space character
    that [str.strip] knows (the no-break space and the other white space
    outside the ASCII range too): a trimmed text starts with no white-space
    character, none of its non-empty endings is made of white space, and
    trimming it again changes nothing. So the locator does not depend on
    the white space around the query (both builders) nor, in the Simple
    and Radius builder, around the zone. *)
Theorem locator_ignores_outer_space (q : string) (cat loc : option string)
    (lo hi : option Z) (page : Z) :
  strip (strip q) = strip q
  /\ space_width (strip q) = 0%nat
  /\ (forall body post, strip q = (body ++ post)%string ->
        blank post = true -> post = EmptyString)
  /\ LeboncoinAdapter.build_search_url (strip q) cat loc lo hi page
     = LeboncoinAdapter.build_search_url q cat loc lo hi page
  /\ build_search_url (strip q) (option_map strip loc) page
     = build_search_url q loc page.
Proof.
  split; [apply strip_idempotent|].
  split; [apply strip_start|].
  split.
  { intros body post. apply rstrip_end. unfold strip. apply rstrip_idempotent. }
  split.
  - unfold LeboncoinAdapter.build_search_url. rewrite strip_idempotent. reflexivity.
  - unfold build_search_url. rewrite strip_idempotent.
    destruct loc as [z|]; simpl; [|reflexivity].
    rewrite strip_idempotent.
    destruct (strip z) as [ | c rest ] eqn:E; simpl.
    + rewrite andb_false_r. reflexivity.
    + destruct z as [ | a z' ]; [discriminate E|]. reflexivity.
Qed.

(** A query between no-break spaces and spaces, a zone between spaces. *)
Lemma locator_ignores_outer_space_witness :
  let padded := (nbsp ++ "  RTX 3070 " ++ nbsp)%string in
  strip padded = "RTX 3070"%string
  /\ (forall body post, "RTX 3070"%string = (body ++ post)%string ->
        blank post = true -> post = EmptyString)
  /\ build_search_url "RTX 3070" (Some "Lyon"%string) 1
     = build_search_url padded (Some " Lyon "%string) 1.
Proof.
  intros padded.
  destruct (locator_ignores_outer_space padded None (Some " Lyon "%string)
              None None 1) as [_ [_ [Hend [_ Hb]]]].
  split; [reflexivity|]. split; [exact Hend|exact Hb].
Defined.

(* ----------------------------------------------------------------- *)
(** ** Prices read by the parsers *)

Lemma number_truthy (p : pyval) :
  is_number p = true -> (truthy p = false <-> number_value p == 0).
Proof.
  destruct p as [ | b | n | q | s | l | d ]; simpl; try discriminate; intros _.
  - destruct b; split; intros H; try discriminate; reflexivity.
  - destruct (Z.eqb_spec n 0) as [->|Hn]; simpl; split; intros H;
      try reflexivity; try discriminate.
    exfalso. apply Hn. unfold Qeq in H. simpl in H. lia.
  - rewrite negb_false_iff. apply Qeq_bool_iff.
Qed.

Lemma fits_float_spec (q : Q) :
  fits_float q = true <-> Qabs q < inject_Z float_limit.
Proof.
  unfold fits_float. rewrite negb_true_iff. apply Qle_bool_false.
Qed.

Lemma fits_float_zero : fits_float 0 = true.
Proof. vm_compute. reflexivity. Qed.

(** The hundredth of a number in the range of a float is in the range. *)
Lemma fits_float_hundredth (q : Q) :
  fits_float q = true -> fits_float (q / 100) = true.
Proof.
  rewrite !fits_float_spec. intros H.
  apply Qle_lt_trans with (Qabs q); [|exact H].
  unfold Qdiv. rewrite Qabs_Qmult.
  change (Qabs (/ 100)) with (1 # 100).
  assert (Hq := Qabs_nonneg q). lra.
Qed.

(** The three cases of a number given as price. *)
Lemma number_price_cases (float_of_str : string -> option Q) (p : pyval) :
  is_number p = true ->
  fits_float (number_value p) = true ->
  (number_value p == 0 -> normalize_price float_of_str p = Return None)
  /\ (~ number_value p == 0 -> number_value p <= 10000 ->
        normalize_price float_of_str p = Return (Some (number_value p)))
  /\ (10000 < number_value p ->
        normalize_price float_of_str p = Return (Some (number_value p / 100))).
Proof.
  intros Hn Hfit.
  assert (Hunwrap : unwrap_value p = Return p)
    by (destruct p; try discriminate Hn; reflexivity).
  split; [|split].
  - intros H0. unfold normalize_price. rewrite Hunwrap. simpl.
    apply (number_truthy p Hn) in H0.
    rewrite (minor_unit_falsy p H0). simpl. apply float_or_none_falsy, H0.
  - intros Hnz Hle. unfold normalize_price. rewrite Hunwrap. simpl.
    rewrite (minor_unit_below p Hle). simpl. unfold float_or_none.
    destruct (truthy p) eqn:Et.
    + destruct p; try discriminate Hn; try reflexivity.
      unfold py_float. simpl in Hfit. rewrite Hfit. reflexivity.
    + exfalso. apply Hnz. apply (number_truthy p Hn). exact Et.
  - intros Hgt. unfold normalize_price. rewrite Hunwrap. simpl.
    rewrite (minor_unit_above p Hn Hgt (fits_float_hundredth _ Hfit)).
    simpl. unfold float_or_none. simpl.
    assert (Ht : Qeq_bool (number_value p / 100) 0 = false).
    { apply Qeq_bool_false. intros E.
      assert (E' : number_value p == 0).
      { setoid_replace (number_value p) with (number_value p / 100 * 100) by field.
        rewrite E. reflexivity. }
      rewrite E' in Hgt. revert Hgt. apply Qle_not_lt. discriminate. }
    rewrite Ht. reflexivity.
Qed.

(** An integer whose hundredth is out of the range of a float. *)
Lemma integer_price_overflow (float_of_str : string -> option Q) (n : Z) :
  fits_float (inject_Z n / 100) = false ->
  normalize_price float_of_str (PInt n) = Raise OverflowError.
Proof.
  intros Hbig.
  assert (Hn : fits_float (inject_Z n) = false).
  { destruct (fits_float (inject_Z n)) eqn:E; [|reflexivity].
    rewrite (fits_float_hundredth _ E) in Hbig. discriminate Hbig. }
  assert (Hz : (n =? 0)%Z = false).
  { destruct (Z.eqb_spec n 0) as [->|]; [|reflexivity].
    change (inject_Z 0) with 0 in Hn. rewrite fits_float_zero in Hn.
    discriminate Hn. }
  unfold normalize_price. cbn [unwrap_value bind].
  destruct (Qlt_le_dec 10000 (inject_Z n)) as [Hgt|Hle].
  - rewrite (minor_unit_overflow n Hgt Hbig). reflexivity.
  - rewrite (minor_unit_below (PInt n) Hle). cbn [bind].
    unfold float_or_none. cbn [truthy]. rewrite Hz. cbn [negb py_float].
    rewrite Hn. reflexivity.
Qed.

(** X4. A number in the range of a float, given as price, never makes the
    parser fail. It gives no price exactly when it is zero; a price read
    is never 0 and has the sign of the number (a negative number is read as
    a negative price); and a number up to one million never gives a price
    above 10000, so an asked price between 10000 and one million euros is
    read as its hundredth. An integer so large that its hundredth is out
    of the range of a float makes the parser raise [OverflowError]. *)
Theorem number_price (float_of_str : string -> option Q) :
  (forall p,
      is_number p = true ->
      fits_float (number_value p) = true ->
      exists read,
        normalize_price float_of_str p = Return read
        /\ (read = None <-> number_value p == 0)
        /\ (forall q, read = Some q ->
              ~ q == 0
              /\ (0 < q <-> 0 < number_value p)
              /\ (number_value p <= 1000000 -> q <= 10000)))
  /\ (forall n,
         fits_float (inject_Z n / 100) = false ->
         normalize_price float_of_str (PInt n) = Raise OverflowError).
Proof.
  split; [|apply integer_price_overflow].
  intros p Hn Hfit.
  destruct (number_price_cases float_of_str p Hn Hfit) as [Hzero [Hlow Hhigh]].
  destruct (Qeq_dec (number_value p) 0) as [H0|Hnz].
  { exists None. split; [apply Hzero, H0|].
    split; [split; intros _; [exact H0|reflexivity]|]. intros q Hq. discriminate Hq. }
  destruct (Qlt_le_dec 10000 (number_value p)) as [Hgt|Hle].
  - exists (Some (number_value p / 100)). split; [apply Hhigh, Hgt|].
    split; [split; intros H; [discriminate H|contradiction]|].
    intros q Hq. inversion Hq; subst. split; [|split].
    + intros E. apply Hnz.
      setoid_replace (number_value p) with (number_value p / 100 * 100) by field.
      rewrite E. reflexivity.
    + split; intros _.
      * apply Qlt_trans with 10000; [reflexivity|exact Hgt].
      * apply Qlt_shift_div_l; [reflexivity|].
        rewrite Qmult_0_l. apply Qlt_trans with 10000; [reflexivity|exact Hgt].
    + intros Hmax. apply Qle_shift_div_r; [reflexivity|]. exact Hmax.
  - exists (Some (number_value p)). split; [apply Hlow; assumption|].
    split; [split; intros H; [discriminate H|contradiction]|].
    intros q Hq. inversion Hq; subst.
    split; [exact Hnz|]. split; [reflexivity|]. intros _. exact Hle.
Qed.

Lemma number_price_witness :
  normalize_price (fun _ => None) (PFloat 0) = Return None
  /\ normalize_price (fun _ => None) (PInt (-50)) = Return (Some (-50))
  /\ (forall q, normalize_price (fun _ => None) (PInt 12000) = Return (Some q) ->
        q <= 10000)
  /\ normalize_price (fun _ => None) (PInt (- 10 ^ 400)) = Raise OverflowError.
Proof.
  destruct (number_price (fun _ => None)) as [Hread Hover].
  split; [reflexivity|]. split; [vm_compute; reflexivity|]. split.
  - intros q Hq.
    assert (Hfit : fits_float (number_value (PInt 12000)) = true)
      by (vm_compute; reflexivity).
    destruct (Hread (PInt 12000) eq_refl Hfit) as [read [Hr [_ Hcap]]].
    rewrite Hr in Hq. inversion Hq; subst.
    apply (Hcap q eq_refl). discriminate.
  - apply (Hover (- 10 ^ 400)%Z). vm_compute. reflexivity.
Defined.

Lemma int_of_digits_nonneg (s : string) (acc : Z) :
  (0 <= acc)%Z -> (0 <= int_of_digits acc s)%Z.
Proof.
  revert acc. induction s as [ | c rest IH ]; intros acc H; [exact H|].
  cbn [int_of_digits]. apply IH.
  apply Z.add_nonneg_nonneg; [lia|apply Nat2Z.is_nonneg].
Qed.

Lemma digits_only_digits (t : string) : all_chars is_digit (digits_only t) = true.
Proof.
  induction t as [ | c rest IH ]; simpl; [reflexivity|].
  destruct (is_digit c) eqn:E; simpl; [rewrite E|]; exact IH.
Qed.

Lemma digits_only_fixes (t : string) :
  all_chars is_digit t = true -> digits_only t = t.
Proof.
  induction t as [ | c rest IH ]; simpl; [reflexivity|].
  intros H. apply andb_true_iff in H. destruct H as [Hc Hr].
  rewrite Hc, (IH Hr). reflexivity.
Qed.

Lemma digits_only_app (a b : string) :
  digits_only (a ++ b) = (digits_only a ++ digits_only b)%string.
Proof.
  induction a as [ | c rest IH ]; simpl; [reflexivity|].
  destruct (is_digit c); simpl; rewrite IH; reflexivity.
Qed.

Lemma digits_only_none (t : string) :
  digits_only t = EmptyString <-> all_chars (fun c => negb (is_digit c)) t = true.
Proof.
  induction t as [ | c rest IH ]; simpl; [split; reflexivity|].
  destruct (is_digit c); simpl; [split; discriminate|exact IH].
Qed.

(** X5. In the markup tier of the Margin parser the price of a card is read
    from the digits of the text found for it, wherever they stand: there is
    no price exactly when the text has no digit, the price is never
    negative, and what is not a digit (spaces, the euro sign, letters)
    changes nothing, also between two digits. *)
Theorem markup_price_reads_digits (t : string) :
  (markup_price (Some t) = None
   <-> all_chars (fun c => negb (is_digit c)) t = true)
  /\ (forall q, markup_price (Some t) = Some q -> 0 <= q)
  /\ markup_price (Some (digits_only t)) = markup_price (Some t)
  /\ (forall a b, t = (a ++ b)%string ->
        markup_price (Some t)
        = markup_price (Some (digits_only a ++ digits_only b)%string)).
Proof.
  assert (Hsame : markup_price (Some (digits_only t)) = markup_price (Some t)).
  { unfold markup_price. rewrite (digits_only_fixes _ (digits_only_digits t)).
    reflexivity. }
  split; [|split; [|split]].
  - rewrite <- digits_only_none. unfold markup_price.
    destruct (digits_only t); simpl; split; intros H;
      try reflexivity; discriminate H.
  - intros q. unfold markup_price.
    destruct (truthy_str (digits_only t)); [|discriminate].
    intros H. inversion H; subst.
    unfold Qle. simpl. rewrite Z.mul_1_r.
    apply int_of_digits_nonneg. lia.
  - exact Hsame.
  - intros a b ->. rewrite <- digits_only_app. symmetry.
    unfold markup_price. rewrite (digits_only_fixes _ (digits_only_digits (a ++ b))).
    reflexivity.
Qed.

Lemma markup_price_reads_digits_witness :
  markup_price (Some "1 200 €"%string) = Some 1200
  /\ markup_price (Some "RTX 3070 - 450 €"%string) = Some 3070450
  /\ 0 <= 3070450.
Proof.
  destruct (markup_price_reads_digits "RTX 3070 - 450 €") as [_ [Hpos _]].
  split; [reflexivity|]. split; [reflexivity|].
  apply Hpos. reflexivity.
Defined.

(* ----------------------------------------------------------------- *)
(** ** The two tiers of the parsers *)

Section TierFacts.

Variable json_loads : string -> result pyval.
Context {R C : Type}.
Variable extract : pyval -> result R.
Variable of_card : C -> R.

Lemma extract_all_read (ads : list pyval) (rows : list R) :
  all_read extract ads rows ->
  forall rest out,
    extract_all extract (ads ++ rest)%list out
    = extract_all extract rest (out ++ rows)%list.
Proof.
  unfold all_read. induction 1 as [ | ad r ads rows Had Hall IH ]; intros rest out.
  - rewrite app_nil_r. reflexivity.
  - simpl. rewrite Had, IH, <- app_assoc. reflexivity.
Qed.

Lemma tier_all_read (text : string) (ads : list pyval) (rows : list R) :
  truthy_str text = true ->
  read_ads json_loads text = Return ads ->
  all_read extract ads rows ->
  structured_tier json_loads extract (Some text) = (rows, None).
Proof.
  intros Ht Hads Hall. unfold structured_tier. rewrite Ht.
  unfold read_ads in Hads. rewrite Hads.
  rewrite <- (app_nil_r ads), (extract_all_read ads rows Hall). reflexivity.
Qed.

Lemma tier_bad_ad (text : string) (good rest : list pyval) (bad : pyval)
    (rows : list R) (e : exn) :
  truthy_str text = true ->
  read_ads json_loads text = Return (good ++ bad :: rest)%list ->
  all_read extract good rows ->
  extract bad = Raise e ->
  structured_tier json_loads extract (Some text) = (rows, Some e).
Proof.
  intros Ht Hads Hall Hbad. unfold structured_tier. rewrite Ht.
  unfold read_ads in Hads. rewrite Hads.
  rewrite (extract_all_read good rows Hall). simpl. rewrite Hbad. reflexivity.
Qed.

(** X6. On a page whose structured data is sound (the script decodes, the
    path leads to the ads, every ad is read) the two kinds of parser give
    the same thing: the rows of the ads, in the order of the ads, and the
    cards of the markup only when there is no ad. *)
Theorem sound_page_rows (text : string) (ads : list pyval) (rows : list R)
    (cards : list C) :
  truthy_str text = true ->
  read_ads json_loads text = Return ads ->
  all_read extract ads rows ->
  let expected :=
    match rows with
    | [] => map of_card cards
    | _ => rows
    end in
  parse_listings_tiers json_loads extract of_card (Some text) cards = expected
  /\ parse_ads_tiers json_loads extract of_card (Some text) cards = expected.
Proof.
  intros Ht Hads Hall expected. subst expected.
  unfold parse_listings_tiers, parse_ads_tiers.
  rewrite (tier_all_read text ads rows Ht Hads Hall). simpl.
  destruct rows; split; reflexivity.
Qed.

(** X7. An ad that cannot be read ends the structured tier, and the ads
    after it are lost even when they are sound. [parse_listings] (Margin)
    returns the rows read before it, and the cards only when there is
    none; [parse_ads] (Radius, and the parser of the Simple program)
    returns the rows read before it followed by the rows of all the cards. *)
Theorem unreadable_ad (text : string) (good rest : list pyval) (bad : pyval)
    (rows : list R) (e : exn) (cards : list C) :
  truthy_str text = true ->
  read_ads json_loads text = Return (good ++ bad :: rest)%list ->
  all_read extract good rows ->
  extract bad = Raise e ->
  parse_listings_tiers json_loads extract of_card (Some text) cards
  = match rows with
    | [] => map of_card cards
    | _ => rows
    end
  /\ parse_ads_tiers json_loads extract of_card (Some text) cards
     = (rows ++ map of_card cards)%list.
Proof.
  intros Ht Hads Hall Hbad.
  unfold parse_listings_tiers, parse_ads_tiers.
  rewrite (tier_bad_ad text good rest bad rows e Ht Hads Hall Hbad). simpl.
  split; destruct rows; reflexivity.
Qed.

(** X8. Without usable structured data the result is the rows of the
    cards, for both kinds of parser: when the page has no script or an
    empty one, when the script does not decode, when the path to the ads
    meets a value that is not a dictionary, and when the ads are not
    something to loop over. *)
Theorem markup_tier_alone (script : option string) (cards : list C) :
  (script = None
   \/ script = Some EmptyString
   \/ exists text e, script = Some text /\ read_ads json_loads text = Raise e) ->
  parse_listings_tiers json_loads extract of_card script cards = map of_card cards
  /\ parse_ads_tiers json_loads extract of_card script cards = map of_card cards.
Proof.
  unfold parse_listings_tiers, parse_ads_tiers, structured_tier.
  intros [-> | [-> | [text [e [-> He]]]]]; simpl; try (split; reflexivity).
  unfold read_ads in He. rewrite He.
  destruct (truthy_str text); split; reflexivity.
Qed.

End TierFacts.

Lemma sound_page_rows_witness :
  map MarginParser.url
    (MarginParser.parse_listings decoder no_float (Some "sound"%string)
       margin_cards)
  = [ PStr "https://www.leboncoin.fr/ad/1"; PStr "https://www.leboncoin.fr/ad/2" ]
  /\ map RadiusParser.prix
       (RadiusParser.parse_ads no_float sample_euro_price decoder
          (Some "sound"%string) radius_cards)
     = [ Some (45000 / 100); Some 300 ]
  /\ MarginParser.parse_listings decoder no_float (Some "no pageProps"%string)
       margin_cards
     = map MarginParser.of_card margin_cards.
Proof.
  assert (Ht : truthy_str "sound" = true) by reflexivity.
  assert (Hads : read_ads decoder "sound" = Return two_ads) by reflexivity.
  eassert (Hm : all_read (MarginParser.extract no_float) two_ads _).
  { apply Forall2_cons; [reflexivity|]. apply Forall2_cons; [reflexivity|].
    apply Forall2_nil. }
  eassert (Hr : all_read (RadiusParser.extract no_float) two_ads _).
  { apply Forall2_cons; [reflexivity|]. apply Forall2_cons; [reflexivity|].
    apply Forall2_nil. }
  assert (Hnone : all_read (MarginParser.extract no_float) [] []) by apply Forall2_nil.
  destruct (sound_page_rows decoder (MarginParser.extract no_float)
              MarginParser.of_card "sound" two_ads _ margin_cards Ht Hads Hm)
    as [H1 _].
  destruct (sound_page_rows decoder (RadiusParser.extract no_float)
              (RadiusParser.of_card sample_euro_price) "sound" two_ads _
              radius_cards Ht Hads Hr) as [_ H2].
  destruct (sound_page_rows decoder (MarginParser.extract no_float)
              MarginParser.of_card "no pageProps" [] [] margin_cards
              eq_refl eq_refl Hnone) as [H3 _].
  split; [|split].
  - unfold MarginParser.parse_listings. rewrite H1. reflexivity.
  - unfold RadiusParser.parse_ads. rewrite H2. reflexivity.
  - exact H3.
Defined.

Lemma unreadable_ad_witness :
  map MarginParser.url
    (MarginParser.parse_listings decoder no_float
       (Some "second ad broken"%string) margin_cards)
  = [ PStr "https://www.leboncoin.fr/ad/1" ]
  /\ map RadiusParser.url
       (RadiusParser.parse_ads no_float sample_euro_price decoder
          (Some "second ad broken"%string) radius_cards)
     = [ PStr "https://www.leboncoin.fr/ad/1";
         PStr "https://www.leboncoin.fr/ad/9" ].
Proof.
  assert (Ht : truthy_str "second ad broken" = true) by reflexivity.
  assert (Hads : read_ads decoder "second ad broken"
                 = Return ([ sound_ad 1 "RTX 3070" 45000 ]
                             ++ PStr "advert" :: [ sound_ad 2 "RTX 4060" 300 ])%list)
    by reflexivity.
  eassert (Hm : all_read (MarginParser.extract no_float)
                  [ sound_ad 1 "RTX 3070" 45000 ] _).
  { apply Forall2_cons; [reflexivity|]. apply Forall2_nil. }
  eassert (Hr : all_read (RadiusParser.extract no_float)
                  [ sound_ad 1 "RTX 3070" 45000 ] _).
  { apply Forall2_cons; [reflexivity|]. apply Forall2_nil. }
  destruct (unreadable_ad decoder (MarginParser.extract no_float)
              MarginParser.of_card "second ad broken" _ _ (PStr "advert") _
              AttributeError margin_cards Ht Hads Hm eq_refl) as [H1 _].
  destruct (unreadable_ad decoder (RadiusParser.extract no_float)
              (RadiusParser.of_card sample_euro_price)
              "second ad broken" _ _ (PStr "advert") _
              AttributeError radius_cards Ht Hads Hr eq_refl) as [_ H2].
  split.
  - unfold MarginParser.parse_listings. rewrite H1. reflexivity.
  - unfold RadiusParser.parse_ads. rewrite H2. reflexivity.
Defined.

Lemma markup_tier_alone_witness :
  MarginParser.parse_listings decoder no_float None margin_cards
  = map MarginParser.of_card margin_cards
  /\ MarginParser.parse_listings decoder no_float (Some "<html>"%string)
       margin_cards
     = map MarginParser.of_card margin_cards
  /\ RadiusParser.parse_ads no_float sample_euro_price decoder
       (Some "null props"%string) radius_cards
     = map (RadiusParser.of_card sample_euro_price) radius_cards.
Proof.
  split; [|split].
  - apply (markup_tier_alone decoder (MarginParser.extract no_float)
             MarginParser.of_card None margin_cards).
    left. reflexivity.
  - apply (markup_tier_alone decoder (MarginParser.extract no_float)
             MarginParser.of_card (Some "<html>"%string) margin_cards).
    right. right. exists "<html>"%string, ValueError. split; reflexivity.
  - apply (markup_tier_alone decoder (RadiusParser.extract no_float)
             (RadiusParser.of_card sample_euro_price)
             (Some "null props"%string) radius_cards).
    right. right. exists "null props"%string, AttributeError. split; reflexivity.
Defined.

(* ----------------------------------------------------------------- *)
(** ** Fields read from an ad *)



(** A key looked up in a dictionary by [get]: its value or [None]. *)
Lemma looked_up (d : dict pyval) (k : string) :
  exists x,
    match dict_get d k with
    | Some v => Return v
    | None => Return PNone
    end = Return x
    /\ (dict_get d k = Some x \/ x = PNone).
Proof.
  destruct (dict_get d k) as [v|]; eexists; split; try reflexivity;
    [left|right]; reflexivity.
Qed.





(** X10. A location that is not a dictionary (a text, say) is read
    differently by the two parsers. The Margin parser checks the type and
    reads the ad without a location; the Radius parser calls [get] on it,
    so the ad is not read and, by the rule of the structured tier, the ads
    after it are lost. *)
Theorem location_of_another_type (float_of_str : string -> option Q)
    (d : dict pyval) (l : pyval) (p : option Q) :
  dict_get d "location" = Some l ->
  truthy l = true ->
  (forall d0, l <> PDict d0) ->
  ad_price float_of_str (PDict d) = Return p ->
  RadiusParser.extract float_of_str (PDict d) = Raise AttributeError
  /\ exists f,
       MarginParser.extract float_of_str (PDict d) = Return f
       /\ MarginParser.location f = PNone.
Proof.
  intros Hl Ht Hnot Hp.
  assert (Hor : py_or l (PDict []) = l) by (unfold py_or; rewrite Ht; reflexivity).
  split.
  - unfold RadiusParser.extract. cbn [py_get bind].
    destruct (looked_up d "subject") as [subject [Es _]]; rewrite Es.
    destruct (looked_up d "title") as [title0 [Et _]]; rewrite Et.
    destruct (looked_up d "url") as [u [Eu _]]; rewrite Eu.
    destruct (looked_up d "shareLink") as [share [Esh _]]; rewrite Esh.
    rewrite Hp, Hl. cbn [bind]. rewrite Hor.
    destruct l as [ | | | | | | d0 ]; try reflexivity.
    exfalso. apply (Hnot d0). reflexivity.
  - unfold MarginParser.extract. cbn [py_get py_get_default bind].
    destruct (looked_up d "subject") as [subject [Es _]]; rewrite Es.
    destruct (looked_up d "title") as [title0 [Et _]]; rewrite Et.
    destruct (looked_up d "url") as [u [Eu _]]; rewrite Eu.
    destruct (looked_up d "shareLink") as [share [Esh _]]; rewrite Esh.
    destruct (looked_up d "index_date") as [i [Ei _]]; rewrite Ei.
    destruct (looked_up d "first_publication_date") as [q [Eq _]]; rewrite Eq.
    rewrite Hp, Hl. cbn [bind]. rewrite Hor.
    destruct l as [ | | | | | | d0 ]; cbn [bind];
      try (destruct (dict_get d "images"); eexists; split; reflexivity).
    exfalso. apply (Hnot d0). reflexivity.
Qed.

Lemma location_of_another_type_witness :
  let ad :=
    [ ("subject", PStr "RTX 3070"); ("price", PInt 450);
      ("location", PStr "Chartres") ]%string in
  RadiusParser.extract no_float (PDict ad) = Raise AttributeError
  /\ exists f,
       MarginParser.extract no_float (PDict ad) = Return f
       /\ MarginParser.location f = PNone.
Proof.
  intros ad.
  apply (location_of_another_type no_float ad (PStr "Chartres") (Some 450)).
  - reflexivity.
  - reflexivity.
  - intros d0. discriminate.
  - reflexivity.
Defined.

(* ----------------------------------------------------------------- *)
(** ** Shape of the detection result *)

Section DetectionShape.

Context {engine : RegexEngine} {tables : CaseTables}.

Lemma keys_dict_set_new {V : Type} (d : dict V) (k : string) (v : V) :
  ~ In k (keys d) -> keys (dict_set d k v) = (keys d ++ [k])%list.
Proof.
  unfold keys. induction d as [ | [k' v'] rest IH ]; simpl; intros H.
  - reflexivity.
  - destruct (String.eqb_spec k' k) as [->|Hne].
    + exfalso. apply H. left. reflexivity.
    + simpl. rewrite IH; [reflexivity|]. intros Hin. apply H. right. exact Hin.
Qed.

Lemma record_all_keys (lowered : string) (patterns : dict string) :
  wf_dict patterns ->
  forall found,
    (forall k, In k (keys patterns) -> ~ In k (keys found)) ->
    keys (record_all lowered patterns found)
    = (keys found ++ keys (filter (rule_hits lowered) patterns))%list.
Proof.
  unfold wf_dict.
  induction patterns as [ | [key pat] rest IH ]; intros Hnd found Hfresh; simpl.
  - rewrite app_nil_r. reflexivity.
  - inversion Hnd as [ | ? ? Hnotin Hnd' ]; subst.
    unfold record, rule_hits at 1. simpl snd.
    destruct (match_count pat lowered) as [n|].
    + rewrite IH; [|exact Hnd'|].
      * rewrite keys_dict_set_new; [|apply Hfresh; left; reflexivity].
        simpl. rewrite <- app_assoc. reflexivity.
      * intros k Hk.
        rewrite keys_dict_set_new; [|apply Hfresh; left; reflexivity].
        intros Hin. apply in_app_or in Hin. destruct Hin as [Hin | [-> | []]].
        -- apply (Hfresh k); [right; exact Hk|exact Hin].
        -- apply Hnotin. exact Hk.
    + apply IH; [exact Hnd'|]. intros k Hk. apply Hfresh. right. exact Hk.
Qed.

Lemma keys_filter_nodup {V : Type} (f : string * V -> bool) (d : dict V) :
  wf_dict d -> wf_dict (filter f d).
Proof.
  unfold wf_dict, keys. induction d as [ | kv rest IH ]; simpl; intros H.
  - constructor.
  - inversion H as [ | ? ? Hnotin Hnd ]; subst.
    destruct (f kv); simpl; [|apply IH, Hnd].
    constructor; [|apply IH, Hnd].
    intros Hin. apply Hnotin. apply in_map_iff in Hin.
    destruct Hin as [x [Hx Hin]]. apply filter_In in Hin.
    apply in_map_iff. exists x. split; [exact Hx|apply Hin].
Qed.

Lemma match_count_positive (pat lowered : string) (n : Z) :
  match_count pat lowered = Some n -> (1 <= n)%Z.
Proof.
  unfold match_count. destruct (re_compile pat) as [r|e]; [|discriminate].
  destruct (re_matches r lowered) as [ | m ms ]; [discriminate|].
  intros H. inversion H. simpl List.length. lia.
Qed.

(** X11. The result of a detection is a well-formed dictionary: its keys
    are the keys of the rules that have a match, each once and in the order
    of the registry, and every count is at least 1. *)
Theorem detection_result_shape (text : string) (patterns : dict string) :
  wf_dict patterns ->
  rules_checked patterns ->
  exists found,
    detect_parts text patterns = Return found
    /\ keys found = keys (filter (rule_hits (lower text)) patterns)
    /\ wf_dict found
    /\ (forall k n, dict_get found k = Some n ->
          (1 <= n)%Z /\ In k (keys patterns)).
Proof.
  intros Hwf Hc. exists (record_all (lower text) patterns []).
  assert (Hkeys : keys (record_all (lower text) patterns [])
                  = keys (filter (rule_hits (lower text)) patterns)).
  { rewrite (record_all_keys _ _ Hwf []); [reflexivity|]. intros k _ []. }
  split; [apply detect_loop_returns, Hc|].
  split; [exact Hkeys|]. split.
  - unfold wf_dict. rewrite Hkeys. apply (keys_filter_nodup _ _ Hwf).
  - intros k n Hget. rewrite (record_all_get _ _ Hwf) in Hget. simpl in Hget.
    destruct (dict_get patterns k) as [pat|] eqn:Ek; [|discriminate Hget].
    destruct (match_count pat (lower text)) as [m|] eqn:Em; [|discriminate Hget].
    inversion Hget; subst. split; [apply (match_count_positive _ _ _ Em)|].
    clear - Ek. induction patterns as [ | [k' v'] rest IH ]; simpl in *;
      [discriminate Ek|].
    destruct (String.eqb_spec k' k) as [->|]; [left; reflexivity|].
    right. apply IH, Ek.
Qed.

End DetectionShape.

Lemma detection_result_shape_witness :
  let registry :=
    [ ("gpu_rtx_3070", "rtx 3070"); ("cpu_ryzen", "ryzen"); ("mobo_b450", "b450") ]%string in
  exists found,
    detect_parts "Carte B450 + RTX 3070, rtx 3070" registry = Return found
    /\ keys found = [ "gpu_rtx_3070"; "mobo_b450" ]%string
    /\ wf_dict found.
Proof.
  intros registry.
  assert (Hwf : wf_dict registry).
  { unfold wf_dict, registry. simpl.
    repeat (constructor; [simpl; intuition discriminate|]). constructor. }
  assert (Hc : rules_checked registry).
  { intros k pat Hin. simpl in Hin.
    destruct Hin as [H | [H | [H | []]]]; inversion H; subst;
      left; eexists; reflexivity. }
  destruct (detection_result_shape "Carte B450 + RTX 3070, rtx 3070" registry
              Hwf Hc) as [found [Hret [Hkeys [Hwf' _]]]].
  exists found. split; [exact Hret|]. split; [|exact Hwf'].
  rewrite Hkeys. reflexivity.
Defined.

(* ----------------------------------------------------------------- *)
(** ** Bounds and monotonicity of the valuation *)

Lemma max0_cases (x : Q) : (x <= 0 /\ max0 x = 0) \/ (0 < x /\ max0 x = x).
Proof.
  unfold max0. destruct (Qle_bool x 0) eqn:E.
  - left. split; [apply Qle_bool_iff, E|reflexivity].
  - right. split; [apply Qle_bool_false, E|reflexivity].
Qed.

Lemma estimate_margin_priced (lst : Listing) (n d p : Q) :
  price_eur lst = Some p -> ~ p == 0 ->
  negotiated_price_eur (estimate_margin lst n d)
  = Some (max0 (p * (1 - n / 100)))
  /\ estimated_margin_eur (estimate_margin lst n d)
     = Some (parts_value_eur lst * (1 + d / 100) - max0 (p * (1 - n / 100))).
Proof.
  intros Hp Hz. unfold estimate_margin.
  rewrite Hp, (ask_price_nonzero p Hz). split; reflexivity.
Qed.

(** X12. For a listing with a positive price and a negotiation between 0
    and 100 per cent, the negotiated price lies between 0 and the asked
    price, and the margin lies between what buying at the asked price
    would leave and the value of the parts with its bonus. *)
Theorem negotiation_bounds (lst : Listing) (n d p : Q) :
  price_eur lst = Some p -> 0 < p -> 0 <= n <= 100 ->
  let worth := parts_value_eur lst * (1 + d / 100) in
  exists v m,
    negotiated_price_eur (estimate_margin lst n d) = Some v
    /\ estimated_margin_eur (estimate_margin lst n d) = Some m
    /\ 0 <= v <= p
    /\ worth - p <= m <= worth.
Proof.
  intros Hp Hpos [Hn0 Hn] worth.
  assert (Hz : ~ p == 0) by (intros E; rewrite E in Hpos; revert Hpos; apply Qlt_irrefl).
  destruct (estimate_margin_priced lst n d p Hp Hz) as [Hv Hm].
  eexists. eexists. split; [exact Hv|]. split; [exact Hm|].
  assert (Hb : 0 <= max0 (p * (1 - n / 100)) <= p).
  { destruct (max0_cases (p * (1 - n / 100))) as [[Hle ->] | [Hlt ->]].
    - split; [apply Qle_refl|apply Qlt_le_weak, Hpos].
    - revert Hlt. unfold Qdiv. change (/ 100) with (1 # 100). intros Hlt.
      split; nra. }
  destruct Hb as [Hb1 Hb2]. subst worth.
  repeat split; try assumption; lra.
Qed.

Lemma negotiation_bounds_witness :
  exists v m,
    negotiated_price_eur (estimate_margin gaming_pc 10 5) = Some v
    /\ estimated_margin_eur (estimate_margin gaming_pc 10 5) = Some m
    /\ 0 <= v <= 400.
Proof.
  assert (Hn : 0 <= 10 <= 100) by (split; discriminate).
  destruct (negotiation_bounds gaming_pc 10 5 400 eq_refl eq_refl Hn)
    as [v [m [Hv [Hm [Hb _]]]]].
  exists v, m. split; [exact Hv|]. split; [exact Hm|exact Hb].
Defined.

(** X13. The margin follows the price and the negotiation in the expected
    direction: of two listings whose parts are worth the same, the one
    asked less, negotiated at least as hard, has at least the margin of
    the other. *)
Theorem margin_is_monotone (lst1 lst2 : Listing) (n1 n2 d p1 p2 : Q) :
  price_eur lst1 = Some p1 -> price_eur lst2 = Some p2 ->
  0 < p1 -> p1 <= p2 ->
  n2 <= n1 -> n1 <= 100 ->
  parts_value_eur lst1 == parts_value_eur lst2 ->
  exists m1 m2,
    estimated_margin_eur (estimate_margin lst1 n1 d) = Some m1
    /\ estimated_margin_eur (estimate_margin lst2 n2 d) = Some m2
    /\ m2 <= m1.
Proof.
  intros H1 H2 Hpos Hle Hn Hn1 Hparts.
  assert (Hpos2 : 0 < p2) by (apply Qlt_le_trans with p1; assumption).
  assert (Hz1 : ~ p1 == 0) by (intros E; rewrite E in Hpos; revert Hpos; apply Qlt_irrefl).
  assert (Hz2 : ~ p2 == 0) by (intros E; rewrite E in Hpos2; revert Hpos2; apply Qlt_irrefl).
  destruct (estimate_margin_priced lst1 n1 d p1 H1 Hz1) as [_ Hm1].
  destruct (estimate_margin_priced lst2 n2 d p2 H2 Hz2) as [_ Hm2].
  eexists. eexists. split; [exact Hm1|]. split; [exact Hm2|].
  rewrite Hparts.
  assert (Hmax : max0 (p1 * (1 - n1 / 100)) <= max0 (p2 * (1 - n2 / 100))).
  { destruct (max0_cases (p1 * (1 - n1 / 100))) as [[Ha ->] | [Ha ->]];
      destruct (max0_cases (p2 * (1 - n2 / 100))) as [[Hb ->] | [Hb ->]];
      revert Ha Hb; unfold Qdiv; change (/ 100) with (1 # 100); intros Ha Hb;
      try apply Qle_refl; nra. }
  lra.
Qed.

Lemma margin_is_monotone_witness :
  exists m1 m2,
    estimated_margin_eur (estimate_margin gaming_pc 10 5) = Some m1
    /\ estimated_margin_eur
         (estimate_margin
            (new_listing "https://www.leboncoin.fr/ad/2003" "PC gamer"
               (Some 450) None None [] PNone) 5 5) = Some m2
    /\ m2 <= m1.
Proof.
  apply (margin_is_monotone gaming_pc _ 10 5 5 400 450); try reflexivity;
    discriminate.
Defined.

(* ----------------------------------------------------------------- *)
(** ** Value of the parts *)

Lemma spec_attribute_total_app (a b : dict Z) (price_map : dict Q) :
  spec_attribute_total (a ++ b)%list price_map
  == spec_attribute_total a price_map + spec_attribute_total b price_map.
Proof.
  induction a as [ | [k qty] rest IH ]; simpl; [ring|]. rewrite IH. ring.
Qed.

Lemma spec_attribute_total_perm (a b : dict Z) (price_map : dict Q) :
  Permutation a b ->
  spec_attribute_total a price_map == spec_attribute_total b price_map.
Proof.
  induction 1 as [ | [k qty] a b _ IH | [k1 q1] [k2 q2] a | a b c _ IH1 _ IH2 ];
    simpl.
  - reflexivity.
  - rewrite IH. reflexivity.
  - ring.
  - rewrite IH1. exact IH2.
Qed.

Lemma unit_value_nonneg (price_map : dict Q) (k : string) :
  Forall (fun kv => 0 <= snd kv) price_map -> 0 <= unit_value price_map k.
Proof.
  unfold unit_value. induction 1 as [ | [k' v] rest Hv _ IH ]; simpl.
  - apply Qle_refl.
  - destruct (String.eqb k' k); [exact Hv|exact IH].
Qed.

(** X14. The value of the parts does not depend on the order in which the
    parts were found, adds up over two sets of parts, counts nothing for a
    key that has no reference value, and is never negative when no
    reference value and no count is. *)
Theorem parts_value_properties (parts parts' : dict Z) (price_map : dict Q) :
  (Permutation parts parts' ->
   compute_parts_value parts price_map == compute_parts_value parts' price_map)
  /\ compute_parts_value (parts ++ parts')%list price_map
     == compute_parts_value parts price_map
        + compute_parts_value parts' price_map
  /\ (forall k n, dict_get price_map k = None ->
        compute_parts_value ((k, n) :: parts) price_map
        == compute_parts_value parts price_map)
  /\ (Forall (fun kv => 0 <= snd kv) price_map ->
      Forall (fun kq => (0 <= snd kq)%Z) parts ->
      0 <= compute_parts_value parts price_map).
Proof.
  split; [|split; [|split]].
  - intros Hperm. rewrite !compute_parts_value_sum.
    apply spec_attribute_total_perm, Hperm.
  - rewrite !compute_parts_value_sum. apply spec_attribute_total_app.
  - intros k n Hk. rewrite !compute_parts_value_sum. simpl.
    unfold unit_value. rewrite Hk. ring.
  - intros Hv Hq. rewrite compute_parts_value_sum.
    induction Hq as [ | [k qty] rest Hk _ IH ]; simpl; [apply Qle_refl|].
    assert (Hu := unit_value_nonneg price_map k Hv).
    assert (Hqty : 0 <= inject_Z qty).
    { unfold Qle. simpl. simpl in Hk. lia. }
    nra.
Qed.

Lemma parts_value_properties_witness :
  compute_parts_value
    [ ("ram_ddr4_16"%string, 2%Z); ("gpu_rtx_3070"%string, 1%Z) ]
    DEFAULT_PART_VALUES
  == compute_parts_value gaming_pc_parts DEFAULT_PART_VALUES
  /\ compute_parts_value (("webcam"%string, 3%Z) :: gaming_pc_parts)
       DEFAULT_PART_VALUES
     == compute_parts_value gaming_pc_parts DEFAULT_PART_VALUES
  /\ 0 <= compute_parts_value gaming_pc_parts DEFAULT_PART_VALUES.
Proof.
  destruct (parts_value_properties
              [ ("ram_ddr4_16"%string, 2%Z); ("gpu_rtx_3070"%string, 1%Z) ]
              gaming_pc_parts DEFAULT_PART_VALUES) as [Hperm _].
  destruct (parts_value_properties gaming_pc_parts [] DEFAULT_PART_VALUES)
    as [_ [_ [Hmissing Hpos]]].
  split; [apply Hperm, perm_swap|].
  split; [apply Hmissing; reflexivity|].
  apply Hpos.
  - unfold DEFAULT_PART_VALUES. repeat (apply Forall_cons; [discriminate|]).
    apply Forall_nil.
  - unfold gaming_pc_parts. repeat (apply Forall_cons; [discriminate|]).
    apply Forall_nil.
Defined.

(* ----------------------------------------------------------------- *)
(** ** The queries of [run_search] *)

Lemma split_comma_nonempty (s : string) : Margin.split_comma s <> [].
Proof.
  induction s as [ | c rest IH ]; simpl; [discriminate|].
  destruct (Ascii.eqb c ","); [discriminate|].
  destruct (Margin.split_comma rest); discriminate.
Qed.

Lemma split_comma_pieces (s : string) :
  Forall (fun piece => count_char "," piece = 0%nat) (Margin.split_comma s).
Proof.
  induction s as [ | c rest IH ]; simpl; [repeat constructor|].
  destruct (Margin.split_comma rest) as [ | w ws ] eqn:E;
    [exfalso; apply (split_comma_nonempty rest E)|].
  destruct (Ascii.eqb_spec c ",") as [->|Hne].
  - constructor; [reflexivity|exact IH].
  - inversion IH as [ | ? ? Hw Hws ]; subst.
    constructor; [|exact Hws]. simpl.
    destruct (Ascii.eqb_spec c ","); [contradiction|exact Hw].
Qed.

Lemma flat_map_length_const {X Y : Type} (f : X -> list Y) (n : nat)
    (l : list X) :
  (forall x, List.length (f x) = n) ->
  List.length (flat_map f l) = (List.length l * n)%nat.
Proof.
  intros H. induction l as [ | x rest IH ]; simpl; [reflexivity|].
  rewrite length_app, H, IH. reflexivity.
Qed.

(** X15. [run_search] asks for every page of every query, in this order,
    whatever the retrievals give, and never builds a request for a blank
    query: the queries are the trimmed pieces of the text that are not
    blank, so each is non-empty, trimmed, and without a comma. *)
Theorem run_search_requests {engine : RegexEngine} {tables : CaseTables}
    (fetch_page_browser fetch_page_requests : nat -> string -> option string)
    (parse_listings : string -> list Listing) (cfg : Margin.settings) :
  rules_checked (Margin.patterns cfg) ->
  exists st,
    Margin.queries_loop fetch_page_browser fetch_page_requests parse_listings
      cfg (Margin.qlist cfg) Margin.start = Return st
    /\ Margin.requests st
       = (List.length (Margin.qlist cfg) * Margin.pages cfg)%nat
    /\ Forall
         (fun q =>
            q <> EmptyString /\ strip q = q /\ count_char "," q = 0%nat)
         (Margin.qlist cfg).
Proof.
  intros Hc.
  destruct (margin_queries_loop fetch_page_browser fetch_page_requests
              parse_listings cfg Hc (Margin.qlist cfg) Margin.start)
    as [st [Hret [_ Hreq]]].
  exists st. split; [exact Hret|]. split.
  - rewrite Hreq. simpl.
    apply flat_map_length_const. intros q.
    rewrite length_map. apply page_range_length.
  - unfold Margin.qlist. apply Forall_forall. intros q Hin.
    apply in_map_iff in Hin. destruct Hin as [q0 [<- Hin]].
    apply filter_In in Hin. destruct Hin as [Hin Ht].
    split; [|split].
    + intros E. rewrite E in Ht. discriminate Ht.
    + apply strip_idempotent.
    + apply strip_no_comma.
      assert (Hf := split_comma_pieces (Margin.queries cfg)).
      rewrite Forall_forall in Hf. apply Hf, Hin.
Qed.

Lemma run_search_requests_witness :
  exists st,
    Margin.queries_loop no_browser same_page finds_gaming_pc
      padded_queries (Margin.qlist padded_queries) Margin.start = Return st
    /\ Margin.requests st = (2 * 2)%nat
    /\ Margin.qlist padded_queries = [ "RTX 3070"%string; "GTX 1060"%string ].
Proof.
  assert (Hc : rules_checked (Margin.patterns padded_queries)).
  { intros k pat Hin. simpl in Hin.
    destruct Hin as [H | []]; inversion H; subst.
    left. eexists. reflexivity. }
  destruct (run_search_requests no_browser same_page finds_gaming_pc
              padded_queries Hc) as [st [Hret [Hreq _]]].
  exists st. split; [exact Hret|]. split; [|reflexivity].
  rewrite Hreq. reflexivity.
Defined.

(* ----------------------------------------------------------------- *)
(** ** The price filter of [run_search] *)

Lemma yields_from_in {X R : Type} (yield : nat -> X -> list R) (reqs : list X)
    (r : R) :
  forall n, In r (yields_from yield n reqs) ->
            exists m x, In x reqs /\ In r (yield m x).
Proof.
  induction reqs as [ | x rest IH ]; simpl; intros n Hin; [contradiction|].
  apply in_app_or in Hin. destruct Hin as [Hin | Hin].
  - exists n, x. split; [left; reflexivity|exact Hin].
  - destruct (IH _ Hin) as [m [y [Hy Hr]]]. exists m, y.
    split; [right; exact Hy|exact Hr].
Qed.

Lemma in_range (cfg : Margin.settings) (lst : Listing) (p : Q) :
  Margin.out_of_range cfg lst = false -> price_eur lst = Some p ->
  (Margin.price_min cfg <> 0%Z -> inject_Z (Margin.price_min cfg) <= p)
  /\ (Margin.price_max cfg <> 0%Z -> p <= inject_Z (Margin.price_max cfg)).
Proof.
  unfold Margin.out_of_range. intros H Hp. rewrite Hp in H.
  apply orb_false_iff in H. destruct H as [Hmin Hmax]. split; intros Hnz.
  - apply Z.eqb_neq in Hnz. rewrite Hnz in Hmin. simpl in Hmin.
    apply negb_false_iff in Hmin. apply Qle_bool_iff, Hmin.
  - apply Z.eqb_neq in Hnz. rewrite Hnz in Hmax. simpl in Hmax.
    apply negb_false_iff in Hmax. apply Qle_bool_iff, Hmax.
Qed.

(** X16. What [run_search] gathers obeys the bounds of the side bar: a
    gathered listing is a parsed listing with its valuation, its price and
    its locator untouched; when it has a price, the price is not below a
    minimum other than 0 and not above a maximum other than 0. A parsed
    listing without a price is never turned away. *)
Theorem run_search_price_bounds {engine : RegexEngine} {tables : CaseTables}
    (fetch_page_browser fetch_page_requests : nat -> string -> option string)
    (parse_listings : string -> list Listing) (cfg : Margin.settings) :
  rules_checked (Margin.patterns cfg) ->
  exists st,
    Margin.queries_loop fetch_page_browser fetch_page_requests parse_listings
      cfg (Margin.qlist cfg) Margin.start = Return st
    /\ (forall l, In l (Margin.all_listings st) ->
          (exists html lst,
              In lst (parse_listings html)
              /\ url l = url lst /\ price_eur l = price_eur lst
              /\ target_negotiation_pct l = Margin.negotiation_pct cfg)
          /\ (forall p, price_eur l = Some p ->
                (Margin.price_min cfg <> 0%Z ->
                 inject_Z (Margin.price_min cfg) <= p)
                /\ (Margin.price_max cfg <> 0%Z ->
                    p <= inject_Z (Margin.price_max cfg))))
    /\ (forall lst, price_eur lst = None -> Margin.kept cfg lst <> []).
Proof.
  intros Hc.
  destruct (margin_queries_loop fetch_page_browser fetch_page_requests
              parse_listings cfg Hc (Margin.qlist cfg) Margin.start)
    as [st [Hret [Hall _]]].
  exists st. split; [exact Hret|]. split.
  - intros l Hin. rewrite Hall in Hin. simpl in Hin.
    apply yields_from_in in Hin. destruct Hin as [m [req [_ Hin]]].
    unfold Margin.page_yield in Hin.
    destruct (content _) as [html|]; [|contradiction].
    apply in_flat_map in Hin. destruct Hin as [lst [Hlst Hin]].
    unfold Margin.kept in Hin.
    destruct (Margin.out_of_range cfg lst) eqn:Eout; [contradiction|].
    destruct Hin as [<- | []].
    split.
    + exists html, lst. repeat split. exact Hlst.
    + intros p Hp. apply (in_range cfg lst p Eout). exact Hp.
  - intros lst Hp. unfold Margin.kept, Margin.out_of_range. rewrite Hp.
    discriminate.
Qed.

Lemma run_search_price_bounds_witness :
  exists st,
    Margin.queries_loop no_browser same_page finds_gaming_pc two_pages
      (Margin.qlist two_pages) Margin.start = Return st
    /\ Forall (fun l => price_eur l = Some 400 /\ 400 <= inject_Z 1500)
         (Margin.all_listings st).
Proof.
  assert (Hc : rules_checked (Margin.patterns two_pages)).
  { intros k pat Hin. simpl in Hin.
    destruct Hin as [H | []]; inversion H; subst.
    left. eexists. reflexivity. }
  destruct (run_search_price_bounds no_browser same_page finds_gaming_pc
              two_pages Hc) as [st [Hret [Hb _]]].
  exists st. split; [exact Hret|].
  apply Forall_forall. intros l Hin.
  destruct (Hb l Hin) as [[html [lst [Hlst [_ [Hp _]]]]] Hbounds].
  destruct Hlst as [<- | []].
  split; [exact Hp|].
  apply (Hbounds 400 Hp). discriminate.
Defined.

(* ----------------------------------------------------------------- *)
(** ** The radius filter *)

Lemma radius_clean_in (radius_km : Z) (df : list Radius.row) (r : Radius.row) :
  In r (Radius.clean radius_km df)
  <-> In r (Pandas.drop_duplicates (fun r => Radius.url (Radius.fields r))
              (Pandas.select (Radius.keep radius_km) df)).
Proof.
  assert (Hp := radius_clean_perm radius_km df). split.
  - apply Permutation_in, Permutation_sym, Hp.
  - apply Permutation_in, Hp.
Qed.

(** X17. The radius never costs an ad whose place is unknown. An ad
    without latitude or without longitude gets no distance; a row without
    a distance passes the filter whatever the radius, so its locator is in
    the frame; and every row of the frame is a gathered row that has no
    distance or a distance within the radius. *)
Theorem radius_keeps_unplaced_ads (radius_km : Z) (df : list Radius.row) :
  (forall (haversine_km : Q -> Q -> Q -> Q -> Q) (lat0 lon0 : Q) (a : Radius.ad),
      Radius.lat a = None \/ Radius.lon a = None ->
      Radius.distance (Radius.with_distance haversine_km lat0 lon0 a) = None)
  /\ (forall r, In r df -> Radius.distance r = None ->
        In (Radius.url (Radius.fields r))
          (map (fun r => Radius.url (Radius.fields r))
             (Radius.clean radius_km df)))
  /\ (forall r, In r (Radius.clean radius_km df) ->
        In r df
        /\ (Radius.distance r = None
            \/ exists d, Radius.distance r = Some d /\ d <= inject_Z radius_km)).
Proof.
  split; [|split].
  - intros hav lat0 lon0 a [H | H]; unfold Radius.with_distance; rewrite H;
      [|destruct (Radius.lat a)]; reflexivity.
  - intros r Hin Hd.
    assert (Hsel : In r (Pandas.select (Radius.keep radius_km) df)).
    { apply filter_In. split; [exact Hin|]. unfold Radius.keep. rewrite Hd.
      reflexivity. }
    apply (in_map (fun r => Radius.url (Radius.fields r))) in Hsel.
    apply drop_duplicates_every_key in Hsel.
    apply in_map_iff in Hsel. destruct Hsel as [r' [Hu Hr']].
    apply in_map_iff. exists r'. split; [exact Hu|].
    apply radius_clean_in, Hr'.
  - intros r Hin. apply radius_clean_in in Hin.
    apply drop_duplicates_first in Hin. unfold first_with in Hin.
    apply find_some in Hin. destruct Hin as [Hin _].
    apply filter_In in Hin. destruct Hin as [Hin Hkeep].
    split; [exact Hin|]. unfold Radius.keep in Hkeep.
    destruct (Radius.distance r) as [d|]; [|left; reflexivity].
    right. exists d. split; [reflexivity|apply Qle_bool_iff, Hkeep].
Qed.

Lemma radius_keeps_unplaced_ads_witness :
  let unplaced :=
    Radius.mkRow
      (Radius.mkAd "RTX 3060" (Some 250) None None
         "https://www.leboncoin.fr/ad/3004" None None) None in
  In "https://www.leboncoin.fr/ad/3004"%string
    (map (fun r => Radius.url (Radius.fields r))
       (Radius.clean 1 [ far_cheap; unplaced ]))
  /\ ~ In far_cheap (Radius.clean 1 [ far_cheap; unplaced ]).
Proof.
  intros unplaced.
  destruct (radius_keeps_unplaced_ads 1 [ far_cheap; unplaced ])
    as [_ [Hkeep Hin]].
  split.
  - apply (Hkeep unplaced); [right; left; reflexivity|reflexivity].
  - intros H. destruct (Hin far_cheap H) as [_ [Hd | [d [Hd Hle]]]].
    + discriminate Hd.
    + inversion Hd; subst. revert Hle. apply Qlt_not_le. reflexivity.
Defined.

(* ----------------------------------------------------------------- *)
(** ** The table shown *)

Lemma filter_twice {A : Type} (f g : A -> bool) (l : list A) :
  filter f (filter g l) = filter (fun x => g x && f x) l.
Proof.
  induction l as [|x l IH]; [reflexivity|]. simpl.
  destruct (g x); simpl; [destruct (f x)|]; rewrite IH; reflexivity.
Qed.

(** X18. The table shown by the Margin program holds the rows of the frame
    whose margin is known, is at least the chosen minimum and, when the
    box is ticked, is positive, in the order of the frame; with a minimum
    that is not negative (the slider starts at 0) a row without a margin
    is never shown. *)
Theorem view_rows (min_margin : Z) (only_positive : bool) (df : list Margin.row) :
  (0 <= min_margin)%Z ->
  df_view min_margin only_positive df
  = filter
      (fun r =>
         match Margin.col_est_margin r with
         | Some m =>
             Qle_bool (inject_Z min_margin) m
             && (negb only_positive || negb (Qle_bool m 0))
         | None => false
         end)
      df.
Proof.
  intros Hmin. unfold df_view, Pandas.select.
  assert (Hna : Qle_bool (inject_Z min_margin) (-1) = false).
  { apply Qle_bool_false. unfold Qlt. simpl. lia. }
  destruct only_positive; cbv zeta; [rewrite filter_twice|]; apply filter_ext;
    intros r; unfold fillna; destruct (Margin.col_est_margin r) as [m|];
    rewrite ?Hna; simpl; rewrite ?andb_true_r; reflexivity.
Qed.

Lemma view_rows_witness :
  let valued := valuate gaming_pc gaming_pc_parts DEFAULT_PART_VALUES 10 5 in
  df_view 0 true (Margin.to_frame [ valued; free_listing ])
  = [ Margin.to_row valued ].
Proof.
  intros valued. rewrite (view_rows 0 true); [|lia]. vm_compute. reflexivity.
Defined.

(* ----------------------------------------------------------------- *)
(** ** The amounts of the frame *)




(* ----------------------------------------------------------------- *)
(** ** The frames stored by the Simple and Radius programs *)

(** X20. A locator is once in the frame that the Simple and the Radius
    program store. The Simple frame has every locator gathered, with the
    row of its first retrieval; the Radius frame has the first row, among
    those that pass the radius, of each locator. *)
Theorem stored_frames_have_each_locator_once :
  (forall (fetch : nat -> string -> option string)
          (parse : string -> list Simple.row) (query zone : string) (pages : nat),
      let gathered :=
        yields_from (Simple.page_yield fetch parse query zone) 0 (page_range pages) in
      let df := Simple.run fetch parse query zone pages in
      NoDup (map Simple.url df)
      /\ (forall u, In u (map Simple.url gathered) <-> In u (map Simple.url df))
      /\ (forall r, In r df <-> first_with Simple.url gathered r))
  /\ (forall (fetch : nat -> string -> option string)
             (parse : string -> list Radius.ad)
             (haversine_km : Q -> Q -> Q -> Q -> Q) (keyword city : string)
             (lat0 lon0 : Q) (radius_km : Z) (pages : nat),
         let locator := fun r => Radius.url (Radius.fields r) in
         let gathered :=
           yields_from
             (Radius.page_yield fetch parse haversine_km keyword city lat0 lon0)
             0 (page_range pages) in
         exists df,
           Radius.run fetch parse haversine_km (Some (lat0, lon0)) keyword city
             radius_km pages = Some df
           /\ NoDup (map locator df)
           /\ (forall r,
                  In r df
                  <-> first_with locator
                        (Pandas.select (Radius.keep radius_km) gathered) r)).
Proof.
  split.
  - intros fetch parse query zone pages gathered df. subst gathered df.
    unfold Simple.run, Simple.fetch_loop.
    destruct (simple_pages fetch parse query zone (page_range pages) Simple.start)
      as [Hrows _].
    simpl in Hrows. rewrite Hrows. apply simple_clean_dedup.
  - intros fetch parse hav keyword city lat0 lon0 radius_km pages locator gathered.
    subst gathered. eexists. split; [reflexivity|].
    unfold Radius.fetch_loop.
    destruct (radius_pages fetch parse hav keyword city lat0 lon0
                (page_range pages) Radius.start) as [Hrows _].
    simpl in Hrows. rewrite Hrows. apply radius_clean_dedup.
Qed.

(* ----------------------------------------------------------------- *)
(** ** From the locator back to the request *)

Lemma append_inv_head (p a b : string) :
  (p ++ a)%string = (p ++ b)%string -> a = b.
Proof.
  induction p as [ | c rest IH ]; simpl; [auto|].
  intros H. inversion H. auto.
Qed.

(** A text is cut at its first [&]: two texts without [&], each followed by
    nothing or by a text that starts with [&], are equal when the whole
    texts are. *)
Lemma cut_at_amp (a b x y : string) :
  count_char "&" a = 0%nat -> count_char "&" b = 0%nat ->
  (x = EmptyString \/ exists x', x = String "&" x') ->
  (y = EmptyString \/ exists y', y = String "&" y') ->
  (a ++ x)%string = (b ++ y)%string -> a = b /\ x = y.
Proof.
  revert b. induction a as [ | c a IH ]; intros [ | d b ] Ha Hb Hx Hy E; simpl in E.
  - split; [reflexivity|exact E].
  - exfalso. destruct Hx as [-> | [x' ->]]; [discriminate E|].
    inversion E; subst. simpl in Hb. discriminate Hb.
  - exfalso. destruct Hy as [-> | [y' ->]]; [discriminate E|].
    inversion E; subst. simpl in Ha. discriminate Ha.
  - inversion E; subst. simpl in Ha, Hb.
    destruct (IH b) as [-> ->]; try assumption; try lia.
    split; reflexivity.
Qed.

Lemma str_of_int_inj (a b : Z) : str_of_int a = str_of_int b -> a = b.
Proof.
  unfold str_of_int. intros H.
  apply (f_equal NilEmpty.int_of_string) in H. rewrite !NilEmpty.isi in H.
  inversion H as [H'].
  rewrite <- (DecimalZ.of_to a), <- (DecimalZ.of_to b), H'. reflexivity.
Qed.

(** X21. A locator tells its request: two calls of a builder that give the
    same locator have the same query, up to the white space around it, and
    the same page number, whatever the other arguments. So two different
    queries, or two pages of a query, never share a locator. *)
Theorem locator_tells_request :
  (forall (q1 q2 : string) (cat1 cat2 loc1 loc2 : option string)
          (lo1 lo2 hi1 hi2 : option Z) (page1 page2 : Z),
      LeboncoinAdapter.build_search_url q1 cat1 loc1 lo1 hi1 page1
      = LeboncoinAdapter.build_search_url q2 cat2 loc2 lo2 hi2 page2 ->
      strip q1 = strip q2 /\ page1 = page2)
  /\ (forall (q1 q2 : string) (loc1 loc2 : option string) (page1 page2 : Z),
         build_search_url q1 loc1 page1 = build_search_url q2 loc2 page2 ->
         strip q1 = strip q2 /\ page1 = page2).
Proof.
  split.
  - intros q1 q2 cat1 cat2 loc1 loc2 lo1 lo2 hi1 hi2 page1 page2.
    rewrite !adapter_locator_shape. intros E.
    apply append_inv_head in E.
    apply cut_at_amp in E;
      [|apply count_quote; reflexivity|apply count_quote; reflexivity
       |right; eexists; reflexivity|right; eexists; reflexivity].
    destruct E as [Eq Er]. split.
    + rewrite <- (quote_unquote (strip q1)), <- (quote_unquote (strip q2)), Eq.
      reflexivity.
    + apply (append_inv_head "&page=") in Er.
      apply cut_at_amp in Er.
      * apply str_of_int_inj, Er.
      * apply count_safe; [reflexivity|apply str_of_int_safe].
      * apply count_safe; [reflexivity|apply str_of_int_safe].
      * destruct lo1; [right; eexists; reflexivity|].
        destruct loc1 as [z|]; [destruct (truthy_str z)|];
          simpl; [right; eexists; reflexivity|left; reflexivity|left; reflexivity].
      * destruct lo2; [right; eexists; reflexivity|].
        destruct loc2 as [z|]; [destruct (truthy_str z)|];
          simpl; [right; eexists; reflexivity|left; reflexivity|left; reflexivity].
  - intros q1 q2 loc1 loc2 page1 page2.
    rewrite !simple_locator_shape. intros E.
    apply append_inv_head in E.
    apply cut_at_amp in E;
      [|apply count_quote_plus; reflexivity|apply count_quote_plus; reflexivity
       |right; eexists; reflexivity|right; eexists; reflexivity].
    destruct E as [Eq Er]. split.
    + rewrite <- (quote_plus_unquote_plus (strip q1)),
        <- (quote_plus_unquote_plus (strip q2)), Eq.
      reflexivity.
    + apply (append_inv_head "&page=") in Er.
      apply cut_at_amp in Er.
      * apply str_of_int_inj, Er.
      * apply count_safe; [reflexivity|apply str_of_int_safe].
      * apply count_safe; [reflexivity|apply str_of_int_safe].
      * destruct loc1 as [z|]; [destruct (truthy_str z && truthy_str (strip z))|];
          [right; eexists; reflexivity|left; reflexivity|left; reflexivity].
      * destruct loc2 as [z|]; [destruct (truthy_str z && truthy_str (strip z))|];
          [right; eexists; reflexivity|left; reflexivity|left; reflexivity].
Qed.

Lemma locator_tells_request_witness :
  strip (nbsp ++ "RTX 3070") = strip "RTX 3070 "
  /\ ~ (build_search_url "RTX 3070" (Some "Chartres"%string) 1
        = build_search_url "RTX 3070" (Some "Chartres"%string) 2).
Proof.
  destruct locator_tells_request as [Hadapter Hsimple]. split.
  - apply (Hadapter (nbsp ++ "RTX 3070")%string "RTX 3070 " None None
             (Some "France"%string) (Some "France"%string) None None None None
             1%Z 1%Z).
    reflexivity.
  - intros E. apply Hsimple in E. destruct E as [_ E]. discriminate E.
Defined.

(* ----------------------------------------------------------------- *)
(** ** The three parsers on one ad *)

Ltac lookup d k :=
  let x := fresh "x" in
  let E := fresh "E" in
  destruct (looked_up d k) as [x [E _]]; rewrite E in *; clear E.

Ltac lookup_ad d :=
  lookup d "subject"%string; lookup d "title"%string; lookup d "url"%string;
  lookup d "shareLink"%string; lookup d "location"%string;
  lookup d "index_date"%string; lookup d "first_publication_date"%string.

(** X22. The three parsers agree on an ad. Whatever ad of the structured
    data the Radius parser or the parser of the Simple program reads, the
    Margin parser reads too, with the same title, locator, price, place
    and date. *)
Theorem parsers_agree (float_of_str : string -> option Q) (ad : pyval) :
  (forall fr, RadiusParser.extract float_of_str ad = Return fr ->
     exists fm,
       MarginParser.extract float_of_str ad = Return fm
       /\ MarginParser.title fm = RadiusParser.titre fr
       /\ MarginParser.url fm = RadiusParser.url fr
       /\ MarginParser.price_eur fm = RadiusParser.prix fr
       /\ MarginParser.location fm = RadiusParser.ville fr
       /\ MarginParser.date_str fm = RadiusParser.date fr)
  /\ (forall fs, SimpleParser.extract float_of_str ad = Return fs ->
        exists fm,
          MarginParser.extract float_of_str ad = Return fm
          /\ MarginParser.title fm = SimpleParser.titre fs
          /\ MarginParser.url fm = SimpleParser.url fs
          /\ MarginParser.price_eur fm = SimpleParser.prix fs
          /\ MarginParser.location fm = SimpleParser.lieu fs
          /\ MarginParser.date_str fm = SimpleParser.date fs).
Proof.
  split.
  - intros fr H. destruct ad as [ | | | | | | d ]; try discriminate H.
    unfold RadiusParser.extract in H. unfold MarginParser.extract.
    cbn [py_get py_get_default bind] in *. lookup_ad d.
    destruct (ad_price float_of_str (PDict d)) as [price|e]; [|discriminate H].
    cbn [bind] in *.
    destruct (py_or x3 (PDict [])) as [ | | | | | | d0 ]; try discriminate H.
    cbn [py_get bind] in *.
    lookup d0 "city"%string; lookup d0 "label"%string; lookup d0 "lat"%string;
      lookup d0 "latitude"%string; lookup d0 "lng"%string;
      lookup d0 "longitude"%string.
    cbn [bind] in *.
    destruct (RadiusParser.float_unless_none float_of_str (py_or x8 x9));
      [|discriminate H].
    cbn [bind] in H.
    destruct (RadiusParser.float_unless_none float_of_str (py_or x10 x11));
      [|discriminate H].
    cbn [bind] in H. inversion H; subst fr.
    destruct (dict_get d "images"); eexists; (split; [reflexivity|]);
      repeat split; reflexivity.
  - intros fs H. destruct ad as [ | | | | | | d ]; try discriminate H.
    unfold SimpleParser.extract in H. unfold MarginParser.extract.
    cbn [py_get py_get_default bind] in *. lookup_ad d.
    destruct (ad_price float_of_str (PDict d)) as [price|e]; [|discriminate H].
    cbn [bind] in *.
    destruct (py_or x3 (PDict [])) as [ | | | | | | d0 ]; try discriminate H.
    cbn [py_get bind] in *.
    lookup d0 "city"%string; lookup d0 "label"%string.
    cbn [bind] in *.
    destruct (dict_get d "images") as [pics|]; cbn [bind] in *.
    + destruct (SimpleParser.first_image pics); [|discriminate H].
      cbn [bind] in H. inversion H; subst fs.
      eexists. split; [reflexivity|]. repeat split; reflexivity.
    + cbn in H. inversion H; subst fs.
      eexists. split; [reflexivity|]. repeat split; reflexivity.
Qed.

Lemma parsers_agree_witness :
  exists fm,
    MarginParser.extract no_float (sound_ad 1 "RTX 3070" 45000) = Return fm
    /\ MarginParser.title fm = PStr "RTX 3070"
    /\ MarginParser.price_eur fm = Some (45000 / 100)
    /\ MarginParser.location fm = PStr "Chartres".
Proof.
  destruct (parsers_agree no_float (sound_ad 1 "RTX 3070" 45000)) as [Hr _].
  destruct (Hr _ eq_refl) as [fm [Hfm [Ht [_ [Hp [Hl _]]]]]].
  exists fm. split; [exact Hfm|]. split; [exact Ht|]. split; [exact Hp|exact Hl].
Defined.

(** X23. The first picture of an ad. The parser of the Simple program
    takes the address of the first picture without looking at its type:
    when the pictures of an ad are a list whose first item is not a
    dictionary (a list of addresses, say), the ad is not read and, by the
    rule of the structured tier, the ads after it are lost. The Margin
    parser reads the ad, and skips the item. *)
Theorem first_picture_of_another_type (float_of_str : string -> option Q)
    (d : dict pyval) (first : pyval) (others : list pyval) (p : option Q) :
  dict_get d "images" = Some (PList (first :: others)) ->
  (forall d0, first <> PDict d0) ->
  ad_price float_of_str (PDict d) = Return p ->
  SimpleParser.extract float_of_str (PDict d) = Raise AttributeError
  /\ exists fm,
       MarginParser.extract float_of_str (PDict d) = Return fm
       /\ MarginParser.images fm = MarginParser.image_urls others.
Proof.
  intros Hpics Hfirst Hp.
  assert (Hskip : MarginParser.image_urls (first :: others)
                  = MarginParser.image_urls others).
  { unfold MarginParser.image_urls. simpl.
    destruct first as [ | | | | | | d0 ]; try reflexivity.
    exfalso. apply (Hfirst d0). reflexivity. }
  split.
  - unfold SimpleParser.extract. cbn [py_get py_get_default bind].
    lookup_ad d. rewrite Hp, Hpics. cbn [bind].
    destruct (py_or x3 (PDict [])) as [ | | | | | | d0 ]; try reflexivity.
    cbn [py_get bind]. lookup d0 "city"%string. lookup d0 "label"%string.
    cbn [bind SimpleParser.first_image].
    destruct first as [ | | | | | | d1 ]; try reflexivity.
    exfalso. apply (Hfirst d1). reflexivity.
  - unfold MarginParser.extract. cbn [py_get py_get_default bind].
    lookup_ad d. rewrite Hp, Hpics. cbn [bind].
    destruct (py_or x3 (PDict [])) as [ | | | | | | d0 ]; cbn [py_get bind];
      try (eexists; split; [reflexivity|exact Hskip]).
    lookup d0 "city"%string. lookup d0 "label"%string. cbn [bind].
    eexists. split; [reflexivity|exact Hskip].
Qed.

Lemma first_picture_of_another_type_witness :
  let ad :=
    [ ("subject", PStr "RTX 3070"); ("price", PInt 450);
      ("images", PList [ PStr "https://img.leboncoin.fr/1.jpg" ]) ]%string in
  SimpleParser.extract no_float (PDict ad) = Raise AttributeError
  /\ exists fm,
       MarginParser.extract no_float (PDict ad) = Return fm
       /\ MarginParser.images fm = MarginParser.image_urls [].
Proof.
  intros ad.
  apply (first_picture_of_another_type no_float ad
           (PStr "https://img.leboncoin.fr/1.jpg") [] (Some 450)).
  - reflexivity.
  - intros d0. discriminate.
  - reflexivity.
Defined.
